(** * Jackify: automated prefix service

    A shallow embedding of the identifier derivation, shortcut store,
    compatibility-mapping patching and prefix workflow of
    [jackify/backend/services/automated_prefix_service.py], together with
    the properties its specification states about them.

    Conventions of the embedding.
    - A Python [str] is the list of its Unicode code points ([PyStr.pystr]);
      [bytes] is a list of integers in [0, 256).
    - Python integers are [Z]; bit operations are the [Z] ones, which agree
      with Python's on negative numbers (two's complement, infinite sign
      extension).
    - A Python [dict] is an insertion-ordered association list with unique
      keys ([Dict.t]).
    - The [vdf] codecs are no part of the service. The model takes from
      them what a dump leaves in a file: the data it was given when the
      format holds it, and otherwise what the decoder makes of the damaged
      file, which the [world] carries as a parameter.
    - The body of a method is a computation in the monad [M]: a state
      transformer on the [world] whose result is [None] when an exception
      is raised; the state reached so far survives the exception, as it
      does on disk. The [try: ... except Exception:] around the body is
      [run], which turns the exception into the method's error result. *)

From Stdlib Require Import String Ascii DecimalString DecimalZ DecimalNat.
From Stdlib Require Import ZArith Arith Bool Lia List.
Import ListNotations.
Local Open Scope Z_scope.

(* ===================================================================== *)
(** * Python strings *)
(* ===================================================================== *)

Module PyStr.

(** A [str] as the sequence of its code points. *)
Definition pystr := list Z.

(** An ASCII literal of the source. *)
Definition lit (s : string) : pystr :=
  map (fun a => Z.of_N (N_of_ascii a)) (list_ascii_of_string s).

(** The double-quote character. *)
Definition dq : Z := 34.

(** [a == b] *)
Fixpoint eqb (a b : pystr) : bool :=
  match a, b with
  | [], [] => true
  | x :: a', y :: b' => (x =? y) && eqb a' b'
  | _, _ => false
  end.

(** [s.startswith(p)] *)
Fixpoint startswith (s p : pystr) : bool :=
  match p, s with
  | [], _ => true
  | y :: p', x :: s' => (x =? y) && startswith s' p'
  | _ :: _, [] => false
  end.

(** [s.endswith(p)] *)
Definition endswith (s p : pystr) : bool := startswith (rev s) (rev p).

(** [needle in hay] *)
Fixpoint contains (needle hay : pystr) : bool :=
  startswith hay needle ||
  match hay with
  | [] => false
  | _ :: hay' => contains needle hay'
  end.

(** [s.lstrip(chars)] with the characters to drop given by a predicate. *)
Fixpoint lstrip_by (drop : Z -> bool) (s : pystr) : pystr :=
  match s with
  | [] => []
  | c :: s' => if drop c then lstrip_by drop s' else s
  end.

Definition strip_by (drop : Z -> bool) (s : pystr) : pystr :=
  rev (lstrip_by drop (rev (lstrip_by drop s))).

(** [s.strip(chars)] *)
Definition strip_chars (chars s : pystr) : pystr :=
  strip_by (fun c => existsb (Z.eqb c) chars) s.

(** [str.isspace] on one character. *)
Definition is_space (c : Z) : bool :=
  ((0x09 <=? c) && (c <=? 0x0D)) || ((0x1C <=? c) && (c <=? 0x20))
  || (c =? 0x85) || (c =? 0xA0) || (c =? 0x1680)
  || ((0x2000 <=? c) && (c <=? 0x200A))
  || (c =? 0x2028) || (c =? 0x2029) || (c =? 0x202F) || (c =? 0x205F)
  || (c =? 0x3000).

(** [s.strip()] *)
Definition strip (s : pystr) : pystr := strip_by is_space s.

(** [str(n)] for an integer. *)
Definition str_of_Z (z : Z) : pystr :=
  lit (NilEmpty.string_of_int (Z.to_int z)).

(** [str(i)] for a loop index. *)
Definition str_of_nat (n : nat) : pystr := str_of_Z (Z.of_nat n).

(** [f'"{s}"'] *)
Definition quoted (s : pystr) : pystr := dq :: s ++ [dq].

(** One code point in UTF-8; [None] stands for [UnicodeEncodeError]
    (lone surrogates) and for integers that are no code point. *)
Definition encode_code_point (c : Z) : option (list Z) :=
  if c <? 0 then None
  else if c <? 0x80 then Some [c]
  else if c <? 0x800 then
    Some [Z.lor 0xC0 (Z.shiftr c 6); Z.lor 0x80 (Z.land c 0x3F)]
  else if c <? 0x10000 then
    if (0xD800 <=? c) && (c <=? 0xDFFF) then None
    else Some [Z.lor 0xE0 (Z.shiftr c 12);
               Z.lor 0x80 (Z.land (Z.shiftr c 6) 0x3F);
               Z.lor 0x80 (Z.land c 0x3F)]
  else if c <? 0x110000 then
    Some [Z.lor 0xF0 (Z.shiftr c 18);
          Z.lor 0x80 (Z.land (Z.shiftr c 12) 0x3F);
          Z.lor 0x80 (Z.land (Z.shiftr c 6) 0x3F);
          Z.lor 0x80 (Z.land c 0x3F)]
  else None.

(** [s.encode('utf-8')] *)
Fixpoint encode_utf8 (s : pystr) : option (list Z) :=
  match s with
  | [] => Some []
  | c :: s' =>
      match encode_code_point c, encode_utf8 s' with
      | Some a, Some b => Some (a ++ b)
      | _, _ => None
      end
  end.

End PyStr.

Import PyStr.
Arguments lit _%_string.

(* ===================================================================== *)
(** * zlib.crc32 *)
(* ===================================================================== *)

Module Zlib.

(** CRC-32 (IEEE 802.3, reflected polynomial 0xEDB88320), bit by bit. *)
Definition crc_shift (crc : Z) : Z :=
  if Z.testbit crc 0 then Z.lxor (Z.shiftr crc 1) 0xEDB88320
  else Z.shiftr crc 1.

Definition crc_byte (crc b : Z) : Z :=
  Nat.iter 8 crc_shift (Z.lxor crc b).

Definition crc32 (data : list Z) : Z :=
  Z.lxor (fold_left crc_byte data 0xFFFFFFFF) 0xFFFFFFFF.

End Zlib.

(* ===================================================================== *)
(** * hashlib.md5 *)
(* ===================================================================== *)

Module Hashlib.

Definition mask32 (x : Z) : Z := Z.land x 0xFFFFFFFF.
Definition add32 (x y : Z) : Z := mask32 (x + y).
Definition not32 (x : Z) : Z := Z.lxor x 0xFFFFFFFF.
Definition rotl32 (x n : Z) : Z :=
  mask32 (Z.lor (Z.shiftl x n) (Z.shiftr x (32 - n))).

(** Little-endian bytes of a word, and back. *)
Fixpoint le_bytes (n : nat) (w : Z) : list Z :=
  match n with
  | O => []
  | S n' => Z.land w 0xFF :: le_bytes n' (Z.shiftr w 8)
  end.

Fixpoint le_word (bs : list Z) : Z :=
  match bs with
  | [] => 0
  | b :: bs' => Z.lor b (Z.shiftl (le_word bs') 8)
  end.

(** RFC 1321, section 3.4: the sine table and the shift amounts. *)
Definition sines : list Z :=
  [ 0xd76aa478; 0xe8c7b756; 0x242070db; 0xc1bdceee;
    0xf57c0faf; 0x4787c62a; 0xa8304613; 0xfd469501;
    0x698098d8; 0x8b44f7af; 0xffff5bb1; 0x895cd7be;
    0x6b901122; 0xfd987193; 0xa679438e; 0x49b40821;
    0xf61e2562; 0xc040b340; 0x265e5a51; 0xe9b6c7aa;
    0xd62f105d; 0x02441453; 0xd8a1e681; 0xe7d3fbc8;
    0x21e1cde6; 0xc33707d6; 0xf4d50d87; 0x455a14ed;
    0xa9e3e905; 0xfcefa3f8; 0x676f02d9; 0x8d2a4c8a;
    0xfffa3942; 0x8771f681; 0x6d9d6122; 0xfde5380c;
    0xa4beea44; 0x4bdecfa9; 0xf6bb4b60; 0xbebfbc70;
    0x289b7ec6; 0xeaa127fa; 0xd4ef3085; 0x04881d05;
    0xd9d4d039; 0xe6db99e5; 0x1fa27cf8; 0xc4ac5665;
    0xf4292244; 0x432aff97; 0xab9423a7; 0xfc93a039;
    0x655b59c3; 0x8f0ccc92; 0xffeff47d; 0x85845dd1;
    0x6fa87e4f; 0xfe2ce6e0; 0xa3014314; 0x4e0811a1;
    0xf7537e82; 0xbd3af235; 0x2ad7d2bb; 0xeb86d391 ].

Definition shifts : list Z :=
  [ 7; 12; 17; 22; 7; 12; 17; 22; 7; 12; 17; 22; 7; 12; 17; 22;
    5; 9; 14; 20; 5; 9; 14; 20; 5; 9; 14; 20; 5; 9; 14; 20;
    4; 11; 16; 23; 4; 11; 16; 23; 4; 11; 16; 23; 4; 11; 16; 23;
    6; 10; 15; 21; 6; 10; 15; 21; 6; 10; 15; 21; 6; 10; 15; 21 ].

(** The auxiliary function and the message word of step [i]. *)
Definition mix (i : nat) (b c d : Z) : Z :=
  if (i <? 16)%nat then Z.lor (Z.land b c) (Z.land (not32 b) d)
  else if (i <? 32)%nat then Z.lor (Z.land d b) (Z.land (not32 d) c)
  else if (i <? 48)%nat then Z.lxor b (Z.lxor c d)
  else Z.lxor c (Z.lor b (not32 d)).

Definition word_index (i : nat) : nat :=
  if (i <? 16)%nat then i
  else if (i <? 32)%nat then (5 * i + 1) mod 16
  else if (i <? 48)%nat then (3 * i + 5) mod 16
  else (7 * i) mod 16.

Definition state : Type := Z * Z * Z * Z.

Definition step (m : list Z) (st : state) (i : nat) : state :=
  let '(a, b, c, d) := st in
  let f := add32 (add32 (add32 (mix i b c d) a) (nth i sines 0))
                 (nth (word_index i) m 0) in
  (d, add32 b (rotl32 f (nth i shifts 0)), b, c).

(** The sixteen little-endian words of a 64-byte block. *)
Fixpoint words (n : nat) (block : list Z) : list Z :=
  match n with
  | O => []
  | S n' => le_word (firstn 4 block) :: words n' (skipn 4 block)
  end.

Definition compress (h : state) (block : list Z) : state :=
  let '(a0, b0, c0, d0) := h in
  let '(a, b, c, d) := fold_left (step (words 16 block)) (seq 0 64) h in
  (add32 a0 a, add32 b0 b, add32 c0 c, add32 d0 d).

Fixpoint blocks (n : nat) (data : list Z) : list (list Z) :=
  match n with
  | O => []
  | S n' => firstn 64 data :: blocks n' (skipn 64 data)
  end.

(** Padding: a 1 bit, zeros up to 56 mod 64, the bit length on 64 bits. *)
Definition pad (msg : list Z) : list Z :=
  let len := Z.of_nat (length msg) in
  msg ++ [0x80] ++ repeat 0 (Z.to_nat ((55 - len) mod 64))
      ++ le_bytes 8 (Z.land (8 * len) 0xFFFFFFFFFFFFFFFF).

Definition init : state := (0x67452301, 0xefcdab89, 0x98badcfe, 0x10325476).

(** [hashlib.md5(msg).digest()] *)
Definition md5 (msg : list Z) : list Z :=
  let p := pad msg in
  let '(a, b, c, d) :=
    fold_left compress (blocks (length p / 64)%nat p) init in
  le_bytes 4 a ++ le_bytes 4 b ++ le_bytes 4 c ++ le_bytes 4 d.

Definition hex_digit (n : Z) : Z := if n <? 10 then 48 + n else 87 + n.

Definition hex_byte (b : Z) : pystr :=
  [hex_digit (Z.shiftr b 4); hex_digit (Z.land b 0xF)].

(** [hashlib.md5(msg).hexdigest()] *)
Definition hexdigest (msg : list Z) : pystr := flat_map hex_byte (md5 msg).

(** The value of one hexadecimal digit, if it is one. *)
Definition hex_value (c : Z) : option Z :=
  if (48 <=? c) && (c <=? 57) then Some (c - 48)
  else if (97 <=? c) && (c <=? 102) then Some (c - 87)
  else if (65 <=? c) && (c <=? 70) then Some (c - 55)
  else None.

Fixpoint hex_acc (acc : Z) (s : pystr) : option Z :=
  match s with
  | [] => Some acc
  | c :: s' =>
      match hex_value c with
      | Some v => hex_acc (16 * acc + v) s'
      | None => None
      end
  end.

(** [int(s, 16)] on a plain string of hexadecimal digits; [None] stands
    for [ValueError]. *)
Definition int16 (s : pystr) : option Z :=
  match s with
  | [] => None
  | _ => hex_acc 0 s
  end.

End Hashlib.

(* ===================================================================== *)
(** * Python dictionaries and VDF values *)
(* ===================================================================== *)

Module Dict.

(** An insertion-ordered dictionary with [str] keys. *)
Definition t (V : Type) : Type := list (pystr * V).

Section Ops.
Context {V : Type}.

(** [d.get(k)] *)
Fixpoint get (k : pystr) (d : t V) : option V :=
  match d with
  | [] => None
  | (k', v) :: d' => if eqb k k' then Some v else get k d'
  end.

(** [k in d] *)
Definition mem (k : pystr) (d : t V) : bool :=
  match get k d with Some _ => true | None => false end.

(** [d[k] = v]: an existing key keeps its place, a new one goes last. *)
Fixpoint set (k : pystr) (v : V) (d : t V) : t V :=
  match d with
  | [] => [(k, v)]
  | (k', v') :: d' =>
      if eqb k k' then (k', v) :: d' else (k', v') :: set k v d'
  end.

(** [d.update(u)] *)
Definition update (d u : t V) : t V :=
  fold_left (fun acc kv => set (fst kv) (snd kv) acc) u d.

Definition keys (d : t V) : list pystr := map fst d.
Definition values (d : t V) : list V := map snd d.

(** The invariant of every Python dictionary: no key occurs twice. *)
Definition wf (d : t V) : Prop := NoDup (keys d).
End Ops.

End Dict.

(** A value of the binary or text VDF formats, as the [vdf] package
    decodes it: a string, an integer or a nested mapping. *)
#[warnings="-register-all"]
Inductive value : Type :=
| VStr (s : pystr)
| VInt (z : Z)
| VDict (d : list (pystr * value)).

(** One library entry and the ['shortcuts'] mapping of [shortcuts.vdf]. *)
Definition entry : Type := Dict.t value.
Definition store : Type := Dict.t entry.

(** Python truthiness of a value. *)
Definition truthy (v : value) : bool :=
  match v with
  | VStr [] => false
  | VStr _ => true
  | VInt z => negb (z =? 0)
  | VDict [] => false
  | VDict _ => true
  end.

(** [v == s] for a value [v] and a [str] [s]; [None] is the result of
    [get] on a missing key. *)
Definition value_is_str (v : option value) (s : pystr) : bool :=
  match v with
  | Some (VStr s') => eqb s' s
  | _ => false
  end.

(** [shortcut.get(k, '')] *)
Definition get_or_empty (k : pystr) (e : entry) : value :=
  match Dict.get k e with Some v => v | None => VStr [] end.

(** [{str(i): s for i, s in enumerate(l)}] *)
Definition enumerate {A : Type} (l : list A) : list (nat * A) :=
  combine (seq 0 (List.length l)) l.

Definition reindex (l : list entry) : store :=
  fold_left (fun d ie => Dict.set (str_of_nat (fst ie)) (snd ie) d)
            (enumerate l) [].

(** The field names of an entry. *)
Definition AppName : pystr := lit "AppName".
Definition Exe : pystr := lit "Exe".
Definition StartDir : pystr := lit "StartDir".
Definition appid_key : pystr := lit "appid".
Definition LaunchOptions : pystr := lit "LaunchOptions".
Definition CompatTool : pystr := lit "CompatTool".
Definition tags : pystr := lit "tags".
Definition proton_experimental : pystr := lit "proton_experimental".

(* ===================================================================== *)
(** * Identifier derivation *)
(* ===================================================================== *)

(** The CRC32-based AppID of [create_shortcut_directly_with_proton] and of
    step 2 of [run_complete_workflow]:
    [-(crc32((exe_path + shortcut_name).encode('utf-8')) & 0x7FFFFFFF)]. *)
Definition checksum_appid (exe_path shortcut_name : pystr) : option Z :=
  let combined_string := exe_path ++ shortcut_name in
  match encode_utf8 combined_string with
  | Some bytes =>
      let crc := Zlib.crc32 bytes in
      Some (- (Z.land crc 0x7FFFFFFF))
  | None => None
  end.

(** [generate_steam_short_id] *)
Definition generate_steam_short_id (signed_appid : Z) : Z :=
  Z.land signed_appid 0xFFFFFFFF.

(** The signed AppID computed in step 3 of
    [predict_appid_using_stl_algorithm]. *)
Definition stl_signed_appid (shortcut_name exe_path : pystr) : option Z :=
  let combined_string := shortcut_name ++ exe_path in
  match encode_utf8 combined_string with
  | Some bytes =>
      let md5_hash := Hashlib.hexdigest bytes in
      let seed_hex := firstn 8 md5_hash in
      match Hashlib.int16 seed_hex with
      | Some seed_decimal => Some (- (seed_decimal mod 1000000000))
      | None => None
      end
  | None => None
  end.

(** [predict_appid_using_stl_algorithm]; [None] is the [None] the method
    returns when its body raises. *)
Definition predict_appid_using_stl_algorithm
    (shortcut_name exe_path : pystr) : option Z :=
  match stl_signed_appid shortcut_name exe_path with
  | Some signed_appid => Some (Z.land signed_appid 0xFFFFFFFF)
  | None => None
  end.

(** The elements of [bytes]. *)
Definition is_byte (b : Z) : Prop := 0 <= b < 256.

(** The number a digest stands for: its bytes read most significant first,
    which is also what its hexadecimal rendering denotes. *)
Definition digest_value (digest : list Z) : Z :=
  fold_left (fun acc b => 256 * acc + b) digest 0.

(** The signed identifier as the specification words it, with the LOW 32
    bits of the 128-bit hash as the seed. *)
Definition stl_signed_appid_low32 (shortcut_name exe_path : pystr) : option Z :=
  match encode_utf8 (shortcut_name ++ exe_path) with
  | Some bytes =>
      let seed := digest_value (Hashlib.md5 bytes) mod 2 ^ 32 in
      Some (- (seed mod 1000000000))
  | None => None
  end.

(** The handle of [launch_shortcut_to_trigger_prefix]. *)
Definition launch_rungameid (initial_appid : Z) : Z :=
  let unsigned_appid := generate_steam_short_id initial_appid in
  Z.lor (Z.shiftl unsigned_appid 32) 0x02000000.

(** The handle of step 2 of [run_complete_workflow]. *)
Definition workflow_rungameid (initial_appid : Z) : Z :=
  Z.lor (Z.shiftl initial_appid 32) 0x02000000.

(** [str(abs(appid))]: the directory name used by [get_prefix_path],
    [create_prefix_with_proton_wrapper] and step 2 of
    [run_complete_workflow]. *)
Definition prefix_dir_name (appid : Z) : pystr := str_of_Z (Z.abs appid).

(* ===================================================================== *)
(** * The world: files, external collaborators, exceptions *)
(* ===================================================================== *)

(** What [_get_shortcuts_path] and [vdf.binary_load] can yield. *)
Inductive file (A : Type) : Type :=
| NoPath                (* the path lookup returned [None] *)
| Unreadable            (* opening or decoding raised *)
| Loaded (content : A).
Arguments NoPath {A}.
Arguments Unreadable {A}.
Arguments Loaded {A} content.

(** The decoded [shortcuts.vdf]: its ['shortcuts'] key, if present, and
    the other top-level keys. *)
Record shortcuts_data : Type := {
  sd_shortcuts : option store;
  sd_rest : Dict.t value
}.

(** [shortcuts_data.get('shortcuts', {})] *)
Definition shortcuts_of (sd : shortcuts_data) : store :=
  match sd_shortcuts sd with Some s => s | None => [] end.

(** [shortcuts_data['shortcuts'] = s] *)
Definition with_shortcuts (sd : shortcuts_data) (s : store) : shortcuts_data :=
  {| sd_shortcuts := Some s; sd_rest := sd_rest sd |}.

(** ** What the two codecs carry

    [vdf.binary_dump] writes a key or a string as its UTF-8 bytes followed
    by a zero byte, and an integer with [struct.Struct('<i')]. A lone
    surrogate in a key or a string and an integer outside 32 bits make it
    raise, after the file was opened for writing and what precedes them was
    written. A U+0000 raises nothing, but it ends the string for the
    decoder, so that the file written is not the data dumped. [vdf.dump]
    writes its text to a file opened in text mode: a lone surrogate raises
    there as well; every other string is read back as it was written. *)

(** [s.encode('utf-8')] succeeds. *)
Definition encodable (s : pystr) : bool :=
  match encode_utf8 s with Some _ => true | None => false end.

(** [s] has no U+0000. *)
Definition no_nul (s : pystr) : bool := forallb (fun c => negb (c =? 0)) s.

(** A string that the binary format holds: it is read back as written. *)
Definition holds_str (s : pystr) : bool := encodable s && no_nul s.

(** [struct.Struct('<i').pack(z)] succeeds. *)
Definition int32 (z : Z) : bool := (- 2 ^ 31 <=? z) && (z <? 2 ^ 31).

(** Every key and every string of a value passes [ps], every integer
    passes [pz]. *)
Fixpoint value_all (ps : pystr -> bool) (pz : Z -> bool) (v : value) : bool :=
  match v with
  | VStr s => ps s
  | VInt z => pz z
  | VDict d =>
      (fix all (d : list (pystr * value)) : bool :=
         match d with
         | [] => true
         | (k, x) :: d' => ps k && value_all ps pz x && all d'
         end) d
  end.

Definition dict_all (ps : pystr -> bool) (pz : Z -> bool) (d : Dict.t value)
    : bool :=
  value_all ps pz (VDict d).

Definition store_all (ps : pystr -> bool) (pz : Z -> bool) (shortcuts : store)
    : bool :=
  forallb (fun ke => ps (fst ke) && dict_all ps pz (snd ke)) shortcuts.

Definition data_all (ps : pystr -> bool) (pz : Z -> bool) (sd : shortcuts_data)
    : bool :=
  match sd_shortcuts sd with
  | Some shortcuts => store_all ps pz shortcuts
  | None => true
  end && dict_all ps pz (sd_rest sd).

(** [vdf.binary_dump] goes through without raising. *)
Definition encodes_data : shortcuts_data -> bool := data_all encodable int32.

(** [vdf.binary_load] reads back what [vdf.binary_dump] was given; every
    decoded file is such data. *)
Definition holds_data : shortcuts_data -> bool := data_all holds_str int32.

(** [vdf.dump] goes through without raising. *)
Definition encodes_text : Dict.t value -> bool :=
  dict_all encodable (fun _ => true).

(** The strings an entry is made of are held by the binary format. *)
Definition holds_entry : entry -> bool := dict_all holds_str int32.

(** The outcome of [subprocess.run(['steam', url], timeout=5)]. *)
Inductive launch_result : Type :=
| Returned (returncode : Z)
| TimeoutExpired
| LaunchError.

(** What lies outside this service and decides the outcome of the methods
    that only ask the file system or another process: [Path.home()]; whether
    the bootstrap batch file can be written; the result of [restart_steam];
    the outcome of launching the client; which paths exist; the identifier
    [detect_actual_prefix_appid] obtains from the inventory listing for a
    name; the result of [_get_compatdata_path_for_appid]; and the result of
    [verify_prefix_creation] on a path. *)
Record externals : Type := {
  home : pystr;
  batch_writable : bool;
  restart_result : bool;
  steam_launch : pystr -> launch_result;
  path_exists : pystr -> bool;
  inventory_appid : pystr -> option Z;
  get_compatdata_path_for_appid : Z -> option pystr;
  prefix_verified : pystr -> bool
}.

(** The files this service owns, the number of times [shortcuts.vdf] has
    been opened for writing, and the URLs handed to the client, oldest
    first. Both paths come from the same lookup of the client's
    configuration, so a run of the service never sees [shortcuts.vdf]
    without a path to [config.vdf].

    The last two fields are what the decoders make of a file whose dump did
    not write the data it was given: [garbled_shortcuts sd] is the result of
    [vdf.binary_load] on the bytes that the dump of [sd] left behind,
    [garbled_config c] that of [vdf.load] on the text that the dump of [c]
    left behind; [None] is a decoder that raises. *)
Record world : Type := {
  shortcuts_vdf : file shortcuts_data;
  store_writes : nat;
  config_vdf : file (Dict.t value);
  batch_written : bool;
  launched : list pystr;
  garbled_shortcuts : shortcuts_data -> option shortcuts_data;
  garbled_config : Dict.t value -> option (Dict.t value)
}.

(** The file left by a dump that did not go through. *)
Definition damaged {A : Type} (o : option A) : file A :=
  match o with
  | Some a => Loaded a
  | None => Unreadable
  end.

(** The world once [shortcuts.vdf] was opened for writing and closed with
    the content [f]. *)
Definition store_written (f : file shortcuts_data) (w : world) : world :=
  {| shortcuts_vdf := f; store_writes := S (store_writes w);
     config_vdf := config_vdf w;
     batch_written := batch_written w; launched := launched w;
     garbled_shortcuts := garbled_shortcuts w;
     garbled_config := garbled_config w |}.

(** The same for [config.vdf]. *)
Definition config_written (f : file (Dict.t value)) (w : world) : world :=
  {| shortcuts_vdf := shortcuts_vdf w; store_writes := store_writes w;
     config_vdf := f;
     batch_written := batch_written w; launched := launched w;
     garbled_shortcuts := garbled_shortcuts w;
     garbled_config := garbled_config w |}.

(** Computations that read and write the world and may raise. *)
Definition M (A : Type) : Type := world -> world * option A.

Definition ret {A : Type} (a : A) : M A := fun w => (w, Some a).
Definition raise {A : Type} : M A := fun w => (w, None).
Definition bind {A B : Type} (m : M A) (k : A -> M B) : M B :=
  fun w => match m w with
           | (w', Some a) => k a w'
           | (w', None) => (w', None)
           end.

(** A method whose body is wrapped in [try]/[except] never raises. *)
Definition run {A : Type} (m : M A) (on_error : A) (w : world) : world * A :=
  match m w with
  | (w', Some a) => (w', a)
  | (w', None) => (w', on_error)
  end.

Declare Scope py_scope.
Delimit Scope py_scope with py.
Notation "x <- m ;; k" := (bind m (fun x => k))
  (at level 61, m at next level, right associativity) : py_scope.
Notation "m ;;; k" := (bind m (fun _ => k))
  (at level 61, right associativity) : py_scope.
Local Open Scope py_scope.

Definition lift {A : Type} (o : option A) : M A :=
  match o with Some a => ret a | None => raise end.

Definition get_shortcuts_vdf : M (file shortcuts_data) :=
  fun w => (w, Some (shortcuts_vdf w)).

(** [with open(shortcuts_path, 'rb') as f: vdf.binary_load(f)] *)
Definition binary_load : M shortcuts_data :=
  fun w => match shortcuts_vdf w with
           | Loaded sd => (w, Some sd)
           | _ => (w, None)
           end.

(** [with open(shortcuts_path, 'wb') as f: vdf.binary_dump(sd, f)]: the
    file holds [sd] when the format holds it; a U+0000 in it leaves another
    file without raising; a string or an integer that does not encode
    raises and leaves the part written before it. *)
Definition binary_dump (sd : shortcuts_data) : M unit :=
  fun w =>
    if holds_data sd then (store_written (Loaded sd) w, Some tt)
    else if encodes_data sd
    then (store_written (damaged (garbled_shortcuts w sd)) w, Some tt)
    else (store_written (damaged (garbled_shortcuts w sd)) w, None).

(** [with open(config_path, 'w') as f: vdf.dump(c, f)]: a key or a string
    that does not encode raises and leaves the part written before it;
    otherwise the text written is read back as [c] (a decoded text file
    holds strings and mappings, no integers). *)
Definition write_config (c : Dict.t value) : M unit :=
  fun w =>
    if encodes_text c then (config_written (Loaded c) w, Some tt)
    else (config_written (damaged (garbled_config w c)) w, None).

Definition write_batch_file (ok : bool) : M unit :=
  fun w => if ok
           then ({| shortcuts_vdf := shortcuts_vdf w;
                    store_writes := store_writes w; config_vdf := config_vdf w;
                    batch_written := true; launched := launched w;
                    garbled_shortcuts := garbled_shortcuts w;
                    garbled_config := garbled_config w |}, Some tt)
           else (w, None).

Definition record_launch (url : pystr) : M unit :=
  fun w => ({| shortcuts_vdf := shortcuts_vdf w; store_writes := store_writes w;
               config_vdf := config_vdf w;
               batch_written := batch_written w;
               launched := launched w ++ [url];
               garbled_shortcuts := garbled_shortcuts w;
               garbled_config := garbled_config w |}, Some tt).

(** [shortcuts[str(i)]]; a missing key raises [KeyError]. *)
Definition by_index (shortcuts : store) (i : nat) : option entry :=
  Dict.get (str_of_nat i) shortcuts.

(* ===================================================================== *)
(** * Compatibility-layer assignment in structured mode *)
(* ===================================================================== *)

(** [if k not in d: d[k] = {}] followed by [d[k]], for a step of the
    descent that goes on to index the result with a string; anything but a
    mapping under [k] raises. *)
Definition child (k : pystr) (d : Dict.t value) : option (Dict.t value) :=
  match Dict.get k d with
  | None => Some []
  | Some (VDict c) => Some c
  | Some _ => None
  end.

(** The mutation of [set_proton_version_for_shortcut] on the decoded
    [config.vdf]. *)
Definition assign_compat_tool (appid : Z) (proton_version : pystr)
    (config_data : Dict.t value) : option (Dict.t value) :=
  match child (lit "Software") config_data with
  | None => None
  | Some software =>
    match child (lit "Valve") software with
    | None => None
    | Some valve =>
      match child (lit "Steam") valve with
      | None => None
      | Some steam =>
        match child (lit "CompatToolMapping") steam with
        | None => None
        | Some mapping =>
            let mapping' := Dict.set (str_of_Z appid) (VStr proton_version) mapping in
            let steam' := Dict.set (lit "CompatToolMapping") (VDict mapping') steam in
            let valve' := Dict.set (lit "Steam") (VDict steam') valve in
            let software' := Dict.set (lit "Valve") (VDict valve') software in
            Some (Dict.set (lit "Software") (VDict software') config_data)
        end
      end
    end
  end.

(** [set_proton_version_for_shortcut]; the method ends by loading the file
    it has just written and looking up the key it has just set, which
    raises nothing and changes nothing. *)
Definition set_proton_version_for_shortcut (appid : Z) (proton_version : pystr)
    : world -> world * bool :=
  run (fun w =>
         match config_vdf w with
         | NoPath => (w, Some false)
         | Unreadable => (w, None)
         | Loaded config_data =>
             (c <- lift (assign_compat_tool appid proton_version config_data) ;;
              write_config c ;;;
              ret true) w
         end)
      false.

(* ===================================================================== *)
(** * Shortcut store *)
(* ===================================================================== *)

(** [Path.home() / "Jackify/temp_prefix_creation.bat"] and its parent. *)
Definition batch_dir (env : externals) : pystr := home env ++ lit "/Jackify".
Definition batch_path (env : externals) : pystr :=
  batch_dir env ++ lit "/temp_prefix_creation.bat".

(** [shortcut.get('AppName') == shortcut_name] *)
Definition named (shortcut_name : pystr) (shortcut : entry) : bool :=
  value_is_str (Dict.get AppName shortcut) shortcut_name.

(** The loop shared by [create_shortcut_directly_with_proton] and
    [replace_shortcut_with_final_exe]: every entry with the name is updated
    with [fields], the others are kept, all in their order. *)
Fixpoint update_named (shortcut_name : pystr) (fields : entry)
    (shortcuts_list : list entry) (found : bool) (new_shortcuts_list : list entry)
    : bool * list entry :=
  match shortcuts_list with
  | [] => (found, new_shortcuts_list)
  | shortcut :: rest =>
      if named shortcut_name shortcut
      then update_named shortcut_name fields rest true
             (new_shortcuts_list ++ [Dict.update shortcut fields])
      else update_named shortcut_name fields rest found
             (new_shortcuts_list ++ [shortcut])
  end.

(** What the loop does to one entry. *)
Definition retouch (shortcut_name : pystr) (fields : entry) (shortcut : entry)
    : entry :=
  if named shortcut_name shortcut then Dict.update shortcut fields else shortcut.

(** The fields [create_shortcut_directly_with_proton] writes into an
    existing entry. *)
Definition bootstrap_fields (env : externals) (appid : Z) : entry :=
  [ (Exe, VStr (quoted (batch_path env)));
    (StartDir, VStr (quoted (batch_dir env)));
    (appid_key, VInt appid);
    (LaunchOptions, VStr []);
    (tags, VDict []);
    (CompatTool, VStr proton_experimental) ].

(** The entry it creates when there is none. *)
Definition new_shortcut (env : externals) (shortcut_name : pystr) (appid : Z)
    : entry :=
  [ (AppName, VStr shortcut_name);
    (Exe, VStr (quoted (batch_path env)));
    (StartDir, VStr (quoted (batch_dir env)));
    (appid_key, VInt appid);
    (lit "icon", VStr []);
    (lit "ShortcutPath", VStr []);
    (LaunchOptions, VStr []);
    (lit "IsHidden", VInt 0);
    (lit "AllowDesktopConfig", VInt 1);
    (lit "AllowOverlay", VInt 1);
    (lit "OpenVR", VInt 0);
    (lit "Devkit", VInt 0);
    (lit "DevkitGameID", VStr []);
    (lit "LastPlayTime", VInt 0);
    (lit "FlatpakAppID", VStr []);
    (tags, VDict []);
    (lit "sortas", VStr []);
    (CompatTool, VStr proton_experimental) ].

(** The store that [create_shortcut_directly_with_proton] writes. *)
Definition upsert (env : externals) (shortcut_name : pystr) (appid : Z)
    (shortcuts : store) : store :=
  let '(found, new_shortcuts_list) :=
    update_named shortcut_name (bootstrap_fields env appid)
                 (Dict.values shortcuts) false [] in
  let new_shortcuts_list :=
    if found then new_shortcuts_list
    else new_shortcuts_list ++ [new_shortcut env shortcut_name appid] in
  reindex new_shortcuts_list.

(** [create_shortcut_directly_with_proton] *)
Definition create_shortcut_directly_with_proton (env : externals)
    (shortcut_name exe_path modlist_install_dir : pystr)
    : world -> world * bool :=
  run (path <- get_shortcuts_vdf ;;
       match path with
       | NoPath => ret false
       | _ =>
           appid <- lift (checksum_appid exe_path shortcut_name) ;;
           write_batch_file (batch_writable env) ;;;
           shortcuts_data <- binary_load ;;
           let shortcuts := shortcuts_of shortcuts_data in
           binary_dump (with_shortcuts shortcuts_data
                          (upsert env shortcut_name appid shortcuts)) ;;;
           (fun w =>
              let (w', ok) :=
                set_proton_version_for_shortcut appid proton_experimental w in
              (w', Some ok))
       end)
      false.

(** The fields [replace_shortcut_with_final_exe] writes. *)
Definition final_fields (final_exe_path modlist_install_dir : pystr) : entry :=
  [ (Exe, VStr (quoted final_exe_path));
    (StartDir, VStr modlist_install_dir);
    (LaunchOptions, VStr []);
    (tags, VDict []) ].

(** [replace_shortcut_with_final_exe] *)
Definition replace_shortcut_with_final_exe
    (shortcut_name final_exe_path modlist_install_dir : pystr)
    : world -> world * bool :=
  run (path <- get_shortcuts_vdf ;;
       match path with
       | NoPath => ret false
       | _ =>
           shortcuts_data <- binary_load ;;
           let shortcuts := shortcuts_of shortcuts_data in
           let '(found, new_shortcuts_list) :=
             update_named shortcut_name
               (final_fields final_exe_path modlist_install_dir)
               (Dict.values shortcuts) false [] in
           if negb found then ret false
           else
             binary_dump (with_shortcuts shortcuts_data
                            (reindex new_shortcuts_list)) ;;;
             ret true
       end)
      false.

Definition batch_marker : pystr := lit "prefix_creation_".
Definition dot_bat : pystr := lit ".bat".
Definition dot_bat_quoted : pystr := dot_bat ++ [dq].

(** The test of the search loop of [modify_shortcut_to_final_exe]:
    [name == shortcut_name and exe and 'prefix_creation_' in exe] and
    [exe] ends with [.bat] or with [.bat] followed by a double quote;
    [None] when evaluating it raises. *)
Definition is_batch_shortcut (shortcut_name : pystr) (shortcut : entry)
    : option bool :=
  let name := get_or_empty AppName shortcut in
  let exe := get_or_empty Exe shortcut in
  if negb (value_is_str (Some name) shortcut_name) then Some false
  else if negb (truthy exe) then Some false
  else match exe with
       | VStr e =>
           Some (contains batch_marker e
                 && (endswith e dot_bat || endswith e dot_bat_quoted))
       | VInt _ => None
       | VDict d => if Dict.mem batch_marker d then None else Some false
       end.

(** [for i in range(len(shortcuts)): shortcut = shortcuts[str(i)] ...
    break]: the first index whose entry passes the test. *)
Fixpoint find_batch_shortcut (shortcut_name : pystr) (shortcuts : store)
    (indices : list nat) : option (option (nat * entry)) :=
  match indices with
  | [] => Some None
  | i :: rest =>
      match by_index shortcuts i with
      | None => None
      | Some shortcut =>
          match is_batch_shortcut shortcut_name shortcut with
          | None => None
          | Some true => Some (Some (i, shortcut))
          | Some false => find_batch_shortcut shortcut_name shortcuts rest
          end
      end
  end.

(** The in-place update of the entry that was found. *)
Definition retarget (final_exe_path final_start_dir : pystr)
    (target_shortcut : entry) : option entry :=
  let t := Dict.set Exe (VStr (quoted final_exe_path)) target_shortcut in
  let t := Dict.set StartDir (VStr (quoted final_start_dir)) t in
  match get_or_empty CompatTool t with
  | VStr c =>
      if negb (truthy (VStr (strip c)))
      then Some (Dict.set CompatTool (VStr proton_experimental) t)
      else Some t
  | _ => None
  end.

(** [modify_shortcut_to_final_exe] *)
Definition modify_shortcut_to_final_exe
    (shortcut_name final_exe_path final_start_dir : pystr)
    : world -> world * bool :=
  run (path <- get_shortcuts_vdf ;;
       match path with
       | NoPath => ret false
       | _ =>
           shortcuts_data <- binary_load ;;
           let shortcuts := shortcuts_of shortcuts_data in
           target <- lift (find_batch_shortcut shortcut_name shortcuts
                             (seq 0 (List.length shortcuts))) ;;
           match target with
           | None => ret false
           | Some (target_index, target_shortcut) =>
               t <- lift (retarget final_exe_path final_start_dir
                            target_shortcut) ;;
               binary_dump (with_shortcuts shortcuts_data
                              (Dict.set (str_of_nat target_index) t shortcuts)) ;;;
               ret true
           end
       end)
      false.

(** The test of the marking loop of [cleanup_old_batch_shortcuts]:
    [name == shortcut_name and 'prefix_creation_' in exe and
     exe.endswith('.bat')]; [None] when evaluating it raises. *)
Definition is_old_batch_shortcut (shortcut_name : pystr) (shortcut : entry)
    : option bool :=
  let name := get_or_empty AppName shortcut in
  let exe := get_or_empty Exe shortcut in
  if negb (value_is_str (Some name) shortcut_name) then Some false
  else match exe with
       | VStr e => Some (contains batch_marker e && endswith e dot_bat)
       | VInt _ => None
       | VDict d => if Dict.mem batch_marker d then None else Some false
       end.

Fixpoint mark_old_batch_shortcuts (shortcut_name : pystr) (shortcuts : store)
    (indices : list nat) (indices_to_remove : list pystr)
    : option (list pystr) :=
  match indices with
  | [] => Some indices_to_remove
  | i :: rest =>
      match by_index shortcuts i with
      | None => None
      | Some shortcut =>
          match is_old_batch_shortcut shortcut_name shortcut with
          | None => None
          | Some true =>
              mark_old_batch_shortcuts shortcut_name shortcuts rest
                (indices_to_remove ++ [str_of_nat i])
          | Some false =>
              mark_old_batch_shortcuts shortcut_name shortcuts rest
                indices_to_remove
          end
      end
  end.

(** The rebuilding loop: the entries that stay are renumbered from 0. *)
Fixpoint rebuild_without (shortcuts : store) (indices_to_remove : list pystr)
    (indices : list nat) (new_shortcuts : store) (new_index : nat)
    : option store :=
  match indices with
  | [] => Some new_shortcuts
  | i :: rest =>
      if existsb (eqb (str_of_nat i)) indices_to_remove
      then rebuild_without shortcuts indices_to_remove rest
             new_shortcuts new_index
      else match by_index shortcuts i with
           | None => None
           | Some shortcut =>
               rebuild_without shortcuts indices_to_remove rest
                 (Dict.set (str_of_nat new_index) shortcut new_shortcuts)
                 (S new_index)
           end
  end.

(** [cleanup_old_batch_shortcuts] *)
Definition cleanup_old_batch_shortcuts (shortcut_name : pystr)
    : world -> world * bool :=
  run (path <- get_shortcuts_vdf ;;
       match path with
       | NoPath => ret false
       | _ =>
           shortcuts_data <- binary_load ;;
           let shortcuts := shortcuts_of shortcuts_data in
           let indices := seq 0 (List.length shortcuts) in
           indices_to_remove <-
             lift (mark_old_batch_shortcuts shortcut_name shortcuts indices []) ;;
           match indices_to_remove with
           | [] => ret true
           | _ =>
               new_shortcuts <-
                 lift (rebuild_without shortcuts indices_to_remove indices [] 0) ;;
               binary_dump (with_shortcuts shortcuts_data new_shortcuts) ;;;
               ret true
           end
       end)
      false.

(** The entries persisted in the world, and how many carry a name. *)
Definition stored (w : world) : store :=
  match shortcuts_vdf w with
  | Loaded sd => shortcuts_of sd
  | _ => []
  end.

Definition count_named (shortcut_name : pystr) (shortcuts : store) : nat :=
  List.length (filter (named shortcut_name) (Dict.values shortcuts)).

(** The field values [create_shortcut_directly_with_proton] gives an entry. *)
Definition bootstrapped (env : externals) (appid : Z) (s : entry) : Prop :=
  Dict.get appid_key s = Some (VInt appid) /\
  Dict.get Exe s = Some (VStr (quoted (batch_path env))) /\
  Dict.get StartDir s = Some (VStr (quoted (batch_dir env))) /\
  Dict.get LaunchOptions s = Some (VStr []) /\
  Dict.get tags s = Some (VDict []) /\
  Dict.get CompatTool s = Some (VStr proton_experimental).

(** The keys of a store are ["0"], ["1"], ..., in this order. *)
Definition sequential_keys (shortcuts : store) : Prop :=
  Dict.keys shortcuts = map str_of_nat (seq 0 (List.length shortcuts)).

(** The store operations that rebuild the collection. *)
Inductive store_op : Type :=
| OpCreate (env : externals) (shortcut_name exe_path modlist_install_dir : pystr)
| OpReplace (shortcut_name final_exe_path modlist_install_dir : pystr)
| OpCleanup (shortcut_name : pystr).

Definition apply_op (op : store_op) : world -> world * bool :=
  match op with
  | OpCreate env n e d => create_shortcut_directly_with_proton env n e d
  | OpReplace n e d => replace_shortcut_with_final_exe n e d
  | OpCleanup n => cleanup_old_batch_shortcuts n
  end.

(** The strings an operation writes are held by the binary format: they
    encode in UTF-8 and have no U+0000. *)
Definition op_holds (op : store_op) : bool :=
  match op with
  | OpCreate env n _ _ => holds_str n && holds_str (home env)
  | OpReplace _ e d => holds_str e && holds_str d
  | OpCleanup _ => true
  end.

(** ** Conflict detection *)














(* ===================================================================== *)
(** * Compatibility mapping in patch mode *)
(* ===================================================================== *)

Definition newline : pystr := [10].
Definition tabs (n : nat) : pystr := repeat 9 n.
Definition open_brace : pystr := lit "{".
Definition close_brace : pystr := lit "}".

(** The brace-counting scan: the index of the first line, among [lines]
    numbered from [j], on which the count comes back to zero after a
    closing brace. *)
Fixpoint find_block_end (lines : list pystr) (j : nat) (brace_count : Z)
    : option nat :=
  match lines with
  | [] => None
  | line :: rest =>
      let brace_count :=
        if contains open_brace line then brace_count + 1 else brace_count in
      if contains close_brace line
      then if brace_count - 1 =? 0 then Some j
           else find_block_end rest (S j) (brace_count - 1)
      else find_block_end rest (S j) brace_count
  end.

(** The index of the first line, among [lines] numbered from [i], that
    satisfies [p]. *)
Fixpoint find_line (p : pystr -> bool) (lines : list pystr) (i : nat)
    : option nat :=
  match lines with
  | [] => None
  | line :: rest => if p line then Some i else find_line p rest (S i)
  end.

(** [lines[a:b]] *)
Definition slice {A : Type} (a b : nat) (l : list A) : list A :=
  firstn (b - a) (skipn a l).

Definition section_token : pystr := quoted (lit "CompatToolMapping").
Definition appid_token (unsigned_appid : Z) : pystr :=
  quoted (str_of_Z unsigned_appid).

(** The entry in the client's own layout. *)
Definition new_entry_lines (unsigned_appid : Z) (compat_tool : pystr)
    : list pystr :=
  [ tabs 9 ++ appid_token unsigned_appid ++ newline;
    tabs 9 ++ open_brace ++ newline;
    tabs 10 ++ quoted (lit "name") ++ tabs 4 ++ quoted compat_tool ++ newline;
    tabs 10 ++ quoted (lit "config") ++ tabs 5 ++ quoted [] ++ newline;
    tabs 10 ++ quoted (lit "priority") ++ tabs 5 ++ quoted (lit "250") ++ newline;
    tabs 9 ++ close_brace ++ newline ].

(** Step 1 of [set_compatibility_tool_complete_stl_style] on the lines of
    [config.vdf]: [Some] of the lines it hands to [f.writelines], [None]
    when the method gives up before writing (section not found, or an
    exception: [None + 1] when the end of the section or the end of the
    entry was not found). *)
Definition patch_compat_mapping (unsigned_appid : Z) (compat_tool : pystr)
    (lines : list pystr) : option (list pystr) :=
  match find_line (fun line => contains section_token (strip line)) lines 0 with
  | None => None
  | Some compat_section_start =>
      match find_block_end (skipn (S compat_section_start) lines)
              (S compat_section_start) 0 with
      | None => None
      | Some compat_section_end =>
          let new_entry := List.concat (new_entry_lines unsigned_appid compat_tool) in
          match find_line (contains (appid_token unsigned_appid))
                  (slice compat_section_start (S compat_section_end) lines)
                  compat_section_start with
          | None =>
              Some (firstn compat_section_end lines ++ [new_entry]
                      ++ skipn compat_section_end lines)
          | Some appid_entry_start =>
              match find_block_end
                      (slice (S appid_entry_start) (S compat_section_end) lines)
                      (S appid_entry_start) 0 with
              | None => None
              | Some appid_entry_end =>
                  Some (firstn appid_entry_start lines ++ [new_entry]
                          ++ skipn (S appid_entry_end) lines)
              end
          end
      end
  end.

(* ===================================================================== *)
(** * Launch, prefix path and the workflow *)
(* ===================================================================== *)

(** [f'steam://rungameid/{rungameid}'] *)
Definition rungameid_url (rungameid : Z) : pystr :=
  lit "steam://rungameid/" ++ str_of_Z rungameid.

(** [launch_shortcut_to_trigger_prefix], up to the hand-over of the
    command to the client ([subprocess.Popen]). *)
Definition launch_shortcut_to_trigger_prefix (initial_appid : Z) : M unit :=
  record_launch (rungameid_url (launch_rungameid initial_appid)).

(** [get_prefix_path] *)
Definition get_prefix_path (env : externals) (appid : Z) : option pystr :=
  let compatdata_dir := home env ++ lit "/.steam/steam/steamapps/compatdata" in
  let prefix_dir := compatdata_dir ++ lit "/" ++ prefix_dir_name appid in
  if path_exists env prefix_dir then Some prefix_dir else None.

(** A component of the tuple the workflow returns. *)
Inductive pyobj : Type :=
| PyBool (b : bool)
| PyNone
| PyPath (p : pystr)
| PyInt (z : Z).

(** The tuple of every failing [return] of [run_complete_workflow]:
    [False, None, None, None]. *)
Definition failure : list pyobj := [PyBool false; PyNone; PyNone; PyNone].

(** Calling a method that does not raise. *)
Definition call {A : Type} (f : world -> world * A) : M A :=
  fun w => let (w', a) := f w in (w', Some a).

(** Steps 6 to 9 of [run_complete_workflow]. *)
Definition verify_and_finish (env : externals)
    (shortcut_name modlist_install_dir final_exe_path : pystr)
    (expected_prefix_id : pystr) : M (list pyobj) :=
  let compatdata_path :=
    home env ++ lit "/.local/share/Steam/steamapps/compatdata" ++ lit "/"
             ++ expected_prefix_id in
  if negb (path_exists env compatdata_path) then ret failure
  else
    replaced <- call (replace_shortcut_with_final_exe shortcut_name
                        final_exe_path modlist_install_dir) ;;
    if negb replaced then ret failure
    else
      match inventory_appid env shortcut_name with
      | None => ret failure
      | Some actual_appid =>
          match get_compatdata_path_for_appid env actual_appid with
          | None => ret failure
          | Some prefix_path =>
              if negb (path_exists env prefix_path) then ret failure
              else if negb (prefix_verified env prefix_path) then ret failure
              else ret [PyBool true; PyPath prefix_path; PyInt actual_appid]
          end
      end.

(** [run_complete_workflow], without a progress callback. *)
Definition run_complete_workflow (env : externals)
    (shortcut_name modlist_install_dir final_exe_path : pystr)
    : world -> world * list pyobj :=
  run (created <- call (create_shortcut_directly_with_proton env shortcut_name
                          final_exe_path modlist_install_dir) ;;
       if negb created then ret failure
       else
         initial_appid <- lift (checksum_appid final_exe_path shortcut_name) ;;
         let rungameid := workflow_rungameid initial_appid in
         let expected_prefix_id := prefix_dir_name initial_appid in
         if negb (restart_result env) then ret failure
         else
           let url := rungameid_url rungameid in
           record_launch url ;;;
           match steam_launch env url with
           | Returned returncode =>
               if negb (returncode =? 0) then ret failure
               else verify_and_finish env shortcut_name modlist_install_dir
                      final_exe_path expected_prefix_id
           | TimeoutExpired =>
               verify_and_finish env shortcut_name modlist_install_dir
                 final_exe_path expected_prefix_id
           | LaunchError => ret failure
           end)
      failure.

(* ===================================================================== *)
(** * Sample data *)
(* ===================================================================== *)

Module Sample.

(** Collaborators that all succeed, except that no prefix directory ever
    appears. *)
Definition env : externals :=
  {| home := lit "/home/deck";
     batch_writable := true;
     restart_result := true;
     steam_launch := fun _ => Returned 0;
     path_exists := fun _ => false;
     inventory_appid := fun _ => None;
     get_compatdata_path_for_appid := fun _ => None;
     prefix_verified := fun _ => false |}.

(** A world whose two files decode, the store to [shortcuts]; what a
    dump that does not go through leaves behind does not decode. *)
Definition world_of (shortcuts : store) : world :=
  {| shortcuts_vdf := Loaded {| sd_shortcuts := Some shortcuts; sd_rest := [] |};
     store_writes := 0;
     config_vdf := Loaded [];
     batch_written := false;
     launched := [];
     garbled_shortcuts := fun _ => None;
     garbled_config := fun _ => None |}.

Definition Tuxborn : pystr := lit "Tuxborn".
Definition boot_sh : pystr := lit "/tmp/boot.sh".
Definition tmp : pystr := lit "/tmp".
Definition Foo : pystr := lit "Foo".

(** An entry named "Foo" as the client stores it. *)
Definition foo_entry (exe : pystr) (id : Z) : entry :=
  [ (AppName, VStr Foo);
    (Exe, VStr exe);
    (StartDir, VStr (quoted (lit "/a")));
    (appid_key, VInt id);
    (LaunchOptions, VStr (lit "%command%")) ].

(** The bootstrap entry of "Foo": its executable is a batch file whose
    path contains the marker; it has no [CompatTool] field. *)
Definition foo_batch : entry :=
  foo_entry (quoted (lit "/home/deck/Jackify/scripts/prefix_creation_Foo_1.bat"))
            (-13).

Definition real_exe : pystr := lit "/real/ModOrganizer.exe".
Definition real_dir : pystr := lit "/real/dir".

(** The lines of a [config.vdf] whose compatibility mapping has an entry
    for the identifier 123. *)
Definition config_lines : list pystr :=
  [ quoted (lit "InstallConfigStore") ++ newline;
    open_brace ++ newline;
    tabs 1 ++ quoted (lit "CompatToolMapping") ++ newline;
    tabs 1 ++ open_brace ++ newline;
    tabs 2 ++ quoted (lit "123") ++ newline;
    tabs 2 ++ open_brace ++ newline;
    tabs 3 ++ quoted (lit "name") ++ tabs 2 ++ quoted (lit "proton_9") ++ newline;
    tabs 3 ++ quoted (lit "config") ++ tabs 2 ++ quoted [] ++ newline;
    tabs 3 ++ quoted (lit "priority") ++ tabs 2 ++ quoted (lit "250") ++ newline;
    tabs 2 ++ close_brace ++ newline;
    tabs 1 ++ close_brace ++ newline;
    close_brace ++ newline ].

(** The store of the conflict scenario: one entry named "Foo" whose
    executable, quoted on disk, is "/a/Foo.exe". *)
Definition one_foo : store :=
  reindex [ foo_entry (quoted (lit "/a/Foo.exe")) (-11) ].

(** A store whose only key is ["1"]: the key ["0"] is missing. *)
Definition gapped : store :=
  [ (lit "1", foo_entry (quoted (lit "/a/Foo.exe")) (-11)) ].

(** A store that already holds "Tuxborn" under the identifier 42. *)
Definition old_tuxborn : store :=
  reindex [ [ (AppName, VStr Tuxborn); (appid_key, VInt 42) ] ].

(** A store in which the name "Foo" occurs twice. *)
Definition two_foo : store :=
  reindex [ foo_entry (quoted (lit "/a/Foo.exe")) (-11);
            foo_entry (quoted (lit "/b/Foo.exe")) (-12) ].

End Sample.

(* ===================================================================== *)
(** * Further identifier conversions *)
(* ===================================================================== *)

(** [ctypes.c_int32(x).value] *)
Definition c_int32 (x : Z) : Z := (x + 2 ^ 31) mod 2 ^ 32 - 2 ^ 31.

(** The identifier under which step 2 of
    [set_compatibility_tool_complete_stl_style] files the runtime flags:
    [ctypes.c_int32((unsigned_appid | 0x80000000) & 0xFFFFFFFF).value]. *)
Definition localconfig_signed_appid (unsigned_appid : Z) : Z :=
  let signed_appid := Z.land (Z.lor unsigned_appid 0x80000000) 0xFFFFFFFF in
  c_int32 signed_appid.

(** The conversion of [create_shortcut_with_stl_algorithm]:
    [predicted_appid - 0x100000000] above [0x7FFFFFFF]. *)
Definition to_signed_appid (predicted_appid : Z) : Z :=
  if predicted_appid >? 0x7FFFFFFF then predicted_appid - 0x100000000
  else predicted_appid.

(** The identifier of [create_shortcut_directly]: the two encodings are
    concatenated, and the first eight hexadecimal digits of the MD5 digest
    are masked to 31 bits and negated. *)
Definition direct_appid (shortcut_name exe_path : pystr) : option Z :=
  match encode_utf8 shortcut_name, encode_utf8 exe_path with
  | Some app_name_bytes, Some exe_bytes =>
      let combined := app_name_bytes ++ exe_bytes in
      match Hashlib.int16 (firstn 8 (Hashlib.hexdigest combined)) with
      | Some hash_value => Some (- Z.land hash_value 0x7FFFFFFF)
      | None => None
      end
  | _, _ => None
  end.

(* ===================================================================== *)
(** * Further store operations *)
(* ===================================================================== *)

(** [shortcuts[next_index] = new_shortcut] followed by the dump of
    [shortcuts_data], where [shortcuts] is
    [shortcuts_data.get('shortcuts', {})] and [next_index] is
    [str(len(shortcuts))]: when the key ['shortcuts'] is absent the
    assignment goes to a fresh mapping that [shortcuts_data] does not
    hold. *)
Definition append_shortcut (data : shortcuts_data) (new_shortcut : entry)
    : shortcuts_data :=
  match sd_shortcuts data with
  | Some shortcuts =>
      let next_index := str_of_nat (List.length shortcuts) in
      with_shortcuts data (Dict.set next_index new_shortcut shortcuts)
  | None => data
  end.

(** The entry [create_shortcut_directly] builds. *)
Definition direct_shortcut (shortcut_name exe_path modlist_install_dir : pystr)
    (appid : Z) : entry :=
  [ (AppName, VStr shortcut_name);
    (Exe, VStr (quoted exe_path));
    (StartDir, VStr (quoted modlist_install_dir));
    (appid_key, VInt appid);
    (lit "icon", VStr []);
    (lit "ShortcutPath", VStr []);
    (LaunchOptions, VStr []);
    (lit "IsHidden", VInt 0);
    (lit "AllowDesktopConfig", VInt 1);
    (lit "AllowOverlay", VInt 1);
    (lit "openvr", VInt 0);
    (lit "Devkit", VInt 0);
    (lit "DevkitGameID", VStr []);
    (lit "LastPlayTime", VInt 0);
    (lit "FlatpakAppID", VStr []);
    (tags, VDict []);
    (CompatTool, VStr proton_experimental);
    (lit "IsInstalled", VInt 1) ].

(** [create_shortcut_directly] *)
Definition create_shortcut_directly
    (shortcut_name exe_path modlist_install_dir : pystr)
    : world -> world * bool :=
  run (path <- get_shortcuts_vdf ;;
       match path with
       | NoPath => ret false
       | _ =>
           shortcuts_data <- binary_load ;;
           appid <- lift (direct_appid shortcut_name exe_path) ;;
           let new_shortcut :=
             direct_shortcut shortcut_name exe_path modlist_install_dir appid in
           binary_dump (append_shortcut shortcuts_data new_shortcut) ;;;
           ret true
       end)
      false.

(** The entry [create_shortcut_with_stl_algorithm] builds. *)
Definition stl_shortcut (shortcut_name exe_path start_dir : pystr)
    (signed_appid : Z) : entry :=
  [ (AppName, VStr shortcut_name);
    (Exe, VStr (quoted exe_path));
    (StartDir, VStr (quoted start_dir));
    (appid_key, VInt signed_appid);
    (lit "icon", VStr []);
    (lit "ShortcutPath", VStr []);
    (LaunchOptions, VStr []);
    (lit "IsHidden", VInt 0);
    (lit "AllowDesktopConfig", VInt 1);
    (lit "AllowOverlay", VInt 1);
    (lit "openvr", VInt 0);
    (lit "Devkit", VInt 0);
    (lit "DevkitGameID", VStr []);
    (lit "LastPlayTime", VInt 0);
    (lit "FlatpakAppID", VStr []);
    (tags, VDict []);
    (lit "IsInstalled", VInt 1) ].

(** [create_shortcut_with_stl_algorithm] called without a compatibility
    tool (its default): [if not predicted_appid] refuses both the [None] of
    a failed prediction and the identifier 0. *)
Definition create_shortcut_with_stl_algorithm
    (shortcut_name exe_path start_dir : pystr) : world -> world * bool :=
  run (path <- get_shortcuts_vdf ;;
       match path with
       | NoPath => ret false
       | _ =>
           shortcuts_data <- binary_load ;;
           match predict_appid_using_stl_algorithm shortcut_name exe_path with
           | None => ret false
           | Some predicted_appid =>
               if predicted_appid =? 0 then ret false
               else
                 let signed_appid := to_signed_appid predicted_appid in
                 let new_shortcut :=
                   stl_shortcut shortcut_name exe_path start_dir signed_appid in
                 binary_dump (append_shortcut shortcuts_data new_shortcut) ;;;
                 ret true
           end
       end)
      false.

(** [for i in range(len(shortcuts)): shortcut = shortcuts[str(i)];
    if shortcut.get('AppName', '') == shortcut_name: ... break]: the first
    index whose entry carries the name. *)
Fixpoint find_named (shortcut_name : pystr) (shortcuts : store)
    (indices : list nat) : option (option (nat * entry)) :=
  match indices with
  | [] => Some None
  | i :: rest =>
      match by_index shortcuts i with
      | None => None
      | Some shortcut =>
          if value_is_str (Some (get_or_empty AppName shortcut)) shortcut_name
          then Some (Some (i, shortcut))
          else find_named shortcut_name shortcuts rest
      end
  end.

(** The methods that change the first entry with a name in place and dump
    the data: [change] is what they assign. *)
Definition change_first_named (shortcut_name : pystr) (change : entry -> entry)
    (shortcuts_data : shortcuts_data) (shortcuts : store) : M bool :=
  found <- lift (find_named shortcut_name shortcuts
                   (seq 0 (List.length shortcuts))) ;;
  match found with
  | None => ret false
  | Some (i, shortcut) =>
      binary_dump (with_shortcuts shortcuts_data
                     (Dict.set (str_of_nat i) (change shortcut) shortcuts)) ;;;
      ret true
  end.

(** [shortcut['CompatTool'] = 'proton_experimental'] *)
Definition with_compat_tool (shortcut : entry) : entry :=
  Dict.set CompatTool (VStr proton_experimental) shortcut.

(** [set_compatool_on_shortcut]; [_set_proton_on_shortcut] has the same
    body. *)
Definition set_compatool_on_shortcut (shortcut_name : pystr)
    : world -> world * bool :=
  run (path <- get_shortcuts_vdf ;;
       match path with
       | NoPath => ret false
       | _ =>
           shortcuts_data <- binary_load ;;
           change_first_named shortcut_name with_compat_tool shortcuts_data
             (shortcuts_of shortcuts_data)
       end)
      false.

(** The assignments of [modify_shortcut_target]: the target and the start
    directory exactly as given, the launch options read before and written
    back. *)
Definition with_target (new_exe_path new_start_dir : pystr) (shortcut : entry)
    : entry :=
  let existing_launch_options := get_or_empty LaunchOptions shortcut in
  let s := Dict.set Exe (VStr new_exe_path) shortcut in
  let s := Dict.set StartDir (VStr new_start_dir) s in
  Dict.set LaunchOptions existing_launch_options s.

(** [modify_shortcut_target] *)
Definition modify_shortcut_target
    (shortcut_name new_exe_path new_start_dir : pystr)
    : world -> world * bool :=
  run (path <- get_shortcuts_vdf ;;
       match path with
       | NoPath => ret false
       | _ =>
           shortcuts_data <- binary_load ;;
           match sd_shortcuts shortcuts_data with
           | None => ret false
           | Some shortcuts =>
               change_first_named shortcut_name
                 (with_target new_exe_path new_start_dir) shortcuts_data shortcuts
           end
       end)
      false.

(** [value in container] for a string [needle]: substring of a string,
    key of a mapping, [TypeError] ([None]) on an integer. *)
Definition py_in (needle : pystr) (container : value) : option bool :=
  match container with
  | VStr s => Some (contains needle s)
  | VInt _ => None
  | VDict d => Some (Dict.mem needle d)
  end.

(** The loop of [find_appid_in_shortcuts_vdf]: the [appid] of the first
    entry with the name whose [appid] is truthy. *)
Fixpoint find_appid_loop (shortcut_name : pystr) (shortcuts : store)
    (indices : list nat) : option (option value) :=
  match indices with
  | [] => Some None
  | i :: rest =>
      match by_index shortcuts i with
      | None => None
      | Some shortcut =>
          if value_is_str (Some (get_or_empty AppName shortcut)) shortcut_name
          then match Dict.get appid_key shortcut with
               | Some appid =>
                   if truthy appid then Some (Some appid)
                   else find_appid_loop shortcut_name shortcuts rest
               | None => find_appid_loop shortcut_name shortcuts rest
               end
          else find_appid_loop shortcut_name shortcuts rest
      end
  end.

(** [find_appid_in_shortcuts_vdf]: [Some appid] stands for the string
    [str(appid)] the method returns, [None] for its [None]. *)
Definition find_appid_in_shortcuts_vdf (shortcut_name : pystr) (w : world)
    : option value :=
  match shortcuts_vdf w with
  | Loaded shortcuts_data =>
      let shortcuts := shortcuts_of shortcuts_data in
      match find_appid_loop shortcut_name shortcuts
              (seq 0 (List.length shortcuts)) with
      | Some r => r
      | None => None
      end
  | _ => None
  end.



(** The loop of [verify_final_shortcut]: it answers at the first entry
    whose name contains the queried name. *)
Fixpoint verify_final_loop (shortcut_name expected_exe_path : pystr)
    (shortcuts : store) (indices : list nat) : option bool :=
  match indices with
  | [] => Some false
  | i :: rest =>
      match by_index shortcuts i with
      | None => None
      | Some shortcut =>
          match py_in shortcut_name (get_or_empty AppName shortcut) with
          | None => None
          | Some true => py_in expected_exe_path (get_or_empty Exe shortcut)
          | Some false =>
              verify_final_loop shortcut_name expected_exe_path shortcuts rest
          end
      end
  end.

(** [verify_final_shortcut] *)
Definition verify_final_shortcut (shortcut_name expected_exe_path : pystr)
    (w : world) : bool :=
  match shortcuts_vdf w with
  | Loaded shortcuts_data =>
      let shortcuts := shortcuts_of shortcuts_data in
      match verify_final_loop shortcut_name expected_exe_path shortcuts
              (seq 0 (List.length shortcuts)) with
      | Some b => b
      | None => false
      end
  | _ => false
  end.

(** The entries [cleanup_old_batch_shortcuts] removes. *)
Definition old_batch (shortcut_name : pystr) (shortcut : entry) : bool :=
  match is_old_batch_shortcut shortcut_name shortcut with
  | Some b => b
  | None => false
  end.

(** The assignments of [modify_shortcut_to_batch_file], as its second
    definition in the class body (the one in effect) makes them. *)
Definition with_exe_and_start_dir (new_exe_path new_start_dir : pystr)
    (shortcut : entry) : entry :=
  let s := Dict.set Exe (VStr new_exe_path) shortcut in
  Dict.set StartDir (VStr new_start_dir) s.

(** [modify_shortcut_to_batch_file] *)
Definition modify_shortcut_to_batch_file
    (shortcut_name new_exe_path new_start_dir : pystr)
    : world -> world * bool :=
  run (path <- get_shortcuts_vdf ;;
       match path with
       | NoPath => ret false
       | _ =>
           shortcuts_data <- binary_load ;;
           match sd_shortcuts shortcuts_data with
           | None => ret false
           | Some shortcuts =>
               change_first_named shortcut_name
                 (with_exe_and_start_dir new_exe_path new_start_dir)
                 shortcuts_data shortcuts
           end
       end)
      false.

(** The methods that change the first entry with a name. *)
Inductive first_edit : Type :=
| EditCompatTool (shortcut_name : pystr)
| EditTarget (shortcut_name new_exe_path new_start_dir : pystr)
| EditBatchFile (shortcut_name new_exe_path new_start_dir : pystr).

Definition apply_edit (edit : first_edit) : world -> world * bool :=
  match edit with
  | EditCompatTool n => set_compatool_on_shortcut n
  | EditTarget n e d => modify_shortcut_target n e d
  | EditBatchFile n e d => modify_shortcut_to_batch_file n e d
  end.

(** The name an edit looks for and the assignments it makes. *)
Definition edit_name (edit : first_edit) : pystr :=
  match edit with
  | EditCompatTool n => n
  | EditTarget n _ _ => n
  | EditBatchFile n _ _ => n
  end.

Definition edit_change (edit : first_edit) : entry -> entry :=
  match edit with
  | EditCompatTool _ => with_compat_tool
  | EditTarget _ e d => with_target e d
  | EditBatchFile _ e d => with_exe_and_start_dir e d
  end.

(** The strings an edit writes are held by the binary format. *)
Definition edit_holds (edit : first_edit) : bool :=
  match edit with
  | EditCompatTool _ => true
  | EditTarget _ e d => holds_str e && holds_str d
  | EditBatchFile _ e d => holds_str e && holds_str d
  end.

(** [name == shortcut_name] for [name = shortcut.get('AppName', '')]. *)
Definition name_equals (shortcut_name : pystr) (shortcut : entry) : bool :=
  value_is_str (Some (get_or_empty AppName shortcut)) shortcut_name.


(** Every name is a string, and the names that contain [shortcut_name] are
    equal to it. *)
Definition only_exact_matches (shortcut_name : pystr) (shortcuts : store)
    : Prop :=
  Forall (fun shortcut =>
            exists n, get_or_empty AppName shortcut = VStr n /\
                      (contains shortcut_name n = true -> n = shortcut_name))
         (Dict.values shortcuts).

(* ===================================================================== *)
(** * Further writers and readers of the compatibility mapping *)
(* ===================================================================== *)

(** The descent shared by the two structured writers, with the value
    stored under [key] left open. *)
Definition set_mapping_entry (key : pystr) (v : value)
    (config_data : Dict.t value) : option (Dict.t value) :=
  match child (lit "Software") config_data with
  | None => None
  | Some software =>
    match child (lit "Valve") software with
    | None => None
    | Some valve =>
      match child (lit "Steam") valve with
      | None => None
      | Some steam =>
        match child (lit "CompatToolMapping") steam with
        | None => None
        | Some mapping =>
            let mapping' := Dict.set key v mapping in
            let steam' := Dict.set (lit "CompatToolMapping") (VDict mapping') steam in
            let valve' := Dict.set (lit "Steam") (VDict steam') valve in
            let software' := Dict.set (lit "Valve") (VDict valve') software in
            Some (Dict.set (lit "Software") (VDict software') config_data)
        end
      end
    end
  end.

(** [{'name': compat_tool, 'config': '', 'priority': '250'}] *)
Definition compat_entry (compat_tool : pystr) : value :=
  VDict [ (lit "name", VStr compat_tool);
          (lit "config", VStr []);
          (lit "priority", VStr (lit "250")) ].

(** [set_compatibility_tool_stl_style] *)
Definition set_compatibility_tool_stl_style (unsigned_appid : Z)
    (compat_tool : pystr) : world -> world * bool :=
  run (fun w =>
         match config_vdf w with
         | NoPath => (w, Some false)
         | Unreadable => (w, None)
         | Loaded config_data =>
             (c <- lift (set_mapping_entry (str_of_Z unsigned_appid)
                           (compat_entry compat_tool) config_data) ;;
              write_config c ;;;
              ret true) w
         end)
      false.

(** The read-back at the end of [set_proton_version_for_shortcut]:
    [d.get('Software', {}).get('Valve', {}).get('Steam', {})
      .get('CompatToolMapping', {}).get(key)]; the outer [None] is an
    exception ([get] on something that is no mapping). *)
Definition mapping_entry (key : pystr) (config_data : Dict.t value)
    : option (option value) :=
  match child (lit "Software") config_data with
  | None => None
  | Some software =>
    match child (lit "Valve") software with
    | None => None
    | Some valve =>
      match child (lit "Steam") valve with
      | None => None
      | Some steam =>
        match child (lit "CompatToolMapping") steam with
        | None => None
        | Some mapping => Some (Dict.get key mapping)
        end
      end
    end
  end.

(** The decoded configuration in the world. *)
Definition config_of (w : world) : Dict.t value :=
  match config_vdf w with
  | Loaded c => c
  | _ => []
  end.

(** [f.readlines()] on the text of a file opened in text mode, that is
    with its line ends already translated to the newline character: the
    text is cut after every newline; [current] holds, reversed, the
    characters of the line being read. *)
Fixpoint readlines_from (current content : pystr) : list pystr :=
  match content with
  | [] => match current with [] => [] | _ => [rev current] end
  | c :: rest =>
      if c =? 10 then rev (c :: current) :: readlines_from [] rest
      else readlines_from (c :: current) rest
  end.

Definition readlines (content : pystr) : list pystr :=
  readlines_from [] content.

(** Step 1 of [set_compatibility_tool_complete_stl_style] from the text
    read to the text handed to [f.writelines(lines)]. *)
Definition patch_config_text (unsigned_appid : Z) (compat_tool : pystr)
    (content : pystr) : option pystr :=
  match patch_compat_mapping unsigned_appid compat_tool (readlines content) with
  | Some lines => Some (List.concat lines)
  | None => None
  end.

(** [verify_compatibility_tool_persists] on the text of the file it
    reads. *)
Definition verify_compatibility_tool_persists (appid : Z) (content : pystr)
    : bool :=
  contains (appid_token appid) content.

(** The brace count with which the scan of [find_block_end] leaves
    [lines] when it does not find the end among them; [None] when it
    does. *)
Fixpoint brace_count_after (lines : list pystr) (brace_count : Z) : option Z :=
  match lines with
  | [] => Some brace_count
  | line :: rest =>
      let brace_count :=
        if contains open_brace line then brace_count + 1 else brace_count in
      if contains close_brace line
      then if brace_count - 1 =? 0 then None
           else brace_count_after rest (brace_count - 1)
      else brace_count_after rest brace_count
  end.

(** A line as [readlines] yields it before the end of the file: it ends
    with its only newline. *)
Definition complete_line (line : pystr) : Prop :=
  exists body, line = body ++ newline /\ ~ In 10 body.

(** The lines of a text file: each ends with its only newline, except
    that the last one may have none; no line is empty. *)
Fixpoint proper_lines (lines : list pystr) : Prop :=
  match lines with
  | [] => True
  | [last] => complete_line last \/ (last <> [] /\ ~ In 10 last)
  | line :: rest => complete_line line /\ proper_lines rest
  end.

(** A string without newline and braces. *)
Definition plain (s : pystr) : Prop :=
  ~ In 10 s /\ ~ In 123 s /\ ~ In 125 s.

(* ===================================================================== *)
(** * Waiting for the prefix *)
(* ===================================================================== *)

(** The loop of [wait_for_prefix_completion]. One element of [samples] is
    what one iteration observes: [None] when [system.reg] does not exist,
    its size otherwise; the number of samples is [timeout]. *)
Fixpoint wait_loop (samples : list (option Z)) (last_size : Z)
    (stable_count : nat) : bool :=
  match samples with
  | [] => false
  | None :: rest => wait_loop rest last_size stable_count
  | Some current_size :: rest =>
      if current_size =? last_size
      then if (3 <=? S stable_count)%nat then true
           else wait_loop rest last_size (S stable_count)
      else wait_loop rest current_size 0
  end.

(** [wait_for_prefix_completion] *)
Definition wait_for_prefix_completion (samples : list (option Z)) : bool :=
  wait_loop samples 0 0.

(** The sizes observed, in order. *)
Fixpoint observed (samples : list (option Z)) : list Z :=
  match samples with
  | [] => []
  | None :: rest => observed rest
  | Some size :: rest => size :: observed rest
  end.

(** The world [create_shortcut_directly_with_proton] has reached when it
    turns to [config.vdf]: the batch file and the store are written. *)
Definition after_upsert (env : externals) (shortcut_name : pystr) (appid : Z)
    (sd : shortcuts_data) (w : world) : world :=
  {| shortcuts_vdf :=
       Loaded (with_shortcuts sd (upsert env shortcut_name appid (shortcuts_of sd)));
     store_writes := S (store_writes w);
     config_vdf := config_vdf w;
     batch_written := true;
     launched := launched w;
     garbled_shortcuts := garbled_shortcuts w;
     garbled_config := garbled_config w |}.

(* ===================================================================== *)
(** * Further sample data *)
(* ===================================================================== *)

Module Scenario.

(** Collaborators with which the whole workflow succeeds: every path
    exists, and the inventory lists the shortcut under the identifier
    4242, whose prefix is verified. *)
Definition env : externals :=
  {| home := lit "/home/deck";
     batch_writable := true;
     restart_result := true;
     steam_launch := fun _ => TimeoutExpired;
     path_exists := fun _ => true;
     inventory_appid := fun _ => Some 4242;
     get_compatdata_path_for_appid := fun _ => Some (lit "/compatdata/4242");
     prefix_verified := fun _ => true |}.

(** A world whose [shortcuts.vdf] loads and whose [config.vdf] does not
    decode. *)
Definition broken_config (shortcuts : store) : world :=
  {| shortcuts_vdf := Loaded {| sd_shortcuts := Some shortcuts; sd_rest := [] |};
     store_writes := 0;
     config_vdf := Unreadable;
     batch_written := false;
     launched := [];
     garbled_shortcuts := fun _ => None;
     garbled_config := fun _ => None |}.

(** A decoded [shortcuts.vdf] without the key ['shortcuts']. *)
Definition no_shortcuts_key : world :=
  {| shortcuts_vdf := Loaded {| sd_shortcuts := None; sd_rest := [] |};
     store_writes := 0;
     config_vdf := Loaded [];
     batch_written := false;
     launched := [];
     garbled_shortcuts := fun _ => None;
     garbled_config := fun _ => None |}.

(** A store with two entries named "Foo", the second one pointing at a
    bootstrap batch file, and one named "FooBar". *)
Definition three : store :=
  reindex [ Sample.foo_entry (quoted (lit "/a/Foo.exe")) (-11);
            Sample.foo_batch;
            [ (AppName, VStr (lit "FooBar")); (Exe, VStr (lit "/b/x.exe"));
              (appid_key, VInt (-14)) ] ].


(** An entry named "Foo" whose executable is an unquoted batch file. *)
Definition foo_unquoted_batch : entry :=
  Sample.foo_entry (lit "/home/deck/prefix_creation_Foo.bat") (-15).

(** A world whose [config.vdf] decodes but has a string where the
    mapping ['Software'] belongs. *)
Definition software_is_text : world :=
  {| shortcuts_vdf := Loaded {| sd_shortcuts := Some []; sd_rest := [] |};
     store_writes := 0;
     config_vdf := Loaded [ (lit "Software", VStr (lit "x")) ];
     batch_written := false;
     launched := [];
     garbled_shortcuts := fun _ => None;
     garbled_config := fun _ => None |}.

(** A string that is one lone surrogate. *)
Definition surrogate_name : pystr := [0xD800].

(** A store whose first entry is an old bootstrap entry of "Foo" and
    whose second is the entry of "Foo" to keep. *)
Definition batch_then_foo : store :=
  reindex [ foo_unquoted_batch;
            Sample.foo_entry (quoted (lit "/a/Foo.exe")) (-11) ].

(** The file of [Sample.config_lines] with the opening brace of the
    section on the line of its header. *)
Definition brace_on_header : list pystr :=
  [ quoted (lit "InstallConfigStore") ++ newline;
    open_brace ++ newline;
    tabs 1 ++ quoted (lit "CompatToolMapping") ++ lit " {" ++ newline;
    tabs 2 ++ quoted (lit "123") ++ newline;
    tabs 2 ++ open_brace ++ newline;
    tabs 3 ++ quoted (lit "name") ++ tabs 2 ++ quoted (lit "proton_9") ++ newline;
    tabs 3 ++ quoted (lit "config") ++ tabs 2 ++ quoted [] ++ newline;
    tabs 3 ++ quoted (lit "priority") ++ tabs 2 ++ quoted (lit "250") ++ newline;
    tabs 2 ++ close_brace ++ newline;
    tabs 1 ++ close_brace ++ newline;
    close_brace ++ newline ].

(** A name with a U+0000 in it. *)
Definition nul_name : pystr := [97; 0; 98].

(** The text of [Sample.config_lines] without the entry of 123. *)
Definition config_text : pystr :=
  List.concat
    [ quoted (lit "InstallConfigStore") ++ newline;
      open_brace ++ newline;
      tabs 1 ++ quoted (lit "CompatToolMapping") ++ newline;
      tabs 1 ++ open_brace ++ newline;
      tabs 1 ++ close_brace ++ newline;
      close_brace ++ newline ].

End Scenario.

(* ===================================================================== *)
(** * Test vectors of the library functions *)
(* ===================================================================== *)

Section TestVectors.

(** The check value of CRC-32. *)
Example crc32_check : Zlib.crc32 (lit "123456789") = 0xCBF43926.
Proof. vm_compute. reflexivity. Qed.

(** RFC 1321, appendix A.5, and inputs around the padding boundary. *)
Example md5_empty :
  Hashlib.hexdigest [] = lit "d41d8cd98f00b204e9800998ecf8427e".
Proof. vm_compute. reflexivity. Qed.

Example md5_abc :
  Hashlib.hexdigest (lit "abc") = lit "900150983cd24fb0d6963f7d28e17f72".
Proof. vm_compute. reflexivity. Qed.

Example md5_message_digest :
  Hashlib.hexdigest (lit "message digest")
  = lit "f96b697d7cb7938d525a2f31aaf161d0".
Proof. vm_compute. reflexivity. Qed.

Example md5_55_bytes :
  Hashlib.hexdigest (repeat 120 55) = lit "04364420e25c512fd958a70738aa8f72".
Proof. vm_compute. reflexivity. Qed.

Example md5_56_bytes :
  Hashlib.hexdigest (repeat 120 56) = lit "668a72d5ba17f08e62dabcafad6db14b".
Proof. vm_compute. reflexivity. Qed.

Example md5_130_bytes :
  Hashlib.hexdigest (repeat 120 130) = lit "cfc92f41305ca00c9f9584bf67ae1b54".
Proof. vm_compute. reflexivity. Qed.

(** One code point of each UTF-8 length: U+0041, U+00E9, U+20AC, U+1D11E;
    a lone surrogate does not encode. *)
Example utf8_lengths :
  encode_utf8 [0x41; 0xE9; 0x20AC; 0x1D11E]
  = Some [65; 195; 169; 226; 130; 172; 240; 157; 132; 158].
Proof. reflexivity. Qed.

Example utf8_surrogate : encode_utf8 [0xD800] = None.
Proof. reflexivity. Qed.

Example str_of_Z_examples :
  str_of_Z 0 = lit "0" /\ str_of_Z (-15) = lit "-15" /\
  str_of_nat 120 = lit "120".
Proof. repeat split. Qed.

Example strip_examples :
  strip_chars [dq] (quoted (lit "/a/Foo.exe")) = lit "/a/Foo.exe" /\
  strip (tabs 2 ++ quoted (lit "123") ++ newline) = quoted (lit "123").
Proof. split; reflexivity. Qed.

End TestVectors.

(* ===================================================================== *)
(** * Facts about strings *)
(* ===================================================================== *)

Section StringFacts.

Lemma eqb_eq (a b : pystr) : eqb a b = true <-> a = b.
Proof.
  revert b. induction a as [|x a IH]; intros [|y b]; simpl;
    try (split; [discriminate | discriminate]); try tauto.
  rewrite andb_true_iff, Z.eqb_eq, IH.
  split; [intros [-> ->]; reflexivity | intros [= -> ->]; auto].
Qed.

Lemma eqb_refl (a : pystr) : eqb a a = true.
Proof. apply eqb_eq; reflexivity. Qed.

Lemma eqb_neq (a b : pystr) : eqb a b = false <-> a <> b.
Proof.
  split.
  - intros H E. apply eqb_eq in E. congruence.
  - intros H. destruct (eqb a b) eqn:E; [apply eqb_eq in E; contradiction | reflexivity].
Qed.

Lemma eqb_sym (a b : pystr) : eqb a b = eqb b a.
Proof.
  destruct (eqb a b) eqn:E.
  - apply eqb_eq in E. subst. symmetry. apply eqb_refl.
  - symmetry. apply eqb_neq. apply eqb_neq in E. congruence.
Qed.

Lemma lit_inj (s t : string) : lit s = lit t -> s = t.
Proof.
  unfold lit. intros H.
  rewrite <- (string_of_list_ascii_of_string s),
          <- (string_of_list_ascii_of_string t).
  f_equal.
  revert H. generalize (list_ascii_of_string s) (list_ascii_of_string t).
  induction l as [|a l IH]; intros [|b l']; simpl; try discriminate; auto.
  intros [= H1 H2]. f_equal; [|auto].
  apply N2Z.inj in H1.
  rewrite <- (ascii_N_embedding a), <- (ascii_N_embedding b). congruence.
Qed.

Lemma str_of_Z_inj (x y : Z) : str_of_Z x = str_of_Z y -> x = y.
Proof.
  unfold str_of_Z. intros H. apply lit_inj in H.
  apply DecimalZ.to_int_inj.
  assert (E : NilEmpty.int_of_string (NilEmpty.string_of_int (Z.to_int x))
              = NilEmpty.int_of_string (NilEmpty.string_of_int (Z.to_int y)))
    by (rewrite H; reflexivity).
  rewrite !NilEmpty.isi in E. congruence.
Qed.

Lemma str_of_nat_inj (i j : nat) : str_of_nat i = str_of_nat j -> i = j.
Proof. unfold str_of_nat. intros H. apply str_of_Z_inj in H. lia. Qed.

Lemma string_of_uint_chars (d : Decimal.uint) :
  Forall (fun c => 48 <= c <= 57) (lit (NilEmpty.string_of_uint d)).
Proof.
  induction d; cbn [NilEmpty.string_of_uint]; [constructor|..];
    (constructor; [vm_compute; split; discriminate|exact IHd]).
Qed.

Lemma str_of_Z_chars (z : Z) :
  Forall (fun c => 48 <= c <= 57 \/ c = 45) (str_of_Z z).
Proof.
  unfold str_of_Z. destruct (Z.to_int z) as [d|d]; cbn [NilEmpty.string_of_int].
  - eapply Forall_impl; [|apply string_of_uint_chars]. intros c Hc. left. exact Hc.
  - constructor; [right; reflexivity|].
    eapply Forall_impl; [|apply string_of_uint_chars]. intros c Hc. left. exact Hc.
Qed.

Lemma encode_utf8_app (a b : pystr) :
  encode_utf8 (a ++ b) =
  match encode_utf8 a, encode_utf8 b with
  | Some x, Some y => Some (x ++ y)
  | _, _ => None
  end.
Proof.
  induction a as [|c a IH]; simpl.
  - destruct (encode_utf8 b); reflexivity.
  - rewrite IH. destruct (encode_code_point c); [|reflexivity].
    destruct (encode_utf8 a); [|reflexivity].
    destruct (encode_utf8 b); [|reflexivity].
    rewrite app_assoc. reflexivity.
Qed.

(** ** Strings that the binary format holds *)

Lemma encodable_app (a b : pystr) :
  encodable (a ++ b) = encodable a && encodable b.
Proof.
  unfold encodable. rewrite encode_utf8_app.
  destruct (encode_utf8 a), (encode_utf8 b); reflexivity.
Qed.

Lemma holds_str_app (a b : pystr) :
  holds_str a = true -> holds_str b = true -> holds_str (a ++ b) = true.
Proof.
  unfold holds_str, no_nul. rewrite encodable_app, forallb_app.
  rewrite !andb_true_iff. tauto.
Qed.

Lemma holds_str_ascii (s : pystr) :
  Forall (fun c => 0 < c < 128) s -> holds_str s = true.
Proof.
  unfold holds_str, encodable, no_nul.
  induction 1 as [|c s Hc _ IH]; [reflexivity|].
  cbn [encode_utf8 forallb]. unfold encode_code_point.
  destruct (Z.ltb_spec c 0); [lia|].
  destruct (Z.ltb_spec c 128); [|lia].
  destruct (encode_utf8 s); [|discriminate].
  destruct (Z.eqb_spec c 0); [lia|]. exact IH.
Qed.

Lemma holds_str_of_Z (z : Z) : holds_str (str_of_Z z) = true.
Proof.
  apply holds_str_ascii. eapply Forall_impl; [|apply str_of_Z_chars].
  cbv beta. intros c Hc. lia.
Qed.

Lemma holds_str_of_nat (n : nat) : holds_str (str_of_nat n) = true.
Proof. apply holds_str_of_Z. Qed.

Lemma holds_str_quoted (s : pystr) :
  holds_str s = true -> holds_str (quoted s) = true.
Proof.
  intros H. unfold quoted.
  change (dq :: s ++ [dq]) with ([dq] ++ s ++ [dq]).
  repeat apply holds_str_app; auto.
Qed.

Lemma holds_str_encodable (s : pystr) :
  holds_str s = true -> encodable s = true.
Proof. unfold holds_str. rewrite andb_true_iff. tauto. Qed.

End StringFacts.

(* ===================================================================== *)
(** * Facts about dictionaries *)
(* ===================================================================== *)

Section DictFacts.
Context {V : Type}.
Implicit Types (d u : Dict.t V) (k : pystr) (v : V).

Lemma get_set k k' v d :
  Dict.get k (Dict.set k' v d) = if eqb k k' then Some v else Dict.get k d.
Proof.
  induction d as [|[k0 v0] d IH]; simpl.
  - destruct (eqb k k'); reflexivity.
  - destruct (eqb k' k0) eqn:E; simpl.
    + apply eqb_eq in E. subst k0. destruct (eqb k k'); reflexivity.
    + destruct (eqb k k0) eqn:E0.
      * apply eqb_eq in E0. subst k0. rewrite eqb_sym, E. reflexivity.
      * exact IH.
Qed.

Lemma get_None_not_in k d : Dict.get k d = None <-> ~ In k (Dict.keys d).
Proof.
  induction d as [|[k0 v0] d IH]; simpl; [tauto|].
  destruct (eqb k k0) eqn:E.
  - apply eqb_eq in E. subst. split; [discriminate | intros H; exfalso; auto].
  - apply eqb_neq in E. rewrite IH. split; [intros H [H'|H']; congruence | tauto].
Qed.

Lemma set_fresh k v d :
  ~ In k (Dict.keys d) -> Dict.set k v d = d ++ [(k, v)].
Proof.
  induction d as [|[k0 v0] d IH]; simpl; intros H; [reflexivity|].
  destruct (eqb k k0) eqn:E.
  - apply eqb_eq in E. subst. exfalso; auto.
  - rewrite IH by tauto. reflexivity.
Qed.

Lemma keys_set_present k v d :
  In k (Dict.keys d) -> Dict.keys (Dict.set k v d) = Dict.keys d.
Proof.
  induction d as [|[k0 v0] d IH]; simpl; intros H; [contradiction|].
  destruct (eqb k k0) eqn:E; simpl; [reflexivity|].
  apply eqb_neq in E. f_equal. apply IH. destruct H; congruence.
Qed.

(** Assignment keeps the keys distinct. *)
Lemma wf_set k v d : Dict.wf d -> Dict.wf (Dict.set k v d).
Proof.
  unfold Dict.wf. intros H.
  destruct (Dict.get k d) eqn:E.
  - rewrite keys_set_present; [exact H|].
    destruct (in_dec (list_eq_dec Z.eq_dec) k (Dict.keys d)) as [Hin|Hout];
      [exact Hin|]. apply get_None_not_in in Hout. congruence.
  - apply get_None_not_in in E. rewrite set_fresh by exact E.
    unfold Dict.keys in *. rewrite map_app. cbn [map fst].
    apply NoDup_app; [exact H | repeat constructor; intros [] |].
    intros x Hx [<-|[]]. contradiction.
Qed.

Lemma wf_update d u : Dict.wf d -> Dict.wf (Dict.update d u).
Proof.
  unfold Dict.update. revert d.
  induction u as [|[k v] u IH]; intros d H; [exact H|].
  cbn [fold_left fst snd]. apply IH. apply wf_set. exact H.
Qed.

Lemma get_update_absent k d u :
  ~ In k (Dict.keys u) -> Dict.get k (Dict.update d u) = Dict.get k d.
Proof.
  unfold Dict.update. revert d.
  induction u as [|[k0 v0] u IH]; simpl; intros d H; [reflexivity|].
  rewrite IH by tauto. rewrite get_set.
  destruct (eqb k k0) eqn:E; [|reflexivity].
  apply eqb_eq in E. subst. exfalso; auto.
Qed.

Lemma get_update_present k v d u1 u2 :
  ~ In k (Dict.keys u2) ->
  Dict.get k (Dict.update d (u1 ++ (k, v) :: u2)) = Some v.
Proof.
  intros H. unfold Dict.update. rewrite fold_left_app. simpl.
  fold (Dict.update (Dict.set k v (fold_left
          (fun acc kv => Dict.set (fst kv) (snd kv) acc) u1 d)) u2).
  rewrite get_update_absent by exact H.
  rewrite get_set, eqb_refl. reflexivity.
Qed.

End DictFacts.

Section ReindexFacts.

Lemma reindex_from (l : list entry) : forall (n : nat) (d : store),
  Dict.keys d = map str_of_nat (seq 0 n) ->
  fold_left (fun d ie => Dict.set (str_of_nat (fst ie)) (snd ie) d)
            (combine (seq n (List.length l)) l) d
  = d ++ combine (map str_of_nat (seq n (List.length l))) l.
Proof.
  induction l as [|s l IH]; intros n d Hk; simpl.
  - rewrite app_nil_r. reflexivity.
  - rewrite set_fresh.
    + rewrite IH.
      * rewrite <- app_assoc. reflexivity.
      * unfold Dict.keys in *. rewrite map_app, Hk.
        rewrite seq_S, map_app. reflexivity.
    + rewrite Hk. intros H. apply in_map_iff in H.
      destruct H as [j [Hj Hin]]. apply str_of_nat_inj in Hj. subst j.
      apply in_seq in Hin. lia.
Qed.

(** The dictionary comprehension builds one record per list element,
    in order, under the keys ["0"], ["1"], ... *)
Lemma reindex_spec (l : list entry) :
  reindex l = combine (map str_of_nat (seq 0 (List.length l))) l.
Proof.
  unfold reindex, enumerate. rewrite reindex_from with (d := []); reflexivity.
Qed.

Lemma keys_reindex (l : list entry) :
  Dict.keys (reindex l) = map str_of_nat (seq 0 (List.length l)).
Proof.
  rewrite reindex_spec. unfold Dict.keys.
  assert (H : forall (A B : Type) (a : list A) (b : list B),
             List.length a = List.length b -> map fst (combine a b) = a).
  { induction a as [|x a IH]; intros [|y b]; simpl; try discriminate; auto.
    intros [= E]. f_equal. auto. }
  apply H. rewrite length_map, length_seq. reflexivity.
Qed.

Lemma values_reindex (l : list entry) : Dict.values (reindex l) = l.
Proof.
  rewrite reindex_spec. unfold Dict.values.
  assert (H : forall (A B : Type) (a : list A) (b : list B),
             List.length a = List.length b -> map snd (combine a b) = b).
  { induction a as [|x a IH]; intros [|y b]; simpl; try discriminate; auto.
    intros [= E]. f_equal. auto. }
  apply H. rewrite length_map, length_seq. reflexivity.
Qed.

Lemma length_reindex (l : list entry) :
  List.length (reindex l) = List.length l.
Proof.
  rewrite <- (values_reindex l) at 2. unfold Dict.values.
  rewrite length_map. reflexivity.
Qed.

End ReindexFacts.

(* ===================================================================== *)
(** * Facts about the two codecs *)
(* ===================================================================== *)

Section CodecFacts.
Variables (ps : pystr -> bool) (pz : Z -> bool).

Lemma dict_all_forallb (d : Dict.t value) :
  dict_all ps pz d
  = forallb (fun kv => ps (fst kv) && value_all ps pz (snd kv)) d.
Proof.
  unfold dict_all. induction d as [|[k x] d IH]; [reflexivity|].
  cbn [forallb fst snd]. rewrite <- IH. reflexivity.
Qed.

Lemma dict_all_set (k : pystr) (v : value) (d : Dict.t value) :
  ps k = true -> value_all ps pz v = true -> dict_all ps pz d = true ->
  dict_all ps pz (Dict.set k v d) = true.
Proof.
  intros Hk Hv. rewrite !dict_all_forallb.
  induction d as [|[k0 v0] d IH]; cbn [Dict.set forallb fst snd].
  - intros _. rewrite Hk, Hv. reflexivity.
  - rewrite !andb_true_iff. intros [[H1 H2] H3].
    destruct (eqb k k0); cbn [forallb fst snd]; rewrite !andb_true_iff; auto.
Qed.

Lemma dict_all_update (d u : Dict.t value) :
  dict_all ps pz d = true -> dict_all ps pz u = true ->
  dict_all ps pz (Dict.update d u) = true.
Proof.
  unfold Dict.update. revert d.
  induction u as [|[k v] u IH]; intros d Hd Hu; [exact Hd|].
  rewrite dict_all_forallb in Hu. cbn [forallb fst snd] in Hu.
  rewrite !andb_true_iff in Hu. destruct Hu as [[H1 H2] H3].
  cbn [fold_left fst snd]. apply IH.
  - apply dict_all_set; assumption.
  - rewrite dict_all_forallb. exact H3.
Qed.

Lemma dict_all_get (k : pystr) (v : value) (d : Dict.t value) :
  dict_all ps pz d = true -> Dict.get k d = Some v -> value_all ps pz v = true.
Proof.
  rewrite dict_all_forallb.
  induction d as [|[k0 v0] d IH]; cbn [Dict.get forallb fst snd]; [discriminate|].
  rewrite !andb_true_iff. intros [[H1 H2] H3].
  destruct (eqb k k0); [intros [= <-]; exact H2|auto].
Qed.

Lemma store_all_set (k : pystr) (e : entry) (shortcuts : store) :
  ps k = true -> dict_all ps pz e = true -> store_all ps pz shortcuts = true ->
  store_all ps pz (Dict.set k e shortcuts) = true.
Proof.
  intros Hk He. unfold store_all.
  induction shortcuts as [|[k0 e0] d IH]; cbn [Dict.set forallb fst snd].
  - intros _. rewrite Hk, He. reflexivity.
  - rewrite !andb_true_iff. intros [[H1 H2] H3].
    destruct (eqb k k0); cbn [forallb fst snd]; rewrite !andb_true_iff; auto.
Qed.

Lemma store_all_values (shortcuts : store) :
  store_all ps pz shortcuts = true ->
  forallb (dict_all ps pz) (Dict.values shortcuts) = true.
Proof.
  unfold store_all, Dict.values.
  induction shortcuts as [|[k e] d IH]; cbn [forallb map fst snd]; [reflexivity|].
  rewrite !andb_true_iff. intros [[H1 H2] H3]. auto.
Qed.

Lemma store_all_get (k : pystr) (e : entry) (shortcuts : store) :
  store_all ps pz shortcuts = true -> Dict.get k shortcuts = Some e ->
  dict_all ps pz e = true.
Proof.
  unfold store_all.
  induction shortcuts as [|[k0 e0] d IH]; cbn [Dict.get forallb fst snd];
    [discriminate|].
  rewrite !andb_true_iff. intros [[H1 H2] H3].
  destruct (eqb k k0); [intros [= <-]; exact H2|auto].
Qed.

Lemma store_all_combine (ks : list pystr) (l : list entry) :
  forallb ps ks = true -> forallb (dict_all ps pz) l = true ->
  store_all ps pz (combine ks l) = true.
Proof.
  unfold store_all. revert l.
  induction ks as [|k ks IH]; intros [|e l]; cbn [combine forallb fst snd];
    try reflexivity.
  rewrite !andb_true_iff. intros [H1 H2] [H3 H4]. auto.
Qed.

Lemma store_all_reindex (l : list entry) :
  (forall i, ps (str_of_nat i) = true) ->
  forallb (dict_all ps pz) l = true -> store_all ps pz (reindex l) = true.
Proof.
  intros Hn Hl. rewrite reindex_spec. apply store_all_combine; [|exact Hl].
  apply forallb_forall. intros k Hk. apply in_map_iff in Hk.
  destruct Hk as [i [<- _]]. apply Hn.
Qed.

Lemma data_all_shortcuts_of (sd : shortcuts_data) :
  data_all ps pz sd = true -> store_all ps pz (shortcuts_of sd) = true.
Proof.
  unfold data_all, shortcuts_of. destruct (sd_shortcuts sd); [|reflexivity].
  rewrite andb_true_iff. tauto.
Qed.

Lemma data_all_with_shortcuts (sd : shortcuts_data) (shortcuts : store) :
  data_all ps pz sd = true -> store_all ps pz shortcuts = true ->
  data_all ps pz (with_shortcuts sd shortcuts) = true.
Proof.
  unfold data_all, with_shortcuts. cbn [sd_shortcuts sd_rest].
  rewrite !andb_true_iff. tauto.
Qed.

End CodecFacts.

Section DumpFacts.

(** Data that the format holds is what the file holds after the dump. *)
Lemma binary_dump_holds (sd : shortcuts_data) (w : world) :
  holds_data sd = true ->
  binary_dump sd w = (store_written (Loaded sd) w, Some tt).
Proof. intros H. unfold binary_dump. rewrite H. reflexivity. Qed.

(** Whatever the dump is given, the file is opened for writing once and
    nothing else changes. *)
Lemma binary_dump_frame (sd : shortcuts_data) (w : world) :
  exists f, fst (binary_dump sd w) = store_written f w.
Proof.
  unfold binary_dump.
  destruct (holds_data sd); [|destruct (encodes_data sd)]; eexists; reflexivity.
Qed.

(** A method that ends with the dump of data that the format holds and
    [return True]. *)
Lemma dump_and_return_true (sd : shortcuts_data) (w : world) :
  holds_data sd = true ->
  run (binary_dump sd ;;; ret true) false w
  = (store_written (Loaded sd) w, true).
Proof.
  intros H. unfold run, bind. rewrite binary_dump_holds by exact H.
  reflexivity.
Qed.

End DumpFacts.

(** A U+0000 in a name is lost without an error: [create_shortcut_directly]
    returns [True] and leaves a file that no longer decodes. *)
Example dump_of_nul_name :
  create_shortcut_directly Scenario.nul_name Sample.real_exe Sample.real_dir
    (Sample.world_of Sample.one_foo)
  = (store_written Unreadable (Sample.world_of Sample.one_foo), true).
Proof. vm_compute. reflexivity. Qed.

(** A lone surrogate in a path makes the dump raise after the file was
    opened for writing: [modify_shortcut_to_final_exe] returns [False] and
    the store it was to change is lost. *)
Example dump_of_surrogate_path :
  modify_shortcut_to_final_exe Sample.Foo Scenario.surrogate_name
    Sample.real_dir (Sample.world_of (reindex [Sample.foo_batch]))
  = (store_written Unreadable (Sample.world_of (reindex [Sample.foo_batch])),
     false).
Proof. vm_compute. reflexivity. Qed.

(* ===================================================================== *)
(** * Facts about the store operations *)
(* ===================================================================== *)

(** Closes a goal [~ In k keys] for literal keys. *)
Ltac key_absent :=
  let H := fresh in
  intro H; vm_compute in H;
  repeat (destruct H as [H|H]; [discriminate H|]); exact H.

Section StoreFacts.

Lemma update_named_spec name fields l : forall found acc,
  update_named name fields l found acc
  = (found || existsb (named name) l, acc ++ map (retouch name fields) l).
Proof.
  induction l as [|s l IH]; intros found acc; simpl.
  - rewrite orb_false_r, app_nil_r. reflexivity.
  - unfold retouch at 1. destruct (named name s); rewrite IH.
    + rewrite <- app_assoc. simpl. rewrite orb_true_r. reflexivity.
    + rewrite <- app_assoc. reflexivity.
Qed.

Lemma values_upsert env name appid (st : store) :
  Dict.values (upsert env name appid st)
  = map (retouch name (bootstrap_fields env appid)) (Dict.values st)
    ++ (if existsb (named name) (Dict.values st) then []
        else [new_shortcut env name appid]).
Proof.
  unfold upsert. rewrite update_named_spec. simpl.
  destruct (existsb (named name) (Dict.values st)); rewrite values_reindex.
  - rewrite app_nil_r. reflexivity.
  - reflexivity.
Qed.

Lemma keys_upsert env name appid (st : store) :
  Dict.keys (upsert env name appid st)
  = map str_of_nat (seq 0 (List.length (upsert env name appid st))).
Proof.
  unfold upsert. destruct (update_named _ _ _ _ _) as [found l].
  rewrite keys_reindex, length_reindex. reflexivity.
Qed.

Lemma named_update name (s fields : entry) :
  ~ In AppName (Dict.keys fields) ->
  named name (Dict.update s fields) = named name s.
Proof. intros H. unfold named. rewrite get_update_absent by exact H. reflexivity. Qed.

Lemma named_bootstrap env name appid s :
  named name (Dict.update s (bootstrap_fields env appid)) = named name s.
Proof. apply named_update. key_absent. Qed.

Lemma named_new_shortcut env name appid :
  named name (new_shortcut env name appid) = true.
Proof. unfold named. simpl. apply eqb_refl. Qed.

Lemma named_retouch_bootstrap env name appid s :
  named name (retouch name (bootstrap_fields env appid) s) = named name s.
Proof.
  unfold retouch. destruct (named name s) eqn:E; [|exact E].
  rewrite named_bootstrap. exact E.
Qed.

Lemma appid_bootstrap env appid s :
  Dict.get appid_key (Dict.update s (bootstrap_fields env appid))
  = Some (VInt appid).
Proof.
  change (bootstrap_fields env appid)
    with ([ (Exe, VStr (quoted (batch_path env)));
            (StartDir, VStr (quoted (batch_dir env))) ]
          ++ (appid_key, VInt appid)
          :: [ (LaunchOptions, VStr []); (tags, VDict []);
               (CompatTool, VStr proton_experimental) ]).
  apply get_update_present. key_absent.
Qed.

Lemma set_proton_keeps_shortcuts appid pv w :
  shortcuts_vdf (fst (set_proton_version_for_shortcut appid pv w))
  = shortcuts_vdf w.
Proof.
  unfold set_proton_version_for_shortcut, run.
  destruct (config_vdf w) as [| |c]; simpl; try reflexivity.
  unfold bind, lift. destruct (assign_compat_tool appid pv c); [|reflexivity].
  unfold ret, write_config. destruct (encodes_text t); reflexivity.
Qed.

(** The entries [create_shortcut_directly_with_proton] writes are held by
    the binary format when the name and the home directory are. *)
Lemma holds_batch_path env :
  holds_str (home env) = true ->
  holds_str (quoted (batch_path env)) = true
  /\ holds_str (quoted (batch_dir env)) = true.
Proof.
  intros H. unfold batch_path, batch_dir.
  split; apply holds_str_quoted; repeat apply holds_str_app; auto.
Qed.

Lemma holds_bootstrap_fields env appid :
  holds_str (home env) = true -> int32 appid = true ->
  holds_entry (bootstrap_fields env appid) = true.
Proof.
  intros H Ha. destruct (holds_batch_path env H) as [H1 H2].
  unfold holds_entry, bootstrap_fields. rewrite dict_all_forallb.
  cbn [forallb fst snd value_all]. rewrite H1, H2, Ha. reflexivity.
Qed.

Lemma holds_new_shortcut env name appid :
  holds_str name = true -> holds_str (home env) = true -> int32 appid = true ->
  holds_entry (new_shortcut env name appid) = true.
Proof.
  intros Hn H Ha. destruct (holds_batch_path env H) as [H1 H2].
  unfold holds_entry, new_shortcut. rewrite dict_all_forallb.
  cbn [forallb fst snd value_all]. rewrite Hn, H1, H2, Ha. reflexivity.
Qed.

Lemma holds_retouch name fields (l : list entry) :
  holds_entry fields = true ->
  forallb holds_entry l = true ->
  forallb holds_entry (map (retouch name fields) l) = true.
Proof.
  intros Hf. induction l as [|s l IH]; cbn [map forallb]; [reflexivity|].
  rewrite !andb_true_iff. intros [H1 H2]. split; [|auto].
  unfold retouch. destruct (named name s); [|exact H1].
  apply dict_all_update; assumption.
Qed.

Lemma holds_reindex (l : list entry) :
  forallb holds_entry l = true -> store_all holds_str int32 (reindex l) = true.
Proof. apply store_all_reindex. exact holds_str_of_nat. Qed.

Lemma holds_upsert env name appid sd :
  holds_data sd = true ->
  holds_str name = true -> holds_str (home env) = true -> int32 appid = true ->
  holds_data (with_shortcuts sd (upsert env name appid (shortcuts_of sd))) = true.
Proof.
  intros Hsd Hn Hh Ha. apply data_all_with_shortcuts; [exact Hsd|].
  unfold upsert. rewrite update_named_spec. cbn [app].
  apply data_all_shortcuts_of, store_all_values in Hsd.
  pose proof (holds_retouch name _ _ (holds_bootstrap_fields env appid Hh Ha) Hsd)
    as Hl.
  destruct (false || existsb (named name) (Dict.values (shortcuts_of sd)));
    apply holds_reindex; [exact Hl|].
  rewrite forallb_app, Hl. cbn [forallb].
  rewrite (holds_new_shortcut env name appid Hn Hh Ha). reflexivity.
Qed.

Lemma checksum_appid_int32 exe name appid :
  checksum_appid exe name = Some appid -> int32 appid = true.
Proof.
  unfold checksum_appid. destruct (encode_utf8 (exe ++ name)); [|discriminate].
  intros [= <-]. change 0x7FFFFFFF with (Z.ones 31).
  rewrite Z.land_ones by lia.
  pose proof (Z.mod_pos_bound (Zlib.crc32 l) (2 ^ 31)).
  unfold int32. apply andb_true_iff. split; [apply Z.leb_le|apply Z.ltb_lt]; lia.
Qed.

Lemma holds_final_fields exe dir :
  holds_str exe = true -> holds_str dir = true ->
  holds_entry (final_fields exe dir) = true.
Proof.
  intros He Hd. unfold holds_entry, final_fields. rewrite dict_all_forallb.
  cbn [forallb fst snd value_all].
  rewrite (holds_str_quoted exe He), Hd. reflexivity.
Qed.


Lemma holds_nth (st : store) (i : nat) (s : entry) :
  store_all holds_str int32 st = true ->
  nth_error (Dict.values st) i = Some s -> holds_entry s = true.
Proof.
  intros Hst Hi. apply store_all_values in Hst.
  rewrite forallb_forall in Hst. apply Hst. eapply nth_error_In. exact Hi.
Qed.


Lemma holds_rebuild (st : store) (remove : list pystr) (indices : list nat) :
  store_all holds_str int32 st = true ->
  forall (acc : store) (k : nat) (st' : store),
    store_all holds_str int32 acc = true ->
    rebuild_without st remove indices acc k = Some st' ->
    store_all holds_str int32 st' = true.
Proof.
  intros Hst.
  induction indices as [|i rest IH]; intros acc k st' Hacc H; simpl in H.
  - injection H as <-. exact Hacc.
  - destruct (existsb (eqb (str_of_nat i)) remove); [eapply IH; eassumption|].
    destruct (by_index st i) as [s|] eqn:Hs; [|discriminate].
    eapply IH; [|exact H].
    apply store_all_set; [apply holds_str_of_nat| |exact Hacc].
    eapply store_all_get; [exact Hst|exact Hs].
Qed.

(** What [create_shortcut_directly_with_proton] leaves in the store file
    when that file loads, the name and path encode and the bootstrap file
    can be written. *)
Lemma create_store env name exe dir w sd appid :
  shortcuts_vdf w = Loaded sd ->
  holds_data sd = true ->
  holds_str name = true ->
  holds_str (home env) = true ->
  checksum_appid exe name = Some appid ->
  batch_writable env = true ->
  shortcuts_vdf (fst (create_shortcut_directly_with_proton env name exe dir w))
  = Loaded (with_shortcuts sd (upsert env name appid (shortcuts_of sd))).
Proof.
  intros Hw Hsd Hn Hh Ha Hb.
  unfold create_shortcut_directly_with_proton, run, bind, get_shortcuts_vdf.
  rewrite Hw, Ha. simpl. unfold write_batch_file. rewrite Hb.
  unfold binary_load. simpl. rewrite Hw.
  rewrite binary_dump_holds
    by (apply holds_upsert; eauto using checksum_appid_int32).
  simpl.
  match goal with
  | |- context [set_proton_version_for_shortcut ?a ?p ?w'] =>
      pose proof (set_proton_keeps_shortcuts a p w') as K;
      destruct (set_proton_version_for_shortcut a p w') as [w2 ok]
  end.
  simpl in *. exact K.
Qed.

End StoreFacts.

(* ===================================================================== *)
(** * C1: the checksum-based identifier *)
(* ===================================================================== *)

Section Checksum.

Lemma land_mask31 (x : Z) : Z.land x 0x7FFFFFFF = x mod 2 ^ 31.
Proof. change 0x7FFFFFFF with (Z.ones 31). apply Z.land_ones. lia. Qed.

Lemma land_mask32 (x : Z) : Z.land x 0xFFFFFFFF = x mod 2 ^ 32.
Proof. change 0xFFFFFFFF with (Z.ones 32). apply Z.land_ones. lia. Qed.

Lemma checksum_appid_range exe name appid :
  checksum_appid exe name = Some appid -> - 2 ^ 31 < appid <= 0.
Proof.
  unfold checksum_appid. destruct (encode_utf8 (exe ++ name)); [|discriminate].
  intros [= <-]. rewrite land_mask31.
  pose proof (Z.mod_pos_bound (Zlib.crc32 l) (2 ^ 31)). lia.
Qed.

End Checksum.

(** C1. For every shortcut name and final executable path whose
    concatenation [exe_path + shortcut_name] encodes to the UTF-8 bytes
    [bytes] (the bytes of the path followed by the bytes of the name), the
    checksum-based derivation yields [-(crc32(bytes) & 0x7FFFFFFF)], a
    non-positive 32-bit signed number; step 2 of the workflow recomputes
    the same number; and once [create_shortcut_directly_with_proton] has
    run on a readable store, the store holds an entry with that name and
    every entry with that name stores this number as its [appid], provided
    the binary format holds what is dumped: the strings of the store read,
    the name and the home directory encode in UTF-8 and have no U+0000. *)
Theorem C1_checksum_identifier
    (env : externals) (w : world) (sd : shortcuts_data)
    (shortcut_name exe_path modlist_install_dir : pystr) (bytes : list Z) :
  encode_utf8 (exe_path ++ shortcut_name) = Some bytes ->
  shortcuts_vdf w = Loaded sd ->
  batch_writable env = true ->
  let appid := - Z.land (Zlib.crc32 bytes) 0x7FFFFFFF in
  checksum_appid exe_path shortcut_name = Some appid /\
  (exists be bn, encode_utf8 exe_path = Some be /\
                 encode_utf8 shortcut_name = Some bn /\ bytes = be ++ bn) /\
  - 2 ^ 31 < appid <= 0 /\
  (holds_data sd = true ->
   holds_str shortcut_name = true ->
   holds_str (home env) = true ->
   exists sd',
     shortcuts_vdf (fst (create_shortcut_directly_with_proton env shortcut_name
                           exe_path modlist_install_dir w)) = Loaded sd' /\
     (exists shortcut, In shortcut (Dict.values (shortcuts_of sd')) /\
                       named shortcut_name shortcut = true) /\
     (forall shortcut, In shortcut (Dict.values (shortcuts_of sd')) ->
                       named shortcut_name shortcut = true ->
                       Dict.get appid_key shortcut = Some (VInt appid))).
Proof.
  intros Henc Hw Hb appid.
  assert (Ha : checksum_appid exe_path shortcut_name = Some appid).
  { unfold checksum_appid. rewrite Henc. reflexivity. }
  split; [exact Ha|]. split.
  { rewrite encode_utf8_app in Henc.
    destruct (encode_utf8 exe_path) as [be|]; [|discriminate].
    destruct (encode_utf8 shortcut_name) as [bn|]; [|discriminate].
    exists be, bn. injection Henc as <-. auto. }
  split; [eapply checksum_appid_range; exact Ha|].
  intros Hsd Hname Hhome.
  eexists. split; [eapply create_store; eassumption|].
  change (shortcuts_of (with_shortcuts sd
            (upsert env shortcut_name appid (shortcuts_of sd))))
    with (upsert env shortcut_name appid (shortcuts_of sd)).
  rewrite values_upsert. split.
  - destruct (existsb (named shortcut_name) (Dict.values (shortcuts_of sd))) eqn:E.
    + apply existsb_exists in E. destruct E as [s [Hin Hs]].
      exists (retouch shortcut_name (bootstrap_fields env appid) s). split.
      * apply in_or_app. left. apply in_map. exact Hin.
      * rewrite named_retouch_bootstrap. exact Hs.
    + exists (new_shortcut env shortcut_name appid). split.
      * apply in_or_app. right. left. reflexivity.
      * apply named_new_shortcut.
  - intros shortcut Hin Hn. apply in_app_or in Hin. destruct Hin as [Hin|Hin].
    + apply in_map_iff in Hin. destruct Hin as [s [<- Hin]].
      rewrite named_retouch_bootstrap in Hn. unfold retouch. rewrite Hn.
      apply appid_bootstrap.
    + destruct (existsb _ _); [contradiction|].
      destruct Hin as [<-|[]]. reflexivity.
Qed.

(** The scenario of the specification: an entry named "Tuxborn" created
    for "/tmp/boot.sh" in an empty store. *)
Lemma C1_witness_Tuxborn :
  encode_utf8 (Sample.boot_sh ++ Sample.Tuxborn)
    = Some (lit "/tmp/boot.shTuxborn") /\
  exists sd',
    shortcuts_vdf (fst (create_shortcut_directly_with_proton Sample.env
                          Sample.Tuxborn Sample.boot_sh Sample.tmp
                          (Sample.world_of []))) = Loaded sd' /\
    forall shortcut, In shortcut (Dict.values (shortcuts_of sd')) ->
                     named Sample.Tuxborn shortcut = true ->
                     Dict.get appid_key shortcut = Some (VInt (-1953115905)).
Proof.
  split; [reflexivity|].
  destruct (C1_checksum_identifier Sample.env (Sample.world_of [])
              {| sd_shortcuts := Some []; sd_rest := [] |}
              Sample.Tuxborn Sample.boot_sh Sample.tmp
              (lit "/tmp/boot.shTuxborn") eq_refl eq_refl eq_refl)
    as (_ & _ & _ & H).
  destruct (H eq_refl eq_refl eq_refl) as (sd' & H1 & _ & H3).
  exists sd'. split; [exact H1|]. exact H3.
Defined.

(* ===================================================================== *)
(** * C2: the hash-based identifier *)
(* ===================================================================== *)

Section HexFacts.

Lemma land_byte (x : Z) : is_byte (Z.land x 0xFF).
Proof.
  unfold is_byte. change 0xFF with (Z.ones 8). rewrite Z.land_ones by lia.
  apply Z.mod_pos_bound. lia.
Qed.

Lemma le_bytes_bytes n : forall w, Forall is_byte (Hashlib.le_bytes n w).
Proof.
  induction n as [|n IH]; intros w; simpl; constructor; auto using land_byte.
Qed.

Lemma le_bytes_length n w : List.length (Hashlib.le_bytes n w) = n.
Proof. revert w. induction n as [|n IH]; intros w; simpl; auto. Qed.

Lemma md5_length msg : List.length (Hashlib.md5 msg) = 16%nat.
Proof.
  unfold Hashlib.md5.
  destruct (fold_left _ _ _) as [[[a b] c] d].
  rewrite !length_app, !le_bytes_length. reflexivity.
Qed.

Lemma md5_bytes msg : Forall is_byte (Hashlib.md5 msg).
Proof.
  unfold Hashlib.md5.
  destruct (fold_left _ _ _) as [[[a b] c] d].
  repeat (apply Forall_app; split); apply le_bytes_bytes.
Qed.

Lemma hex_value_digit n :
  0 <= n < 16 -> Hashlib.hex_value (Hashlib.hex_digit n) = Some n.
Proof.
  intros H. unfold Hashlib.hex_digit, Hashlib.hex_value.
  destruct (n <? 10) eqn:E.
  - apply Z.ltb_lt in E.
    replace ((48 <=? 48 + n) && (48 + n <=? 57)) with true
      by (symmetry; apply andb_true_iff; split; apply Z.leb_le; lia).
    f_equal. lia.
  - apply Z.ltb_ge in E.
    replace ((48 <=? 87 + n) && (87 + n <=? 57)) with false
      by (symmetry; apply andb_false_iff; right; apply Z.leb_gt; lia).
    replace ((97 <=? 87 + n) && (87 + n <=? 102)) with true
      by (symmetry; apply andb_true_iff; split; apply Z.leb_le; lia).
    f_equal. lia.
Qed.

Lemma nibbles b :
  is_byte b ->
  0 <= Z.shiftr b 4 < 16 /\ 0 <= Z.land b 0xF < 16 /\
  16 * Z.shiftr b 4 + Z.land b 0xF = b.
Proof.
  unfold is_byte. intros H.
  rewrite Z.shiftr_div_pow2 by lia.
  change 0xF with (Z.ones 4). rewrite Z.land_ones by lia.
  change (2 ^ 4) with 16.
  pose proof (Z.div_mod b 16 ltac:(lia)).
  pose proof (Z.mod_pos_bound b 16 ltac:(lia)).
  assert (0 <= b / 16 < 16)
    by (split; [apply Z.div_pos; lia | apply Z.div_lt_upper_bound; lia]).
  lia.
Qed.

Lemma hex_acc_bytes bs : forall acc,
  Forall is_byte bs ->
  Hashlib.hex_acc acc (flat_map Hashlib.hex_byte bs)
  = Some (fold_left (fun a b => 256 * a + b) bs acc).
Proof.
  induction bs as [|b bs IH]; intros acc H; [reflexivity|].
  inversion H as [|? ? Hb Hbs]; subst.
  destruct (nibbles b Hb) as (H1 & H2 & H3).
  cbn [flat_map Hashlib.hex_byte app Hashlib.hex_acc].
  rewrite (hex_value_digit _ H1), (hex_value_digit _ H2).
  rewrite IH by assumption. cbn [fold_left]. do 2 f_equal. lia.
Qed.

Lemma firstn_hex n : forall bs,
  firstn (2 * n) (flat_map Hashlib.hex_byte bs)
  = flat_map Hashlib.hex_byte (firstn n bs).
Proof.
  induction n as [|n IH]; intros bs; [reflexivity|].
  destruct bs as [|b bs]; [reflexivity|].
  replace (2 * S n)%nat with (S (S (2 * n))) by lia.
  cbn [flat_map Hashlib.hex_byte app firstn]. rewrite IH. reflexivity.
Qed.

Lemma digest_value_acc bs : forall acc,
  fold_left (fun a b => 256 * a + b) bs acc
  = acc * 256 ^ Z.of_nat (List.length bs) + digest_value bs.
Proof.
  unfold digest_value.
  induction bs as [|b bs IH]; intros acc.
  - simpl. lia.
  - cbn [fold_left]. rewrite IH. rewrite (IH (256 * 0 + b)).
    cbn [List.length]. rewrite Nat2Z.inj_succ, Z.pow_succ_r by lia. lia.
Qed.

Lemma digest_value_range bs :
  Forall is_byte bs -> 0 <= digest_value bs < 256 ^ Z.of_nat (List.length bs).
Proof.
  induction bs as [|b bs IH] using rev_ind; intros H.
  - unfold digest_value. simpl. lia.
  - apply Forall_app in H. destruct H as [H1 H2].
    inversion H2 as [|? ? Hb _]; subst. unfold is_byte in Hb.
    unfold digest_value in *. rewrite fold_left_app. cbn [fold_left].
    rewrite length_app. cbn [List.length].
    rewrite Nat2Z.inj_add, Z.pow_add_r by lia.
    change (256 ^ Z.of_nat 1) with 256.
    specialize (IH H1). nia.
Qed.

Lemma digest_value_app a b :
  digest_value (a ++ b)
  = digest_value a * 256 ^ Z.of_nat (List.length b) + digest_value b.
Proof.
  unfold digest_value at 1. rewrite fold_left_app.
  rewrite digest_value_acc. reflexivity.
Qed.

(** The first eight hexadecimal digits of a 16-byte digest denote the
    leading 32 bits of its value. *)
Lemma seed_of_digest bs :
  Forall is_byte bs -> List.length bs = 16%nat ->
  Hashlib.int16 (firstn 8 (flat_map Hashlib.hex_byte bs))
  = Some (digest_value bs / 2 ^ 96).
Proof.
  intros Hb Hl.
  rewrite (firstn_hex 4).
  rewrite <- (firstn_skipn 4 bs) in Hb. apply Forall_app in Hb.
  destruct Hb as [H4 Hs].
  assert (Hne : flat_map Hashlib.hex_byte (firstn 4 bs) <> []).
  { destruct bs as [|b bs]; [discriminate|]. discriminate. }
  unfold Hashlib.int16.
  destruct (flat_map Hashlib.hex_byte (firstn 4 bs)) eqn:E; [contradiction|].
  rewrite <- E. rewrite hex_acc_bytes by exact H4.
  fold (digest_value (firstn 4 bs)). f_equal.
  rewrite <- (firstn_skipn 4 bs) at 2. rewrite digest_value_app.
  assert (Hls : List.length (skipn 4 bs) = 12%nat) by (rewrite length_skipn; lia).
  rewrite Hls. change (256 ^ Z.of_nat 12) with (2 ^ 96).
  pose proof (digest_value_range _ Hs) as R. rewrite Hls in R.
  change (256 ^ Z.of_nat 12) with (2 ^ 96) in R.
  apply Z.div_unique with (r := digest_value (skipn 4 bs)); lia.
Qed.

End HexFacts.

(** C2, amended. For every shortcut name and executable path whose
    concatenation [shortcut_name + exe_path] encodes to UTF-8 (the bytes of
    the name followed by the bytes of the path), the platform-compatible
    derivation hashes those bytes with MD5, takes the FIRST eight
    hexadecimal digits of the digest, that is the leading (most
    significant) 32 bits of the 128-bit value the digest denotes, reduces
    them modulo one billion and negates; the method returns the unsigned
    form [signed & 0xFFFFFFFF] of that signed identifier. *)
Theorem C2_hash_identifier (shortcut_name exe_path : pystr) (bytes : list Z) :
  encode_utf8 (shortcut_name ++ exe_path) = Some bytes ->
  let h := digest_value (Hashlib.md5 bytes) in
  let signed_appid := - ((h / 2 ^ 96) mod 1000000000) in
  (exists bn be, encode_utf8 shortcut_name = Some bn /\
                 encode_utf8 exe_path = Some be /\ bytes = bn ++ be) /\
  0 <= h < 2 ^ 128 /\
  Hashlib.int16 (Hashlib.hexdigest bytes) = Some h /\
  stl_signed_appid shortcut_name exe_path = Some signed_appid /\
  - 1000000000 < signed_appid <= 0 /\
  predict_appid_using_stl_algorithm shortcut_name exe_path
    = Some (Z.land signed_appid 0xFFFFFFFF).
Proof.
  intros Henc h signed_appid.
  pose proof (md5_bytes bytes) as Hb. pose proof (md5_length bytes) as Hl.
  assert (Hs : stl_signed_appid shortcut_name exe_path = Some signed_appid).
  { unfold stl_signed_appid. rewrite Henc. unfold Hashlib.hexdigest.
    rewrite seed_of_digest by assumption. reflexivity. }
  split.
  { rewrite encode_utf8_app in Henc.
    destruct (encode_utf8 shortcut_name) as [bn|]; [|discriminate].
    destruct (encode_utf8 exe_path) as [be|]; [|discriminate].
    exists bn, be. injection Henc as <-. auto. }
  split.
  { pose proof (digest_value_range _ Hb) as R. rewrite Hl in R. exact R. }
  split.
  { unfold Hashlib.hexdigest, Hashlib.int16. subst h.
    destruct (Hashlib.md5 bytes) as [|b l] eqn:E; [discriminate Hl|].
    change (Hashlib.hex_acc 0 (flat_map Hashlib.hex_byte (b :: l))
            = Some (digest_value (b :: l))).
    apply hex_acc_bytes. exact Hb. }
  split; [exact Hs|]. split.
  { subst signed_appid.
    pose proof (Z.mod_pos_bound (h / 2 ^ 96) 1000000000 ltac:(lia)). lia. }
  unfold predict_appid_using_stl_algorithm. rewrite Hs. reflexivity.
Qed.

Lemma C2_witness_Tuxborn :
  encode_utf8 (Sample.Tuxborn ++ Sample.boot_sh)
    = Some (lit "Tuxborn/tmp/boot.sh") /\
  stl_signed_appid Sample.Tuxborn Sample.boot_sh
    = Some (- ((digest_value (Hashlib.md5 (lit "Tuxborn/tmp/boot.sh")) / 2 ^ 96)
               mod 1000000000)) /\
  predict_appid_using_stl_algorithm Sample.Tuxborn Sample.boot_sh
    = Some 3923039318.
Proof.
  split; [reflexivity|].
  destruct (C2_hash_identifier Sample.Tuxborn Sample.boot_sh
              (lit "Tuxborn/tmp/boot.sh") eq_refl)
    as (_ & _ & _ & H1 & _ & H2).
  split; [exact H1|]. rewrite H2. vm_compute. reflexivity.
Defined.

(** C2 as stated fails: with the low 32 bits of the hash as the seed, the
    identifier of "Tuxborn" with "/tmp/boot.sh" would be -977219552, while
    the code derives -371927978 from the leading 32 bits. (Reading the
    digest least significant byte first does not help: its low 32 bits
    would give -861169608.) *)
Lemma C2_counterexample :
  stl_signed_appid Sample.Tuxborn Sample.boot_sh = Some (-371927978) /\
  stl_signed_appid_low32 Sample.Tuxborn Sample.boot_sh = Some (-977219552) /\
  - (Hashlib.le_word (firstn 4 (Hashlib.md5 (lit "Tuxborn/tmp/boot.sh")))
     mod 1000000000) = -861169608 /\
  stl_signed_appid Sample.Tuxborn Sample.boot_sh
    <> stl_signed_appid_low32 Sample.Tuxborn Sample.boot_sh.
Proof.
  split; [vm_compute; reflexivity|]. split; [vm_compute; reflexivity|].
  split; [vm_compute; reflexivity|]. vm_compute. discriminate.
Qed.


(* ===================================================================== *)
(** * C3, C4, C9: launch handle, result tuple, prefix directory *)
(* ===================================================================== *)

Section Handles.

(** [launch_shortcut_to_trigger_prefix] hands the client the handle built
    from the unsigned identifier. *)
Lemma launch_shortcut_handle (initial_appid : Z) (w : world) :
  launched (fst (launch_shortcut_to_trigger_prefix initial_appid w))
  = launched w
    ++ [rungameid_url
          (Z.lor (Z.shiftl (generate_steam_short_id initial_appid) 32)
                 0x02000000)].
Proof. reflexivity. Qed.

Lemma lor_marker_sign (x : Z) :
  (0 <= Z.lor (Z.shiftl x 32) 0x02000000 <-> 0 <= x).
Proof.
  rewrite Z.lor_nonneg, Z.shiftl_nonneg. split; [tauto | intros; split; lia].
Qed.

(** For a negative identifier the two handles differ: the one of
    [run_complete_workflow] is negative, the other is not. *)
Lemma handles_differ (initial_appid : Z) :
  initial_appid < 0 ->
  workflow_rungameid initial_appid < 0 <= launch_rungameid initial_appid.
Proof.
  intros H. unfold workflow_rungameid, launch_rungameid, generate_steam_short_id.
  split.
  - apply Z.nle_gt. rewrite lor_marker_sign. lia.
  - apply lor_marker_sign. rewrite land_mask32.
    apply Z.mod_pos_bound. lia.
Qed.

End Handles.

Section WorkflowLaunch.

Lemma set_proton_keeps_launched appid pv w :
  launched (fst (set_proton_version_for_shortcut appid pv w)) = launched w.
Proof.
  unfold set_proton_version_for_shortcut, run.
  destruct (config_vdf w) as [| |c]; simpl; try reflexivity.
  unfold bind, lift. destruct (assign_compat_tool appid pv c); [|reflexivity].
  unfold ret, write_config. destruct (encodes_text t); reflexivity.
Qed.

Lemma create_keeps_launched env name exe dir w :
  launched (fst (create_shortcut_directly_with_proton env name exe dir w))
  = launched w.
Proof.
  unfold create_shortcut_directly_with_proton, run, bind, get_shortcuts_vdf.
  destruct (shortcuts_vdf w) as [| |sd] eqn:Hw; [reflexivity| |];
    unfold lift;
    (destruct (checksum_appid exe name) as [appid|]; [|reflexivity]);
    unfold write_batch_file;
    (destruct (batch_writable env); [|reflexivity]);
    unfold binary_load, ret; cbn [shortcuts_vdf]; rewrite Hw.
  - reflexivity.
  - cbv beta iota.
    match goal with
    | |- context [binary_dump ?x ?w0] =>
        destruct (binary_dump_frame x w0) as [f Hf];
        destruct (binary_dump x w0) as [w1 [[]|]]
    end; cbn [fst] in Hf; subst w1; [|reflexivity].
    match goal with
    | |- context [set_proton_version_for_shortcut ?a ?p ?w0] =>
        pose proof (set_proton_keeps_launched a p w0) as K;
        destruct (set_proton_version_for_shortcut a p w0) as [w2 ok]
    end.
    cbn [fst] in *. exact K.
Qed.

Lemma replace_keeps_launched name exe dir w :
  launched (fst (replace_shortcut_with_final_exe name exe dir w)) = launched w.
Proof.
  unfold replace_shortcut_with_final_exe, run, bind, get_shortcuts_vdf.
  destruct (shortcuts_vdf w) as [| |sd] eqn:Hw; [reflexivity| |];
    unfold binary_load; rewrite Hw; [reflexivity|].
  destruct (update_named _ _ _ _ _) as [[|] l]; [|reflexivity].
  cbn [negb].
  match goal with
  | |- context [binary_dump ?x ?w0] =>
      destruct (binary_dump_frame x w0) as [f Hf];
      destruct (binary_dump x w0) as [w1 [[]|]]
  end; cbn [fst] in Hf; subst w1; reflexivity.
Qed.

Lemma verify_and_finish_keeps_launched env name dir exe id w :
  launched (fst (verify_and_finish env name dir exe id w)) = launched w.
Proof.
  unfold verify_and_finish.
  destruct (path_exists env _); [|reflexivity]. cbn [negb].
  unfold bind, call.
  pose proof (replace_keeps_launched name exe dir w) as K.
  destruct (replace_shortcut_with_final_exe name exe dir w) as [w' [|]];
    cbn [fst negb] in *; [|exact K].
  destruct (inventory_appid env name) as [a|]; [|exact K].
  destruct (get_compatdata_path_for_appid env a) as [p|]; [|exact K].
  destruct (path_exists env p); [|exact K].
  destruct (prefix_verified env p); exact K.
Qed.

(** Whatever [run_complete_workflow] hands to the client is the handle it
    built from the signed identifier. *)
Lemma workflow_launches env name dir exe w :
  launched (fst (run_complete_workflow env name dir exe w)) = launched w \/
  exists initial_appid,
    checksum_appid exe name = Some initial_appid /\
    launched (fst (run_complete_workflow env name dir exe w))
    = launched w ++ [rungameid_url (workflow_rungameid initial_appid)].
Proof.
  unfold run_complete_workflow, run, bind, call.
  pose proof (create_keeps_launched env name exe dir w) as K.
  destruct (create_shortcut_directly_with_proton env name exe dir w)
    as [w1 [|]]; cbn [fst negb] in *; [|left; exact K].
  unfold lift. destruct (checksum_appid exe name) as [a|];
    [|left; exact K].
  unfold ret. cbv beta iota.
  destruct (restart_result env); cbn [negb]; [|left; exact K].
  unfold record_launch. right. exists a. split; [reflexivity|].
  rewrite <- K.
  destruct (steam_launch env _) as [code| |]; [| |reflexivity].
  - destruct (code =? 0); cbn [negb]; [|reflexivity].
    match goal with
    | |- context [verify_and_finish ?e ?n ?d ?x ?i ?w'] =>
        pose proof (verify_and_finish_keeps_launched e n d x i w') as L;
        destruct (verify_and_finish e n d x i w') as [w2 [r|]]
    end; exact L.
  - match goal with
    | |- context [verify_and_finish ?e ?n ?d ?x ?i ?w'] =>
        pose proof (verify_and_finish_keeps_launched e n d x i w') as L;
        destruct (verify_and_finish e n d x i w') as [w2 [r|]]
    end; exact L.
Qed.

End WorkflowLaunch.

(** C3, at the failing input: [run_complete_workflow] for "Tuxborn" with
    "/tmp/boot.sh" derives the identifier -1953115905 and hands the client
    [(initial_appid << 32) | 0x02000000] = -8388568937238888448, built from
    the SIGNED identifier, where the claimed handle, the one
    [launch_shortcut_to_trigger_prefix] builds from the unsigned
    identifier 2341851391, is 10058175136470663168. *)
Theorem C3_workflow_handle_from_signed :
  checksum_appid Sample.boot_sh Sample.Tuxborn = Some (-1953115905) /\
  launched (fst (run_complete_workflow Sample.env Sample.Tuxborn Sample.tmp
                   Sample.boot_sh (Sample.world_of [])))
    = [rungameid_url (-8388568937238888448)] /\
  generate_steam_short_id (-1953115905) = 2341851391 /\
  Z.lor (Z.shiftl 2341851391 32) 0x02000000 = 10058175136470663168 /\
  launched (fst (launch_shortcut_to_trigger_prefix (-1953115905)
                   (Sample.world_of [])))
    = [rungameid_url 10058175136470663168].
Proof. repeat split; vm_compute; reflexivity. Qed.

Section Workflow.

Lemma verify_and_finish_shape env name dir exe id w :
  let r := snd (verify_and_finish env name dir exe id w) in
  r = Some failure \/
  exists prefix_path actual_appid,
    r = Some [PyBool true; PyPath prefix_path; PyInt actual_appid].
Proof.
  unfold verify_and_finish.
  destruct (path_exists env _); simpl; [|left; reflexivity].
  unfold bind, call.
  destruct (replace_shortcut_with_final_exe name exe dir w) as [w' [|]];
    simpl; [|left; reflexivity].
  destruct (inventory_appid env name) as [a|]; [|left; reflexivity].
  destruct (get_compatdata_path_for_appid env a) as [p|]; [|left; reflexivity].
  destruct (path_exists env p); simpl; [|left; reflexivity].
  destruct (prefix_verified env p); simpl; [|left; reflexivity].
  right. eauto.
Qed.

(** Every return of [run_complete_workflow]: the four-component failure
    tuple, or the three-component success tuple. *)
Lemma workflow_result_shape env name dir exe w :
  let r := snd (run_complete_workflow env name dir exe w) in
  r = failure \/
  exists prefix_path actual_appid,
    r = [PyBool true; PyPath prefix_path; PyInt actual_appid].
Proof.
  pose proof (verify_and_finish_shape env name dir exe) as K.
  unfold run_complete_workflow, run, bind, call.
  destruct (create_shortcut_directly_with_proton env name exe dir w)
    as [w1 [|]]; simpl; [|left; reflexivity].
  unfold lift. destruct (checksum_appid exe name) as [a|]; simpl;
    [|left; reflexivity].
  destruct (restart_result env); cbn [negb]; [|left; reflexivity].
  unfold record_launch.
  destruct (steam_launch env _) as [code| |]; [| |left; reflexivity].
  - destruct (code =? 0); cbn [negb]; [|left; reflexivity].
    match goal with
    | |- context [verify_and_finish ?e ?n ?d ?x ?i ?w'] =>
        specialize (K i w');
        destruct (verify_and_finish e n d x i w') as [w2 [r|]]
    end; simpl in *.
    + destruct K as [K|(p & a' & K)]; [left | right; exists p, a']; congruence.
    + left; reflexivity.
  - match goal with
    | |- context [verify_and_finish ?e ?n ?d ?x ?i ?w'] =>
        specialize (K i w');
        destruct (verify_and_finish e n d x i w') as [w2 [r|]]
    end; simpl in *.
    + destruct K as [K|(p & a' & K)]; [left | right; exists p, a']; congruence.
    + left; reflexivity.
Qed.

End Workflow.

(** C4, at the failing input: when the expected prefix directory does not
    appear, [run_complete_workflow] returns [(False, None, None, None)], a
    tuple of FOUR components, not the three its signature and docstring
    announce; and every failing return of the workflow has this shape. *)
Theorem C4_failure_tuple_has_four_components :
  snd (run_complete_workflow Sample.env Sample.Tuxborn Sample.tmp
         Sample.boot_sh (Sample.world_of []))
    = [PyBool false; PyNone; PyNone; PyNone] /\
  List.length (snd (run_complete_workflow Sample.env Sample.Tuxborn Sample.tmp
                      Sample.boot_sh (Sample.world_of []))) = 4%nat /\
  forall env name dir exe w,
    hd PyNone (snd (run_complete_workflow env name dir exe w)) = PyBool false ->
    List.length (snd (run_complete_workflow env name dir exe w)) = 4%nat.
Proof.
  split; [vm_compute; reflexivity|]. split; [vm_compute; reflexivity|].
  intros env name dir exe w H.
  destruct (workflow_result_shape env name dir exe w) as [K|(p & a & K)];
    rewrite K in *; [reflexivity | discriminate H].
Qed.

(** When the prefix directory does not appear, the store is as step 1 left
    it: nothing after the failed check writes it. Step 1 itself has
    written the checksum identifier into the entry, also over another
    identifier that an entry of that name had before. *)
Example workflow_failure_store :
  stored (fst (run_complete_workflow Sample.env Sample.Tuxborn Sample.tmp
                 Sample.boot_sh (Sample.world_of Sample.old_tuxborn)))
  = stored (fst (create_shortcut_directly_with_proton Sample.env Sample.Tuxborn
                   Sample.boot_sh Sample.tmp (Sample.world_of Sample.old_tuxborn))) /\
  map (Dict.get appid_key) (Dict.values Sample.old_tuxborn) = [Some (VInt 42)] /\
  map (Dict.get appid_key)
      (Dict.values (stored (fst (run_complete_workflow Sample.env Sample.Tuxborn
                                   Sample.tmp Sample.boot_sh
                                   (Sample.world_of Sample.old_tuxborn)))))
  = [Some (VInt (-1953115905))].
Proof. repeat split; vm_compute; reflexivity. Qed.

Section PrefixKey.

Lemma short_id_nonneg (appid : Z) :
  0 <= appid < 2 ^ 32 -> generate_steam_short_id appid = appid.
Proof.
  intros H. unfold generate_steam_short_id. rewrite land_mask32.
  apply Z.mod_small. exact H.
Qed.

Lemma short_id_negative (appid : Z) :
  - 2 ^ 32 <= appid < 0 -> generate_steam_short_id appid = appid + 2 ^ 32.
Proof.
  intros H. unfold generate_steam_short_id. rewrite land_mask32.
  rewrite <- (Z.mod_add appid 1 (2 ^ 32)) by lia.
  apply Z.mod_small. lia.
Qed.

End PrefixKey.

(** C9, amended. For every signed 32-bit identifier, the prefix directory
    is named by the decimal string of the ABSOLUTE VALUE of the identifier
    ([get_prefix_path] looks up exactly that directory). That key is the
    unsigned 32-bit form [signed & 0xFFFFFFFF] only for a non-negative
    identifier (and for -2^31): for a negative identifier the absolute
    value and the unsigned form add up to 2^32. *)
Theorem C9_prefix_keyed_by_absolute_value (env : externals) (appid : Z) :
  - 2 ^ 31 <= appid < 2 ^ 31 ->
  prefix_dir_name appid = str_of_Z (Z.abs appid) /\
  (forall p, get_prefix_path env appid = Some p ->
             p = (home env ++ lit "/.steam/steam/steamapps/compatdata")
                   ++ lit "/" ++ str_of_Z (Z.abs appid)) /\
  (0 <= appid -> Z.abs appid = generate_steam_short_id appid) /\
  (appid < 0 -> Z.abs appid + generate_steam_short_id appid = 2 ^ 32) /\
  (prefix_dir_name appid = str_of_Z (generate_steam_short_id appid)
   <-> 0 <= appid \/ appid = - 2 ^ 31).
Proof.
  intros H. split; [reflexivity|]. split.
  { intros p. unfold get_prefix_path.
    destruct (path_exists env _); [|discriminate].
    intros [= <-]. reflexivity. }
  split; [intros H0; rewrite short_id_nonneg by lia; lia|].
  split; [intros H0; rewrite short_id_negative by lia; lia|].
  unfold prefix_dir_name. split.
  - intros E. apply str_of_Z_inj in E.
    destruct (Z.lt_ge_cases appid 0) as [Hn|Hp]; [|left; exact Hp].
    rewrite short_id_negative in E by lia. right. lia.
  - intros [Hp|Hm].
    + rewrite short_id_nonneg by lia. f_equal. lia.
    + subst appid. reflexivity.
Qed.

Lemma C9_witness :
  - 2 ^ 31 <= -1953115905 < 2 ^ 31 /\
  prefix_dir_name (-1953115905) = lit "1953115905" /\
  Z.abs (-1953115905) + generate_steam_short_id (-1953115905) = 2 ^ 32.
Proof.
  split; [lia|].
  destruct (C9_prefix_keyed_by_absolute_value Sample.env (-1953115905)
              ltac:(lia)) as (H1 & _ & _ & H2 & _).
  split; [exact H1 | apply H2; lia].
Defined.

(** C9 as stated fails: the identifier derived for "Tuxborn" with
    "/tmp/boot.sh" is -1953115905; its prefix directory is "1953115905",
    while its unsigned 32-bit form is 2341851391. *)
Lemma C9_counterexample :
  checksum_appid Sample.boot_sh Sample.Tuxborn = Some (-1953115905) /\
  prefix_dir_name (-1953115905) = lit "1953115905" /\
  str_of_Z (generate_steam_short_id (-1953115905)) = lit "2341851391" /\
  prefix_dir_name (-1953115905)
    <> str_of_Z (generate_steam_short_id (-1953115905)).
Proof.
  repeat split; try (vm_compute; reflexivity). vm_compute. discriminate.
Qed.

(* ===================================================================== *)
(** * C7: create-or-update *)
(* ===================================================================== *)

Section Upsert.
Variables (env : externals) (name : pystr).

Lemma filter_named_retouch (appid : Z) (l : list entry) :
  List.length (filter (named name)
                 (map (retouch name (bootstrap_fields env appid)) l))
  = List.length (filter (named name) l).
Proof.
  induction l as [|s l IH]; [reflexivity|]. simpl.
  rewrite named_retouch_bootstrap. destruct (named name s); simpl; auto.
Qed.

Lemma existsb_named_count (l : list entry) :
  existsb (named name) l = negb (List.length (filter (named name) l) =? 0)%nat.
Proof.
  induction l as [|s l IH]; [reflexivity|]. simpl.
  destruct (named name s); simpl; auto.
Qed.

Lemma count_upsert (appid : Z) (st : store) :
  count_named name (upsert env name appid st)
  = Nat.max 1 (count_named name st).
Proof.
  unfold count_named. rewrite values_upsert, filter_app, length_app.
  rewrite filter_named_retouch, existsb_named_count.
  destruct (List.length (filter (named name) (Dict.values st))) as [|n]; simpl.
  - rewrite named_new_shortcut. reflexivity.
  - lia.
Qed.



Lemma bootstrapped_update (appid : Z) (s : entry) :
  bootstrapped env appid (Dict.update s (bootstrap_fields env appid)).
Proof.
  unfold bootstrapped, bootstrap_fields, Dict.update. cbn [fold_left fst snd].
  repeat split; rewrite !get_set; reflexivity.
Qed.

Lemma bootstrapped_upsert (appid : Z) (st : store) (s : entry) :
  In s (Dict.values (upsert env name appid st)) ->
  named name s = true -> bootstrapped env appid s.
Proof.
  rewrite values_upsert. intros Hin Hn.
  apply in_app_or in Hin. destruct Hin as [Hin|Hin].
  - apply in_map_iff in Hin. destruct Hin as [s0 [<- _]].
    rewrite named_retouch_bootstrap in Hn. unfold retouch. rewrite Hn.
    apply bootstrapped_update.
  - destruct (existsb _ _); [contradiction|]. destruct Hin as [<-|[]].
    unfold bootstrapped. repeat split; reflexivity.
Qed.

End Upsert.




(* ===================================================================== *)
(** * C10: the keys of a rebuilt store *)
(* ===================================================================== *)

Section SequentialKeys.

Lemma sequential_reindex (l : list entry) : sequential_keys (reindex l).
Proof. unfold sequential_keys. rewrite keys_reindex, length_reindex. reflexivity. Qed.

Lemma sequential_upsert env name appid st :
  sequential_keys (upsert env name appid st).
Proof. apply keys_upsert. Qed.

Lemma keys_length {V : Type} (d : Dict.t V) :
  List.length (Dict.keys d) = List.length d.
Proof. unfold Dict.keys. apply length_map. Qed.

Lemma sequential_wf (st : store) : sequential_keys st -> Dict.wf st.
Proof.
  unfold sequential_keys, Dict.wf. intros ->.
  generalize (seq_NoDup (List.length st) 0). generalize (seq 0 (List.length st)).
  induction l as [|i l IH]; intros H; [constructor|].
  inversion H as [|? ? Hi Hl]; subst. cbn [map]. constructor; [|auto].
  intros Hin. apply in_map_iff in Hin. destruct Hin as [j [Hj Hin]].
  apply str_of_nat_inj in Hj. subst j. contradiction.
Qed.

Lemma rebuild_sequential (st : store) (remove : list pystr) (indices : list nat) :
  forall (acc : store) (k : nat) (st' : store),
    Dict.keys acc = map str_of_nat (seq 0 k) ->
    rebuild_without st remove indices acc k = Some st' ->
    sequential_keys st'.
Proof.
  induction indices as [|i rest IH]; intros acc k st' Hk H; simpl in H.
  - injection H as <-. unfold sequential_keys. rewrite Hk.
    rewrite <- (keys_length acc), Hk, length_map, length_seq. reflexivity.
  - destruct (existsb (eqb (str_of_nat i)) remove); [eapply IH; eassumption|].
    destruct (by_index st i) as [s|]; [|discriminate].
    eapply IH; [|exact H].
    rewrite set_fresh.
    + unfold Dict.keys in *. rewrite map_app, Hk, seq_S, map_app. reflexivity.
    + rewrite Hk. intros Hin. apply in_map_iff in Hin.
      destruct Hin as [j [Hj Hin]]. apply str_of_nat_inj in Hj. subst j.
      apply in_seq in Hin. lia.
Qed.

Lemma get_combine_seq (vs : list entry) :
  forall (m i : nat) (v : entry),
    nth_error vs i = Some v ->
    Dict.get (str_of_nat (m + i))
      (combine (map str_of_nat (seq m (List.length vs))) vs) = Some v.
Proof.
  induction vs as [|x vs IH]; intros m i v H; [destruct i; discriminate|].
  destruct i as [|i]; simpl in *.
  - rewrite Nat.add_0_r, eqb_refl. exact H.
  - destruct (eqb (str_of_nat (m + S i)) (str_of_nat m)) eqn:E.
    + apply eqb_eq, str_of_nat_inj in E. lia.
    + replace (m + S i)%nat with (S m + i)%nat by lia. apply IH. exact H.
Qed.

Lemma combine_keys_values {V : Type} (d : Dict.t V) :
  combine (Dict.keys d) (Dict.values d) = d.
Proof.
  induction d as [|[k v] d IH]; [reflexivity|]. simpl. f_equal. exact IH.
Qed.

(** On a store with sequential keys the readers' loop
    [for i in range(len(shortcuts)): shortcuts[str(i)]] meets every
    entry, in order, and never raises [KeyError]. *)
Lemma by_index_sequential (st : store) :
  sequential_keys st ->
  forall i s, nth_error (Dict.values st) i = Some s -> by_index st i = Some s.
Proof.
  intros Hk i s H. unfold by_index.
  rewrite <- (combine_keys_values st) at 1. rewrite Hk.
  replace (List.length st) with (List.length (Dict.values st))
    by (unfold Dict.values; apply length_map).
  apply (get_combine_seq _ 0 i s H).
Qed.

Lemma set_proton_keeps_writes appid pv w :
  store_writes (fst (set_proton_version_for_shortcut appid pv w))
  = store_writes w.
Proof.
  unfold set_proton_version_for_shortcut, run.
  destruct (config_vdf w) as [| |c]; simpl; try reflexivity.
  unfold bind, lift. destruct (assign_compat_tool appid pv c); [|reflexivity].
  unfold ret, write_config. destruct (encodes_text t); reflexivity.
Qed.

(** An operation either leaves [shortcuts.vdf] unwritten or writes a
    store with sequential keys. *)
Lemma create_writes_sequential env name exe dir w sd :
  shortcuts_vdf w = Loaded sd ->
  holds_data sd = true ->
  holds_str name = true ->
  holds_str (home env) = true ->
  let w' := fst (create_shortcut_directly_with_proton env name exe dir w) in
  store_writes w' = store_writes w \/
  (exists sd', shortcuts_vdf w' = Loaded sd') /\ sequential_keys (stored w').
Proof.
  intros Hw Hsd Hn Hh.
  destruct (checksum_appid exe name) as [appid|] eqn:Ha.
  - destruct (batch_writable env) eqn:Hb.
    + right. unfold stored.
      rewrite (create_store _ _ _ _ _ _ _ Hw Hsd Hn Hh Ha Hb).
      split; [eauto|]. apply sequential_upsert.
    + left.
      unfold create_shortcut_directly_with_proton, run, bind, get_shortcuts_vdf.
      rewrite Hw. unfold lift. rewrite Ha.
      unfold write_batch_file. rewrite Hb. reflexivity.
  - left.
    unfold create_shortcut_directly_with_proton, run, bind, get_shortcuts_vdf.
    rewrite Hw. unfold lift. rewrite Ha. reflexivity.
Qed.

Lemma replace_writes_sequential name exe dir w sd :
  shortcuts_vdf w = Loaded sd ->
  holds_data sd = true ->
  holds_str exe = true ->
  holds_str dir = true ->
  let w' := fst (replace_shortcut_with_final_exe name exe dir w) in
  store_writes w' = store_writes w \/
  (exists sd', shortcuts_vdf w' = Loaded sd') /\ sequential_keys (stored w').
Proof.
  intros Hw Hsd He Hd.
  unfold replace_shortcut_with_final_exe, run, bind, get_shortcuts_vdf.
  rewrite Hw. unfold binary_load. rewrite Hw.
  rewrite update_named_spec. cbn [app orb].
  destruct (existsb _ _); cbn [negb]; [|left; reflexivity].
  rewrite binary_dump_holds.
  - right. unfold stored. cbn -[reindex].
    split; [eauto|]. apply sequential_reindex.
  - apply data_all_with_shortcuts; [exact Hsd|]. apply holds_reindex.
    apply holds_retouch; [apply holds_final_fields; assumption|].
    apply store_all_values, data_all_shortcuts_of. exact Hsd.
Qed.

Lemma cleanup_writes_sequential name w sd :
  shortcuts_vdf w = Loaded sd ->
  holds_data sd = true ->
  let w' := fst (cleanup_old_batch_shortcuts name w) in
  store_writes w' = store_writes w \/
  (exists sd', shortcuts_vdf w' = Loaded sd') /\ sequential_keys (stored w').
Proof.
  intros Hw Hsd.
  unfold cleanup_old_batch_shortcuts, run, bind, get_shortcuts_vdf.
  rewrite Hw. unfold binary_load. rewrite Hw.
  unfold lift.
  destruct (mark_old_batch_shortcuts _ _ _ _) as [[|r rs]|];
    [left; reflexivity| |left; reflexivity].
  unfold ret, raise. cbv beta iota.
  destruct (rebuild_without (shortcuts_of sd) (r :: rs)
              (seq 0 (List.length (shortcuts_of sd))) [] 0)
    as [st'|] eqn:R; [|left; reflexivity].
  rewrite binary_dump_holds.
  - right. unfold stored. cbn -[rebuild_without].
    split; [eauto|].
    eapply rebuild_sequential; [|exact R]. reflexivity.
  - apply data_all_with_shortcuts; [exact Hsd|].
    exact (holds_rebuild _ _ _ (data_all_shortcuts_of _ _ _ Hsd) [] 0%nat st'
             eq_refl R).
Qed.

End SequentialKeys.

(** C10, amended. Whenever create-or-update, retarget-to-final-exe or
    cleanup writes [shortcuts.vdf], and the binary format holds what is
    dumped (the keys and strings of the store read and the strings of the
    call encode in UTF-8 and have no U+0000, the integers fit 32 bits),
    the file decodes afterwards and the keys of the collection it holds are
    exactly ["0"], ["1"], ..., ["n-1"] for its [n] entries, in this order
    and without repetition; on such a store the readers' loop over
    [shortcuts[str(i)]], [i] in [range(len(shortcuts))], meets every entry
    and never fails. *)
Theorem C10_written_store_has_sequential_keys
    (op : store_op) (w : world) (sd : shortcuts_data) :
  shortcuts_vdf w = Loaded sd ->
  holds_data sd = true ->
  op_holds op = true ->
  let w' := fst (apply_op op w) in
  store_writes w' <> store_writes w ->
  (exists sd', shortcuts_vdf w' = Loaded sd') /\
  Dict.keys (stored w') = map str_of_nat (seq 0 (List.length (stored w'))) /\
  Dict.wf (stored w') /\
  (forall i s, nth_error (Dict.values (stored w')) i = Some s ->
               by_index (stored w') i = Some s).
Proof.
  intros Hw Hsd Hop w' Hwr.
  assert (H : (exists sd', shortcuts_vdf w' = Loaded sd')
              /\ sequential_keys (stored w')).
  { subst w'. destruct op as [env n e d|n e d|n]; simpl in *.
    - apply andb_true_iff in Hop. destruct Hop as [Hn Hh].
      destruct (create_writes_sequential env n e d w sd Hw Hsd Hn Hh);
        [contradiction|assumption].
    - apply andb_true_iff in Hop. destruct Hop as [He Hd].
      destruct (replace_writes_sequential n e d w sd Hw Hsd He Hd);
        [contradiction|assumption].
    - destruct (cleanup_writes_sequential n w sd Hw Hsd);
        [contradiction|assumption]. }
  destruct H as [H1 H2]. split; [exact H1|]. split; [exact H2|].
  split; [apply sequential_wf; exact H2|].
  apply by_index_sequential. exact H2.
Qed.

(** The three operations at work: create-or-update appends "Tuxborn" to a
    store that holds "Foo"; retargeting rewrites the two entries of "Foo";
    cleanup removes the old bootstrap entry under ["0"], and the entry that
    stood under ["1"] is written under ["0"]. *)
Lemma C10_witness :
  Dict.keys (stored (fst (apply_op (OpCreate Sample.env Sample.Tuxborn
                                      Sample.boot_sh Sample.tmp)
                            (Sample.world_of Sample.one_foo))))
    = [lit "0"; lit "1"] /\
  Dict.keys (stored (fst (apply_op (OpReplace Sample.Foo Sample.real_exe
                                      Sample.real_dir)
                            (Sample.world_of Sample.two_foo))))
    = [lit "0"; lit "1"] /\
  Dict.get (lit "1") Scenario.batch_then_foo
    = Some (Sample.foo_entry (quoted (lit "/a/Foo.exe")) (-11)) /\
  Dict.get (lit "0")
    (stored (fst (apply_op (OpCleanup Sample.Foo)
                    (Sample.world_of Scenario.batch_then_foo))))
    = Some (Sample.foo_entry (quoted (lit "/a/Foo.exe")) (-11)) /\
  Dict.keys (stored (fst (apply_op (OpCleanup Sample.Foo)
                            (Sample.world_of Scenario.batch_then_foo))))
    = [lit "0"].
Proof.
  split; [|split; [|split; [reflexivity|split; [reflexivity|]]]].
  - destruct (C10_written_store_has_sequential_keys
                (OpCreate Sample.env Sample.Tuxborn Sample.boot_sh Sample.tmp)
                (Sample.world_of Sample.one_foo)
                {| sd_shortcuts := Some Sample.one_foo; sd_rest := [] |}
                eq_refl eq_refl eq_refl)
      as (_ & K & _ & _); [vm_compute; discriminate|].
    rewrite K. vm_compute. reflexivity.
  - destruct (C10_written_store_has_sequential_keys
                (OpReplace Sample.Foo Sample.real_exe Sample.real_dir)
                (Sample.world_of Sample.two_foo)
                {| sd_shortcuts := Some Sample.two_foo; sd_rest := [] |}
                eq_refl eq_refl eq_refl)
      as (_ & K & _ & _); [vm_compute; discriminate|].
    rewrite K. vm_compute. reflexivity.
  - destruct (C10_written_store_has_sequential_keys
                (OpCleanup Sample.Foo)
                (Sample.world_of Scenario.batch_then_foo)
                {| sd_shortcuts := Some Scenario.batch_then_foo; sd_rest := [] |}
                eq_refl eq_refl eq_refl)
      as (_ & K & _ & _); [vm_compute; discriminate|].
    rewrite K. vm_compute. reflexivity.
Defined.

(** C10 as stated fails for a name the binary format does not hold:
    create-or-update for the name made of "a", U+0000 and "b" writes
    [shortcuts.vdf], the dump ends the name with a zero byte, and the
    decoder, which takes the U+0000 for that end, finds the byte of "b"
    where the type of the next field belongs: the file no longer decodes,
    and no reader finds a collection in it. *)
Lemma C10_counterexample :
  holds_str Scenario.nul_name = false /\
  store_writes (fst (apply_op (OpCreate Sample.env Scenario.nul_name
                                 Sample.boot_sh Sample.tmp)
                       (Sample.world_of []))) = 1%nat /\
  shortcuts_vdf (fst (apply_op (OpCreate Sample.env Scenario.nul_name
                                  Sample.boot_sh Sample.tmp)
                        (Sample.world_of []))) = Unreadable.
Proof. repeat split; vm_compute; reflexivity. Qed.

(* ===================================================================== *)
(** * C8: conflict detection *)
(* ===================================================================== *)

Section Conflicts.
Variables (name exe dir : pystr).



Lemma skipn_cons_inv {A : Type} (l : list A) :
  forall m x l', skipn m l = x :: l' ->
                 nth_error l m = Some x /\ skipn (S m) l = l'.
Proof.
  induction l as [|y l IH]; intros m x l' H.
  - destruct m; discriminate.
  - destruct m as [|m]; simpl in *.
    + injection H as -> ->. auto.
    + apply IH. exact H.
Qed.





End Conflicts.




(* ===================================================================== *)
(** * C5: retargeting the bootstrap entry *)
(* ===================================================================== *)

Section Retarget.
Variables (name final_exe final_dir : pystr).


Lemma set_combine_seq (v : entry) (vs : list entry) :
  forall m i,
    (i < List.length vs)%nat ->
    Dict.set (str_of_nat (m + i)) v
      (combine (map str_of_nat (seq m (List.length vs))) vs)
    = combine (map str_of_nat (seq m (List.length vs)))
              (firstn i vs ++ v :: skipn (S i) vs).
Proof.
  induction vs as [|x vs IH]; intros m i Hi; [simpl in Hi; lia|].
  destruct i as [|i]; cbn [List.length seq map combine Dict.set firstn skipn app].
  - rewrite Nat.add_0_r, eqb_refl. reflexivity.
  - destruct (eqb (str_of_nat (m + S i)) (str_of_nat m)) eqn:E.
    + apply eqb_eq, str_of_nat_inj in E. lia.
    + f_equal. replace (m + S i)%nat with (S m + i)%nat by lia.
      apply IH. simpl in Hi. lia.
Qed.

Lemma set_at_index (st : store) (i : nat) (v : entry) :
  sequential_keys st -> (i < List.length st)%nat ->
  Dict.keys (Dict.set (str_of_nat i) v st) = Dict.keys st /\
  Dict.values (Dict.set (str_of_nat i) v st)
  = firstn i (Dict.values st) ++ v :: skipn (S i) (Dict.values st).
Proof.
  intros Hseq Hi.
  assert (Hlen : List.length (Dict.values st) = List.length st)
    by (unfold Dict.values; apply length_map).
  assert (E : Dict.set (str_of_nat i) v st
              = combine (Dict.keys st)
                  (firstn i (Dict.values st) ++ v :: skipn (S i) (Dict.values st))).
  { rewrite <- (combine_keys_values st) at 1. rewrite Hseq, <- Hlen.
    apply (set_combine_seq v (Dict.values st) 0 i). lia. }
  assert (L : List.length (firstn i (Dict.values st) ++ v :: skipn (S i) (Dict.values st))
              = List.length (Dict.keys st)).
  { rewrite length_app, length_firstn. cbn [List.length].
    rewrite length_skipn, keys_length. lia. }
  rewrite E. clear E. revert L.
  generalize (firstn i (Dict.values st) ++ v :: skipn (S i) (Dict.values st)).
  generalize (Dict.keys st).
  induction l as [|k ks IH]; intros [|x xs] L; try discriminate L.
  - auto.
  - injection L as L. destruct (IH xs L) as [H1 H2].
    unfold Dict.keys, Dict.values in *. simpl. rewrite H1, H2. auto.
Qed.



End Retarget.




(* ===================================================================== *)
(** * C6: patching the compatibility mapping *)
(* ===================================================================== *)

Section Patch.

Lemma find_line_none (p : pystr -> bool) (l : list pystr) :
  forall i, (forall line, In line l -> p line = false) -> find_line p l i = None.
Proof.
  induction l as [|x l IH]; intros i H; [reflexivity|]. simpl.
  rewrite (H x (or_introl eq_refl)). apply IH. intros line Hin.
  apply H. right. exact Hin.
Qed.

Lemma find_block_end_bounds (l : list pystr) :
  forall j c e, find_block_end l j c = Some e ->
                (j <= e < j + List.length l)%nat.
Proof.
  induction l as [|x l IH]; intros j c e H; [discriminate|]. simpl in H.
  destruct (contains close_brace x).
  - destruct (_ =? 0).
    + injection H as <-. simpl. lia.
    + apply IH in H. simpl. lia.
  - apply IH in H. simpl. lia.
Qed.

Lemma in_slice (l : list pystr) (a b : nat) (line : pystr) :
  In line (slice a b l) ->
  exists k, (a <= k < b)%nat /\ nth_error l k = Some line.
Proof.
  unfold slice. intros H. apply In_nth_error in H. destruct H as [n Hn].
  rewrite nth_error_firstn in Hn.
  destruct (n <? b - a)%nat eqn:E; [|discriminate].
  apply Nat.ltb_lt in E. rewrite List.nth_error_skipn in Hn.
  exists (a + n)%nat. split; [lia|exact Hn].
Qed.

Lemma nth_error_insert {A : Type} (l : list A) (e : nat) (x : A) :
  (e <= List.length l)%nat ->
  (forall k, (k < e)%nat ->
             nth_error (firstn e l ++ [x] ++ skipn e l) k = nth_error l k) /\
  nth_error (firstn e l ++ [x] ++ skipn e l) e = Some x /\
  (forall k, (e <= k)%nat ->
             nth_error (firstn e l ++ [x] ++ skipn e l) (S k) = nth_error l k).
Proof.
  intros He.
  assert (Lf : List.length (firstn e l) = e) by (rewrite length_firstn; lia).
  repeat split.
  - intros k Hk. rewrite nth_error_app1 by lia.
    rewrite nth_error_firstn. apply Nat.ltb_lt in Hk. rewrite Hk. reflexivity.
  - rewrite nth_error_app2 by lia. rewrite Lf, Nat.sub_diag. reflexivity.
  - intros k Hk. rewrite nth_error_app2 by lia. rewrite Lf.
    replace (S k - e)%nat with (S (k - e)) by lia. cbn [app nth_error].
    rewrite List.nth_error_skipn. f_equal. lia.
Qed.

End Patch.

(** The patch when it finds no line for the identifier. The header of the
    section is found on line [s], the brace scan that starts on the line
    after it ends on line [e], and none of the lines [s..e] contains the
    quoted new identifier, whether as a key or as a value: the patch
    succeeds and inserts the block of the new identifier, with the
    requested layer name, as line [e]; the lines before it are as they were
    read and at their place, and the lines from [e] on follow unchanged.
    In the layout the client writes, with the opening brace of the section
    on a line of its own, [e] is the line of the closing brace of the
    section; the scan does not count a brace on the header line, and then
    ends at the first closing brace after it. *)
Lemma patch_inserts_at_scan_end
    (lines : list pystr) (unsigned_appid : Z) (compat_tool : pystr) (s e : nat) :
  find_line (fun line => contains section_token (strip line)) lines 0 = Some s ->
  find_block_end (skipn (S s) lines) (S s) 0 = Some e ->
  (forall k line, (s <= k <= e)%nat -> nth_error lines k = Some line ->
                  contains (appid_token unsigned_appid) line = false) ->
  let block := List.concat (new_entry_lines unsigned_appid compat_tool) in
  exists lines',
    patch_compat_mapping unsigned_appid compat_tool lines = Some lines' /\
    (s < e < List.length lines)%nat /\
    (forall k, (k < e)%nat -> nth_error lines' k = nth_error lines k) /\
    nth_error lines' e = Some block /\
    (forall k, (e <= k)%nat -> nth_error lines' (S k) = nth_error lines k) /\
    List.concat lines'
    = List.concat (firstn e lines) ++ block ++ List.concat (skipn e lines) /\
    nth_error (new_entry_lines unsigned_appid compat_tool) 0
    = Some (tabs 9 ++ quoted (str_of_Z unsigned_appid) ++ newline) /\
    nth_error (new_entry_lines unsigned_appid compat_tool) 2
    = Some (tabs 10 ++ quoted (lit "name") ++ tabs 4 ++ quoted compat_tool
              ++ newline).
Proof.
  intros Hs He Hnew block.
  pose proof (find_block_end_bounds _ _ _ _ He) as B.
  rewrite length_skipn in B.
  assert (Hlt : (s < e < List.length lines)%nat) by lia.
  exists (firstn e lines ++ [block] ++ skipn e lines).
  split.
  { unfold patch_compat_mapping. rewrite Hs, He.
    rewrite find_line_none; [reflexivity|].
    intros line Hin. apply in_slice in Hin. destruct Hin as (k & Hk & Hn).
    apply (Hnew k line); [lia|exact Hn]. }
  split; [exact Hlt|].
  destruct (nth_error_insert lines e block ltac:(lia)) as (H1 & H2 & H3).
  split; [exact H1|]. split; [exact H2|]. split; [exact H3|].
  split.
  { rewrite !concat_app. cbn [List.concat]. rewrite app_nil_r. reflexivity. }
  split; reflexivity.
Qed.

(** The scenario of the specification: the file holds an entry for 123,
    an entry for 456 is patched in. *)
Lemma patch_inserts_456 :
  patch_compat_mapping 456 proton_experimental Sample.config_lines
  = Some (firstn 10 Sample.config_lines
            ++ [List.concat (new_entry_lines 456 proton_experimental)]
            ++ skipn 10 Sample.config_lines) /\
  (forall k, (k < 10)%nat ->
     nth_error (firstn 10 Sample.config_lines
                  ++ [List.concat (new_entry_lines 456 proton_experimental)]
                  ++ skipn 10 Sample.config_lines) k
     = nth_error Sample.config_lines k).
Proof.
  destruct (patch_inserts_at_scan_end Sample.config_lines 456
              proton_experimental 2 10 eq_refl eq_refl) as (l' & H1 & _ & H2 & _).
  - intros k line Hk Hn.
    assert (In k (seq 2 9)) as Hin by (apply in_seq; lia).
    cbn [seq In] in Hin.
    repeat (destruct Hin as [<-|Hin];
            [cbn [nth_error Sample.config_lines] in Hn; injection Hn as <-;
             vm_compute; reflexivity|]).
    contradiction.
  - assert (E : l' = firstn 10 Sample.config_lines
                   ++ [List.concat (new_entry_lines 456 proton_experimental)]
                   ++ skipn 10 Sample.config_lines).
    { assert (P : patch_compat_mapping 456 proton_experimental Sample.config_lines
                  = Some (firstn 10 Sample.config_lines
                            ++ [List.concat (new_entry_lines 456 proton_experimental)]
                            ++ skipn 10 Sample.config_lines))
        by (vm_compute; reflexivity).
      congruence. }
    subst l'. split; [exact H1 | exact H2].
Defined.

(** C6, at the failing inputs. The first is the file of the scenario, in
    the layout the client writes, and the new identifier 250. No line of
    the file is the key of an entry for 250, but the quoted number occurs
    as the priority VALUE of the entry for 123. The search for an existing
    entry of 250 stops at that line; the scan for the end of that supposed
    entry meets the two closing braces without an opening one and finds
    none; the deletion [del lines[appid_entry_start:appid_entry_end + 1]]
    then adds 1 to [None], and the [TypeError] is swallowed by the method's
    handler: nothing is written and no block for 250 appears. For 456,
    which occurs nowhere, the block is inserted before the closing brace
    of the section.

    The second is the same file with the opening brace of the section on
    the line of its header. The scan for the end of the section starts on
    the next line and does not count that brace: it ends at the closing
    brace of the entry for 123, and the block of 456 is inserted before
    that brace, inside the block of 123. *)
Theorem C6_patch_failing_inputs :
  find_line (fun line => contains section_token (strip line))
            Sample.config_lines 0 = Some 2%nat /\
  find_block_end (skipn 3 Sample.config_lines) 3 0 = Some 10%nat /\
  nth_error Sample.config_lines 4
    = Some (tabs 2 ++ quoted (lit "123") ++ newline) /\
  (forall line, In line Sample.config_lines ->
                startswith (strip line) (appid_token 250) = false) /\
  find_line (contains (appid_token 250)) (slice 2 11 Sample.config_lines) 2
    = Some 8%nat /\
  nth_error Sample.config_lines 8
    = Some (tabs 3 ++ quoted (lit "priority") ++ tabs 2 ++ quoted (lit "250")
              ++ newline) /\
  find_block_end (slice 9 11 Sample.config_lines) 9 0 = None /\
  patch_compat_mapping 250 proton_experimental Sample.config_lines = None /\
  patch_compat_mapping 456 proton_experimental Sample.config_lines
  = Some (firstn 10 Sample.config_lines
            ++ [List.concat (new_entry_lines 456 proton_experimental)]
            ++ skipn 10 Sample.config_lines) /\
  find_line (fun line => contains section_token (strip line))
            Scenario.brace_on_header 0 = Some 2%nat /\
  find_block_end (skipn 3 Scenario.brace_on_header) 3 0 = Some 8%nat /\
  slice 3 9 Scenario.brace_on_header = slice 4 10 Sample.config_lines /\
  nth_error Scenario.brace_on_header 8
    = Some (tabs 2 ++ close_brace ++ newline) /\
  patch_compat_mapping 456 proton_experimental Scenario.brace_on_header
  = Some (firstn 8 Scenario.brace_on_header
            ++ [List.concat (new_entry_lines 456 proton_experimental)]
            ++ skipn 8 Scenario.brace_on_header).
Proof.
  split; [reflexivity|]. split; [reflexivity|]. split; [reflexivity|].
  split.
  { intros line Hin. cbn [Sample.config_lines In] in Hin.
    repeat (destruct Hin as [<-|Hin]; [vm_compute; reflexivity|]).
    contradiction. }
  repeat split; vm_compute; reflexivity.
Qed.

(* ===================================================================== *)
(** * Signed and unsigned forms of an identifier *)
(* ===================================================================== *)

Section SignedUnsigned.

Lemma land_pow2 (u n : Z) :
  0 <= n -> Z.land u (2 ^ n) = if Z.testbit u n then 2 ^ n else 0.
Proof.
  intros Hn. apply Z.bits_inj'. intros m Hm.
  rewrite Z.land_spec, Z.pow2_bits_eqb by exact Hn.
  destruct (Z.eqb_spec n m) as [->|Hne].
  - destruct (Z.testbit u m); [|rewrite Z.bits_0; reflexivity].
    rewrite Z.pow2_bits_true by exact Hm. reflexivity.
  - rewrite andb_false_r.
    destruct (Z.testbit u n); [|rewrite Z.bits_0; reflexivity].
    rewrite Z.pow2_bits_false by exact Hne. reflexivity.
Qed.

Lemma lor_sign_bit (u : Z) :
  0 <= u < 2 ^ 32 -> Z.lor u 0x80000000 = 2 ^ 31 + u mod 2 ^ 31.
Proof.
  intros Hu.
  pose proof (Z.add_lor_land u (2 ^ 31)) as H.
  change 0x80000000 with (2 ^ 31).
  rewrite land_pow2 in H by lia.
  pose proof (Z.testbit_spec' u 31 ltac:(lia)) as Hb.
  pose proof (Z.div_mod u (2 ^ 31) ltac:(lia)) as Hd.
  pose proof (Z.mod_pos_bound u (2 ^ 31) ltac:(lia)) as Hr.
  assert (Hq : 0 <= u / 2 ^ 31 < 2).
  { split; [apply Z.div_pos; lia|apply Z.div_lt_upper_bound; lia]. }
  destruct (Z.testbit u 31); cbn [Z.b2z] in Hb.
  - assert (u / 2 ^ 31 = 1).
    { assert (u / 2 ^ 31 = 0 \/ u / 2 ^ 31 = 1) as [E|E] by lia;
        rewrite E in Hb; [discriminate Hb|exact E]. }
    lia.
  - assert (u / 2 ^ 31 = 0).
    { assert (u / 2 ^ 31 = 0 \/ u / 2 ^ 31 = 1) as [E|E] by lia;
        rewrite E in Hb; [exact E|discriminate Hb]. }
    lia.
Qed.

Lemma c_int32_high (x : Z) : 2 ^ 31 <= x < 2 ^ 32 -> c_int32 x = x - 2 ^ 32.
Proof.
  intros H. unfold c_int32.
  rewrite <- (Z.mod_add (x + 2 ^ 31) (-1) (2 ^ 32)) by lia.
  rewrite Z.mod_small by lia. lia.
Qed.

Lemma localconfig_signed_appid_spec (u : Z) :
  0 <= u < 2 ^ 32 -> localconfig_signed_appid u = u mod 2 ^ 31 - 2 ^ 31.
Proof.
  intros Hu. unfold localconfig_signed_appid.
  rewrite land_mask32, lor_sign_bit by exact Hu.
  pose proof (Z.mod_pos_bound u (2 ^ 31) ltac:(lia)) as Hr.
  rewrite Z.mod_small by lia.
  rewrite c_int32_high by lia. lia.
Qed.

Lemma stl_signed_appid_range name exe s :
  stl_signed_appid name exe = Some s -> - 1000000000 < s <= 0.
Proof.
  unfold stl_signed_appid.
  destruct (encode_utf8 (name ++ exe)); [|discriminate].
  cbv zeta. destruct (Hashlib.int16 _); [|discriminate].
  intros [= <-]. pose proof (Z.mod_pos_bound z 1000000000). lia.
Qed.

Lemma to_signed_short_id (s : Z) :
  - 2 ^ 31 <= s < 0 -> to_signed_appid (generate_steam_short_id s) = s.
Proof.
  intros H. rewrite short_id_negative by lia. unfold to_signed_appid.
  destruct (Z.gtb_spec (s + 2 ^ 32) 0x7FFFFFFF); lia.
Qed.

Lemma localconfig_signed_short_id (s : Z) :
  - 2 ^ 31 <= s < 0 ->
  localconfig_signed_appid (generate_steam_short_id s) = s.
Proof.
  intros Hs.
  rewrite short_id_negative by lia.
  rewrite localconfig_signed_appid_spec by lia.
  rewrite <- (Z.mod_add (s + 2 ^ 32) (-1) (2 ^ 31)) by lia.
  rewrite Z.mod_small by lia. lia.
Qed.

End SignedUnsigned.

(** X1. The key under which step 2 of
    [set_compatibility_tool_complete_stl_style] files a shortcut in
    [localconfig.vdf]: given the unsigned form of a negative 32-bit
    identifier, it is that identifier again. *)
Theorem localconfig_key_is_the_signed_identifier (s : Z) :
  - 2 ^ 31 <= s < 0 ->
  localconfig_signed_appid (generate_steam_short_id s) = s.
Proof.
  intros Hs. unfold localconfig_signed_appid.
  rewrite short_id_negative by lia.
  rewrite land_mask32, lor_sign_bit by lia.
  assert (Hm : (s + 2 ^ 32) mod 2 ^ 31 = s + 2 ^ 31).
  { rewrite <- (Z.mod_add (s + 2 ^ 32) (-1) (2 ^ 31)) by lia.
    rewrite Z.mod_small by lia. lia. }
  rewrite Hm, Z.mod_small by lia.
  rewrite c_int32_high by lia. lia.
Qed.

Lemma localconfig_key_witness :
  - 2 ^ 31 <= -1953115905 < 0 /\
  localconfig_signed_appid (generate_steam_short_id (-1953115905))
  = -1953115905.
Proof.
  split; [lia|].
  apply (localconfig_key_is_the_signed_identifier (-1953115905)). lia.
Defined.

(** X2. For every unsigned 32-bit identifier the [localconfig.vdf] key is
    negative and within 32 bits, and it converts back to the identifier
    exactly when bit 31 of the identifier is set: an identifier below
    [2^31] is filed under a key that stands for another identifier. *)
Theorem localconfig_key_forces_the_sign_bit (u : Z) :
  0 <= u < 2 ^ 32 ->
  - 2 ^ 31 <= localconfig_signed_appid u < 0 /\
  (generate_steam_short_id (localconfig_signed_appid u) = u <-> 2 ^ 31 <= u).
Proof.
  intros Hu. rewrite localconfig_signed_appid_spec by exact Hu.
  pose proof (Z.mod_pos_bound u (2 ^ 31) ltac:(lia)) as Hr.
  split; [lia|].
  rewrite short_id_negative by lia.
  pose proof (Z.div_mod u (2 ^ 31) ltac:(lia)) as Hd.
  assert (Hq : 0 <= u / 2 ^ 31 < 2).
  { split; [apply Z.div_pos; lia|apply Z.div_lt_upper_bound; lia]. }
  split; intros H; nia.
Qed.

Lemma localconfig_key_sign_bit_witness :
  0 <= 5 < 2 ^ 32 /\
  (- 2 ^ 31 <= localconfig_signed_appid 5 < 0 /\
   (generate_steam_short_id (localconfig_signed_appid 5) = 5 <-> 2 ^ 31 <= 5)).
Proof.
  split; [lia|]. apply (localconfig_key_forces_the_sign_bit 5). lia.
Defined.

(* ===================================================================== *)
(** * The two MD5-based creators *)
(* ===================================================================== *)

Section Md5Identifiers.

Lemma direct_appid_of_bytes name exe bytes :
  encode_utf8 (name ++ exe) = Some bytes ->
  direct_appid name exe
  = Some (- ((digest_value (Hashlib.md5 bytes) / 2 ^ 96) mod 2 ^ 31)).
Proof.
  intros Henc. rewrite encode_utf8_app in Henc. unfold direct_appid.
  destruct (encode_utf8 name) as [bn|]; [|discriminate].
  destruct (encode_utf8 exe) as [be|]; [|discriminate].
  injection Henc as <-. unfold Hashlib.hexdigest.
  rewrite seed_of_digest by (apply md5_bytes || apply md5_length).
  rewrite land_mask31. reflexivity.
Qed.

Lemma stl_signed_appid_of_bytes name exe bytes :
  encode_utf8 (name ++ exe) = Some bytes ->
  stl_signed_appid name exe
  = Some (- ((digest_value (Hashlib.md5 bytes) / 2 ^ 96) mod 1000000000)).
Proof.
  intros Henc. unfold stl_signed_appid. rewrite Henc. unfold Hashlib.hexdigest.
  rewrite seed_of_digest by (apply md5_bytes || apply md5_length). reflexivity.
Qed.

Lemma predicted_nonzero name exe p :
  predict_appid_using_stl_algorithm name exe = Some p -> p <> 0 ->
  exists s, stl_signed_appid name exe = Some s /\ - 1000000000 < s < 0 /\
            p = generate_steam_short_id s.
Proof.
  unfold predict_appid_using_stl_algorithm.
  destruct (stl_signed_appid name exe) as [s|] eqn:E; [|discriminate].
  intros [= <-] Hp. exists s. pose proof (stl_signed_appid_range _ _ _ E).
  split; [reflexivity|]. split; [|reflexivity].
  assert (s <> 0) by (intros ->; apply Hp; reflexivity). lia.
Qed.

End Md5Identifiers.

(** X3. [create_shortcut_directly] and the STL prediction hash the same
    bytes (the encoded name followed by the encoded path) and take the same
    leading 32 bits of the MD5 digest; they differ only in the reduction:
    the former masks to 31 bits, the latter reduces modulo one billion.
    Both identifiers are non-positive and above [-2^31]. *)
Theorem md5_creators_share_the_seed (shortcut_name exe_path : pystr)
    (bytes : list Z) :
  encode_utf8 (shortcut_name ++ exe_path) = Some bytes ->
  let seed := digest_value (Hashlib.md5 bytes) / 2 ^ 96 in
  0 <= seed < 2 ^ 32 /\
  direct_appid shortcut_name exe_path = Some (- (seed mod 2 ^ 31)) /\
  stl_signed_appid shortcut_name exe_path = Some (- (seed mod 1000000000)) /\
  - 2 ^ 31 < - (seed mod 2 ^ 31) <= 0 /\
  - 2 ^ 31 < - (seed mod 1000000000) <= 0.
Proof.
  intros Henc seed.
  pose proof (digest_value_range _ (md5_bytes bytes)) as R.
  rewrite md5_length in R. change (256 ^ Z.of_nat 16) with (2 ^ 128) in R.
  split.
  { subst seed. split; [apply Z.div_pos; lia|].
    apply Z.div_lt_upper_bound; lia. }
  split; [apply direct_appid_of_bytes; exact Henc|].
  split; [apply stl_signed_appid_of_bytes; exact Henc|].
  pose proof (Z.mod_pos_bound seed (2 ^ 31) ltac:(lia)).
  pose proof (Z.mod_pos_bound seed 1000000000 ltac:(lia)). lia.
Qed.

Lemma md5_creators_witness :
  encode_utf8 (Sample.Tuxborn ++ Sample.boot_sh)
    = Some (lit "Tuxborn/tmp/boot.sh") /\
  direct_appid Sample.Tuxborn Sample.boot_sh = Some (-1224444330) /\
  stl_signed_appid Sample.Tuxborn Sample.boot_sh = Some (-371927978).
Proof.
  split; [reflexivity|].
  pose proof (md5_creators_share_the_seed Sample.Tuxborn Sample.boot_sh
                (lit "Tuxborn/tmp/boot.sh") eq_refl) as H.
  cbv zeta in H. destruct H as (_ & Hd & Hs & _).
  split.
  - rewrite Hd. vm_compute. reflexivity.
  - rewrite Hs. vm_compute. reflexivity.
Defined.

(** X4. Whenever the STL prediction yields a non-zero identifier, the
    conversion of [create_shortcut_with_stl_algorithm] gives back the
    signed identifier of step 3 of the prediction, which is negative; its
    unsigned form is the predicted identifier, and the [localconfig.vdf]
    key computed from the predicted identifier is the same signed number. *)
Theorem stl_stored_identifier_round_trip (shortcut_name exe_path : pystr)
    (predicted_appid : Z) :
  predict_appid_using_stl_algorithm shortcut_name exe_path
    = Some predicted_appid ->
  predicted_appid <> 0 ->
  let signed_appid := to_signed_appid predicted_appid in
  stl_signed_appid shortcut_name exe_path = Some signed_appid /\
  signed_appid < 0 /\
  generate_steam_short_id signed_appid = predicted_appid /\
  localconfig_signed_appid predicted_appid = signed_appid.
Proof.
  intros Hp Hnz signed_appid.
  destruct (predicted_nonzero _ _ _ Hp Hnz) as (s & Hs & Hr & ->).
  subst signed_appid. rewrite to_signed_short_id by lia.
  split; [exact Hs|]. split; [lia|]. split; [reflexivity|].
  apply localconfig_signed_short_id. lia.
Qed.

Lemma stl_stored_identifier_witness :
  predict_appid_using_stl_algorithm Sample.Tuxborn Sample.boot_sh
    = Some 3923039318 /\
  3923039318 <> 0 /\
  to_signed_appid 3923039318 = -371927978 /\
  localconfig_signed_appid 3923039318 = -371927978.
Proof.
  assert (Hp : predict_appid_using_stl_algorithm Sample.Tuxborn Sample.boot_sh
               = Some 3923039318) by (vm_compute; reflexivity).
  assert (Hnz : 3923039318 <> 0) by lia.
  split; [exact Hp|]. split; [exact Hnz|].
  pose proof (stl_stored_identifier_round_trip _ _ _ Hp Hnz) as H.
  cbv zeta in H. destruct H as (_ & _ & _ & Hl).
  split; [reflexivity|exact Hl].
Defined.

(* ===================================================================== *)
(** * The creators that append *)
(* ===================================================================== *)

Section Append.

Lemma set_next_index (st : store) (e : entry) :
  sequential_keys st ->
  Dict.set (str_of_nat (List.length st)) e st
  = st ++ [(str_of_nat (List.length st), e)].
Proof.
  intros H. apply set_fresh. rewrite H. intros Hin.
  apply in_map_iff in Hin. destruct Hin as [j [Hj Hin]].
  apply str_of_nat_inj in Hj. subst j. apply in_seq in Hin. lia.
Qed.

Lemma sequential_snoc (st : store) (e : entry) :
  sequential_keys st ->
  sequential_keys (st ++ [(str_of_nat (List.length st), e)]).
Proof.
  unfold sequential_keys, Dict.keys. intros H.
  rewrite map_app, length_app. cbn [List.length map fst].
  rewrite Nat.add_1_r, seq_S, map_app, <- H. reflexivity.
Qed.

Lemma create_directly_true name exe dir w w' :
  create_shortcut_directly name exe dir w = (w', true) ->
  exists sd appid,
    shortcuts_vdf w = Loaded sd /\ direct_appid name exe = Some appid /\
    binary_dump (append_shortcut sd (direct_shortcut name exe dir appid)) w
    = (w', Some tt).
Proof.
  unfold create_shortcut_directly, run, bind, get_shortcuts_vdf, binary_load.
  destruct (shortcuts_vdf w) as [| |sd] eqn:Hw; unfold ret, raise, lift;
    cbv beta iota; try rewrite Hw; try discriminate.
  destruct (direct_appid name exe) as [appid|]; unfold ret, raise;
    cbv beta iota; [|discriminate].
  destruct (binary_dump _ w) as [w1 [[]|]] eqn:Hd; [|discriminate].
  intros [= <-]. exists sd, appid. auto.
Qed.

Lemma create_stl_true name exe dir w w' :
  create_shortcut_with_stl_algorithm name exe dir w = (w', true) ->
  exists sd p,
    shortcuts_vdf w = Loaded sd /\
    predict_appid_using_stl_algorithm name exe = Some p /\ p <> 0 /\
    binary_dump (append_shortcut sd
                   (stl_shortcut name exe dir (to_signed_appid p))) w
    = (w', Some tt).
Proof.
  unfold create_shortcut_with_stl_algorithm, run, bind, get_shortcuts_vdf,
    binary_load.
  destruct (shortcuts_vdf w) as [| |sd] eqn:Hw; unfold ret, raise;
    cbv beta iota; try rewrite Hw; try discriminate.
  destruct (predict_appid_using_stl_algorithm name exe) as [p|];
    [|discriminate].
  destruct (Z.eqb_spec p 0) as [->|Hp]; [discriminate|].
  cbv beta iota zeta.
  destruct (binary_dump _ w) as [w1 [[]|]] eqn:Hd; [|discriminate].
  intros [= <-]. exists sd, p. auto.
Qed.

Lemma stored_after_append sd st e w :
  sd_shortcuts sd = Some st ->
  stored (store_written (Loaded (append_shortcut sd e)) w)
  = Dict.set (str_of_nat (List.length st)) e st.
Proof.
  intros H. unfold stored, store_written, append_shortcut.
  cbn [fst shortcuts_vdf]. rewrite H. reflexivity.
Qed.

(** A dump of data that the format holds, once it has returned, has left
    the file with that data. *)
Lemma dump_held sd w w' :
  holds_data sd = true ->
  binary_dump sd w = (w', Some tt) -> w' = store_written (Loaded sd) w.
Proof. intros H. rewrite binary_dump_holds by exact H. congruence. Qed.

Lemma holds_append sd e :
  holds_data sd = true -> holds_entry e = true ->
  holds_data (append_shortcut sd e) = true.
Proof.
  intros Hsd He. unfold append_shortcut.
  destruct (sd_shortcuts sd) as [st|] eqn:E; [|exact Hsd].
  apply data_all_with_shortcuts; [exact Hsd|].
  apply store_all_set; [apply holds_str_of_nat|exact He|].
  unfold holds_data, data_all in Hsd. rewrite E in Hsd.
  apply andb_true_iff in Hsd. tauto.
Qed.

Lemma holds_direct_shortcut name exe dir appid :
  holds_str name = true -> holds_str exe = true -> holds_str dir = true ->
  int32 appid = true ->
  holds_entry (direct_shortcut name exe dir appid) = true.
Proof.
  intros Hn He Hd Ha. unfold holds_entry, direct_shortcut.
  rewrite dict_all_forallb. cbn [forallb fst snd value_all].
  rewrite Hn, (holds_str_quoted exe He), (holds_str_quoted dir Hd), Ha.
  reflexivity.
Qed.

Lemma holds_stl_shortcut name exe dir appid :
  holds_str name = true -> holds_str exe = true -> holds_str dir = true ->
  int32 appid = true ->
  holds_entry (stl_shortcut name exe dir appid) = true.
Proof.
  intros Hn He Hd Ha. unfold holds_entry, stl_shortcut.
  rewrite dict_all_forallb. cbn [forallb fst snd value_all].
  rewrite Hn, (holds_str_quoted exe He), (holds_str_quoted dir Hd), Ha.
  reflexivity.
Qed.

Lemma int32_range (z : Z) : - 2 ^ 31 <= z < 2 ^ 31 -> int32 z = true.
Proof.
  intros H. unfold int32. apply andb_true_iff.
  split; [apply Z.leb_le|apply Z.ltb_lt]; lia.
Qed.

Lemma direct_appid_int32 name exe appid :
  direct_appid name exe = Some appid -> int32 appid = true.
Proof.
  unfold direct_appid.
  destruct (encode_utf8 name); [|discriminate].
  destruct (encode_utf8 exe); [|discriminate].
  destruct (Hashlib.int16 _) as [h|]; [|discriminate].
  intros [= <-]. apply int32_range. rewrite land_mask31.
  pose proof (Z.mod_pos_bound h (2 ^ 31)). lia.
Qed.

Lemma count_named_snoc name (st : store) k (e : entry) :
  count_named name (st ++ [(k, e)])
  = (count_named name st + if named name e then 1 else 0)%nat.
Proof.
  unfold count_named, Dict.values. rewrite map_app, filter_app, length_app.
  cbn [map snd filter]. destruct (named name e); reflexivity.
Qed.

End Append.

(** X5. On a store with sequential keys that the binary format holds,
    and for a name and paths it holds (UTF-8 encodable, without U+0000),
    [create_shortcut_directly] that returns [True] has appended exactly one
    entry: the entries it found
    are all kept, in their order, the new one follows them, the keys are
    still sequential, and the number of entries with the name has grown by
    one, whether or not the name was already there. *)
Theorem create_shortcut_directly_appends
    (shortcut_name exe_path modlist_install_dir : pystr) (w w' : world)
    (sd : shortcuts_data) (st : store) :
  shortcuts_vdf w = Loaded sd ->
  holds_data sd = true ->
  holds_str shortcut_name = true ->
  holds_str exe_path = true ->
  holds_str modlist_install_dir = true ->
  sd_shortcuts sd = Some st ->
  sequential_keys st ->
  create_shortcut_directly shortcut_name exe_path modlist_install_dir w
    = (w', true) ->
  exists appid,
    direct_appid shortcut_name exe_path = Some appid /\
    Dict.values (stored w')
    = Dict.values st
        ++ [direct_shortcut shortcut_name exe_path modlist_install_dir appid] /\
    sequential_keys (stored w') /\
    count_named shortcut_name (stored w') = S (count_named shortcut_name st) /\
    store_writes w' = S (store_writes w).
Proof.
  intros Hw Hh Hn He Hd Hsd Hseq Hrun.
  destruct (create_directly_true _ _ _ _ _ Hrun) as (sd' & appid & Hw' & Ha & Hdump).
  assert (sd' = sd) by congruence. subst sd'. exists appid.
  apply dump_held in Hdump;
    [|apply holds_append; [exact Hh|];
      apply holds_direct_shortcut; eauto using direct_appid_int32].
  subst w'.
  rewrite (stored_after_append sd st _ w Hsd), set_next_index by exact Hseq.
  split; [exact Ha|]. split.
  { unfold Dict.values. rewrite map_app. reflexivity. }
  split; [apply sequential_snoc; exact Hseq|]. split.
  { rewrite count_named_snoc.
    replace (named shortcut_name (direct_shortcut _ _ _ _)) with true.
    - lia.
    - unfold named, direct_shortcut. cbn. symmetry. apply eqb_refl. }
  reflexivity.
Qed.

Lemma create_shortcut_directly_appends_witness :
  exists appid,
    Dict.values (stored (fst (create_shortcut_directly Sample.Foo
                                Sample.real_exe Sample.real_dir
                                (Sample.world_of Sample.one_foo))))
    = Dict.values Sample.one_foo
        ++ [direct_shortcut Sample.Foo Sample.real_exe Sample.real_dir appid].
Proof.
  destruct (create_shortcut_directly Sample.Foo Sample.real_exe Sample.real_dir
              (Sample.world_of Sample.one_foo)) as [w' b] eqn:E.
  assert (Hb : b = true) by (apply (f_equal snd) in E; vm_compute in E; congruence).
  subst b.
  destruct (create_shortcut_directly_appends Sample.Foo Sample.real_exe
              Sample.real_dir (Sample.world_of Sample.one_foo) w'
              {| sd_shortcuts := Some Sample.one_foo; sd_rest := [] |}
              Sample.one_foo eq_refl eq_refl eq_refl eq_refl eq_refl eq_refl
              (sequential_reindex _) E)
    as (appid & _ & Hv & _).
  exists appid. exact Hv.
Defined.

(** X6. When the decoded file has no ['shortcuts'] key (and the binary
    format holds its other content), [create_shortcut_directly] that
    returns [True] has rewritten the file with the data it read: the new
    entry is not in it. *)
Theorem create_shortcut_directly_loses_entry_without_key
    (shortcut_name exe_path modlist_install_dir : pystr) (w w' : world)
    (sd : shortcuts_data) :
  shortcuts_vdf w = Loaded sd ->
  holds_data sd = true ->
  sd_shortcuts sd = None ->
  create_shortcut_directly shortcut_name exe_path modlist_install_dir w
    = (w', true) ->
  shortcuts_vdf w' = Loaded sd /\ stored w' = [] /\
  store_writes w' = S (store_writes w).
Proof.
  intros Hw Hh Hsd Hrun.
  destruct (create_directly_true _ _ _ _ _ Hrun) as (sd' & appid & Hw' & Ha & Hdump).
  assert (sd' = sd) by congruence. subst sd'.
  assert (E : append_shortcut sd
                (direct_shortcut shortcut_name exe_path modlist_install_dir appid)
              = sd) by (unfold append_shortcut; rewrite Hsd; reflexivity).
  rewrite E in Hdump. apply dump_held in Hdump; [subst w'|exact Hh].
  unfold stored, store_written, shortcuts_of.
  cbn [shortcuts_vdf store_writes]. rewrite Hsd. auto.
Qed.

Lemma create_shortcut_directly_loses_entry_witness :
  create_shortcut_directly Sample.Foo Sample.real_exe Sample.real_dir
    Scenario.no_shortcuts_key
  = (store_written (Loaded {| sd_shortcuts := None; sd_rest := [] |})
       Scenario.no_shortcuts_key, true) /\
  stored (fst (create_shortcut_directly Sample.Foo Sample.real_exe
                 Sample.real_dir Scenario.no_shortcuts_key)) = [].
Proof.
  assert (E : create_shortcut_directly Sample.Foo Sample.real_exe Sample.real_dir
                Scenario.no_shortcuts_key
              = (store_written (Loaded {| sd_shortcuts := None; sd_rest := [] |})
                   Scenario.no_shortcuts_key, true))
    by (vm_compute; reflexivity).
  split; [exact E|].
  rewrite E.
  apply (create_shortcut_directly_loses_entry_without_key Sample.Foo
           Sample.real_exe Sample.real_dir Scenario.no_shortcuts_key _
           {| sd_shortcuts := None; sd_rest := [] |} eq_refl eq_refl eq_refl E).
Defined.

(** X7. When the key [str(len(shortcuts))] is already taken, which needs
    a store whose keys are not sequential, [create_shortcut_directly] that
    returns [True] for a store, a name and paths that the binary format
    holds has overwritten the entry under that key: the store has
    as many entries as before, and the entry that was under the key is
    replaced by the new one. *)
Theorem create_shortcut_directly_overwrites_taken_index
    (shortcut_name exe_path modlist_install_dir : pystr) (w w' : world)
    (sd : shortcuts_data) (st : store) (old : entry) :
  shortcuts_vdf w = Loaded sd ->
  holds_data sd = true ->
  holds_str shortcut_name = true ->
  holds_str exe_path = true ->
  holds_str modlist_install_dir = true ->
  sd_shortcuts sd = Some st ->
  by_index st (List.length st) = Some old ->
  create_shortcut_directly shortcut_name exe_path modlist_install_dir w
    = (w', true) ->
  exists appid,
    direct_appid shortcut_name exe_path = Some appid /\
    Dict.keys (stored w') = Dict.keys st /\
    by_index (stored w') (List.length st)
    = Some (direct_shortcut shortcut_name exe_path modlist_install_dir appid).
Proof.
  intros Hw Hh Hn He Hd Hsd Hold Hrun.
  destruct (create_directly_true _ _ _ _ _ Hrun) as (sd' & appid & Hw' & Ha & Hdump).
  assert (sd' = sd) by congruence. subst sd'. exists appid.
  apply dump_held in Hdump;
    [|apply holds_append; [exact Hh|];
      apply holds_direct_shortcut; eauto using direct_appid_int32].
  subst w'.
  rewrite (stored_after_append sd st _ w Hsd).
  split; [exact Ha|]. split.
  - apply keys_set_present.
    destruct (in_dec (list_eq_dec Z.eq_dec) (str_of_nat (List.length st))
                (Dict.keys st)) as [Hin|Hout]; [exact Hin|].
    apply get_None_not_in in Hout. unfold by_index in Hold. congruence.
  - unfold by_index. rewrite get_set, eqb_refl. reflexivity.
Qed.

Lemma create_shortcut_directly_overwrites_witness :
  exists appid,
    Dict.keys (stored (fst (create_shortcut_directly Sample.Tuxborn
                              Sample.boot_sh Sample.tmp
                              (Sample.world_of Sample.gapped))))
    = Dict.keys Sample.gapped /\
    by_index (stored (fst (create_shortcut_directly Sample.Tuxborn
                             Sample.boot_sh Sample.tmp
                             (Sample.world_of Sample.gapped)))) 1
    = Some (direct_shortcut Sample.Tuxborn Sample.boot_sh Sample.tmp appid).
Proof.
  destruct (create_shortcut_directly Sample.Tuxborn Sample.boot_sh Sample.tmp
              (Sample.world_of Sample.gapped)) as [w' b] eqn:E.
  assert (Hb : b = true) by (apply (f_equal snd) in E; vm_compute in E; congruence).
  subst b.
  destruct (create_shortcut_directly_overwrites_taken_index Sample.Tuxborn
              Sample.boot_sh Sample.tmp (Sample.world_of Sample.gapped) w'
              {| sd_shortcuts := Some Sample.gapped; sd_rest := [] |}
              Sample.gapped
              (Sample.foo_entry (quoted (lit "/a/Foo.exe")) (-11))
              eq_refl eq_refl eq_refl eq_refl eq_refl eq_refl eq_refl E)
    as (appid & _ & Hk & Hg).
  exists appid. split; [exact Hk|exact Hg].
Defined.

(** X8. [create_shortcut_with_stl_algorithm] that returns [True] on a
    store with sequential keys, for a store, a name and paths that the
    binary format holds, has appended one entry whose [appid] is the
    signed identifier of the STL prediction, a negative number, and the
    keys are still sequential. *)
Theorem create_shortcut_with_stl_algorithm_stores_signed
    (shortcut_name exe_path start_dir : pystr) (w w' : world)
    (sd : shortcuts_data) (st : store) :
  shortcuts_vdf w = Loaded sd ->
  holds_data sd = true ->
  holds_str shortcut_name = true ->
  holds_str exe_path = true ->
  holds_str start_dir = true ->
  sd_shortcuts sd = Some st ->
  sequential_keys st ->
  create_shortcut_with_stl_algorithm shortcut_name exe_path start_dir w
    = (w', true) ->
  exists signed_appid,
    stl_signed_appid shortcut_name exe_path = Some signed_appid /\
    signed_appid < 0 /\
    Dict.values (stored w')
    = Dict.values st
        ++ [stl_shortcut shortcut_name exe_path start_dir signed_appid] /\
    sequential_keys (stored w').
Proof.
  intros Hw Hh Hn He Hd Hsd Hseq Hrun.
  destruct (create_stl_true _ _ _ _ _ Hrun) as (sd' & p & Hw' & Hp & Hnz & Hdump).
  assert (sd' = sd) by congruence. subst sd'.
  destruct (predicted_nonzero _ _ _ Hp Hnz) as (s & Hs & Hr & ->).
  exists s. rewrite to_signed_short_id in Hdump by lia.
  apply dump_held in Hdump;
    [|apply holds_append; [exact Hh|];
      apply holds_stl_shortcut; auto; apply int32_range; lia].
  subst w'.
  rewrite (stored_after_append sd st _ w Hsd), set_next_index by exact Hseq.
  split; [exact Hs|]. split; [lia|]. split.
  - unfold Dict.values. rewrite map_app. reflexivity.
  - apply sequential_snoc. exact Hseq.
Qed.

Lemma create_shortcut_with_stl_algorithm_witness :
  Dict.values (stored (fst (create_shortcut_with_stl_algorithm Sample.Tuxborn
                              Sample.boot_sh Sample.tmp
                              (Sample.world_of Sample.one_foo))))
  = Dict.values Sample.one_foo
      ++ [stl_shortcut Sample.Tuxborn Sample.boot_sh Sample.tmp (-371927978)].
Proof.
  destruct (create_shortcut_with_stl_algorithm Sample.Tuxborn Sample.boot_sh
              Sample.tmp (Sample.world_of Sample.one_foo)) as [w' b] eqn:E.
  assert (Hb : b = true) by (apply (f_equal snd) in E; vm_compute in E; congruence).
  subst b.
  destruct (create_shortcut_with_stl_algorithm_stores_signed Sample.Tuxborn
              Sample.boot_sh Sample.tmp (Sample.world_of Sample.one_foo) w'
              {| sd_shortcuts := Some Sample.one_foo; sd_rest := [] |}
              Sample.one_foo eq_refl eq_refl eq_refl eq_refl eq_refl eq_refl
              (sequential_reindex _) E)
    as (s & Hs & _ & Hv & _).
  assert (s = -371927978).
  { assert (K : stl_signed_appid Sample.Tuxborn Sample.boot_sh
                = Some (-371927978)) by (vm_compute; reflexivity).
    congruence. }
  subst s. exact Hv.
Defined.

(* ===================================================================== *)
(** * The methods that change the first entry with a name *)
(* ===================================================================== *)

Section FirstNamed.

Lemma by_index_values (st : store) (i : nat) (s : entry) :
  sequential_keys st -> (i < List.length st)%nat ->
  by_index st i = Some s -> nth_error (Dict.values st) i = Some s.
Proof.
  intros Hseq Hi Hb.
  destruct (nth_error (Dict.values st) i) as [s'|] eqn:E.
  - rewrite (by_index_sequential st Hseq i s' E) in Hb. exact Hb.
  - apply nth_error_None in E. unfold Dict.values in E.
    rewrite length_map in E. lia.
Qed.

Lemma find_named_found name (st : store) (i : nat) (target : entry) :
  forall indices,
    find_named name st indices = Some (Some (i, target)) ->
    exists before after,
      indices = before ++ i :: after /\
      by_index st i = Some target /\
      name_equals name target = true /\
      Forall (fun j => exists s, by_index st j = Some s /\
                                 name_equals name s = false) before.
Proof.
  induction indices as [|j rest IH]; cbn [find_named]; [discriminate|].
  destruct (by_index st j) as [s|] eqn:Hj; [|discriminate].
  fold (name_equals name s).
  destruct (name_equals name s) eqn:Hn.
  - intros [= <- <-]. exists [], rest. repeat split; auto.
  - intros H. destruct (IH H) as (before & after & -> & Hb & Ht & Hall).
    exists (j :: before), after. repeat split; auto.
    constructor; [exists s; auto|exact Hall].
Qed.

Lemma find_named_absent name (st : store) :
  forall indices,
    Forall (fun j => exists s, by_index st j = Some s /\
                               name_equals name s = false) indices ->
    find_named name st indices = Some None.
Proof.
  induction indices as [|j rest IH]; intros H; [reflexivity|].
  inversion H as [|? ? (s & Hs & Hn) Hrest]; subst.
  cbn [find_named]. rewrite Hs. fold (name_equals name s). rewrite Hn. auto.
Qed.

Lemma seq_split_at (n i : nat) (before after : list nat) :
  seq 0 n = before ++ i :: after ->
  before = seq 0 i /\ (i < n)%nat.
Proof.
  intros H.
  assert (Hl : List.length before = i).
  { assert (Hn : nth_error (seq 0 n) (List.length before) = Some i).
    { rewrite H, nth_error_app2, Nat.sub_diag by lia. reflexivity. }
    assert (Hlt : (List.length before < n)%nat).
    { apply (f_equal (@List.length nat)) in H.
      rewrite length_seq, length_app in H. cbn [List.length] in H. lia. }
    rewrite nth_error_seq in Hn.
    destruct (Nat.ltb_spec (List.length before) n); [|lia].
    injection Hn as Hn. lia. }
  assert (Hi : (i < n)%nat).
  { apply (f_equal (@List.length nat)) in H.
    rewrite length_seq, length_app in H. cbn [List.length] in H. lia. }
  split; [|exact Hi].
  assert (L : firstn i (seq 0 n) = seq 0 i).
  { replace n with (i + (n - i))%nat by lia. generalize (n - i)%nat as k.
    generalize 0%nat as a. clear. induction i as [|i IH]; intros a k;
      [reflexivity|].
    cbn [Nat.add seq firstn]. f_equal. apply IH. }
  assert (R : firstn i (before ++ i :: after) = before).
  { rewrite firstn_app, Hl, Nat.sub_diag, firstn_O, app_nil_r.
    rewrite <- Hl. apply firstn_all. }
  rewrite <- L, H. symmetry. exact R.
Qed.

Lemma change_first_named_true name change sd (st : store) w w' :
  sequential_keys st ->
  change_first_named name change sd st w = (w', Some true) ->
  exists i target,
    nth_error (Dict.values st) i = Some target /\
    name_equals name target = true /\
    (forall j s, (j < i)%nat -> nth_error (Dict.values st) j = Some s ->
                 name_equals name s = false) /\
    binary_dump (with_shortcuts sd (Dict.set (str_of_nat i) (change target) st))
                w
    = (w', Some tt).
Proof.
  intros Hseq. unfold change_first_named, bind, lift.
  destruct (find_named name st (seq 0 (List.length st))) as [[[i target]|]|] eqn:F;
    unfold ret, raise; cbv beta iota; try discriminate.
  destruct (binary_dump _ w) as [w1 [[]|]] eqn:Hd; [|discriminate].
  intros [= <-].
  destruct (find_named_found _ _ _ _ _ F) as (before & after & Hs & Hb & Hn & Hall).
  destruct (seq_split_at _ _ _ _ Hs) as [-> Hi].
  exists i, target. split; [apply by_index_values; assumption|].
  split; [exact Hn|]. split; [|exact Hd].
  intros j s Hj Hnth. rewrite Forall_forall in Hall.
  destruct (Hall j) as (s' & Hs' & Hn'); [apply in_seq; lia|].
  rewrite (by_index_sequential st Hseq j s Hnth) in Hs'. congruence.
Qed.

Lemma change_first_named_absent name change sd (st : store) w :
  sequential_keys st ->
  Forall (fun s => name_equals name s = false) (Dict.values st) ->
  change_first_named name change sd st w = (w, Some false).
Proof.
  intros Hseq Hall. unfold change_first_named, bind, lift.
  rewrite find_named_absent; [reflexivity|].
  apply Forall_forall. intros j Hj. apply in_seq in Hj.
  destruct (nth_error (Dict.values st) j) as [s|] eqn:E.
  - exists s. split; [apply by_index_sequential; assumption|].
    rewrite Forall_forall in Hall. apply Hall. eapply nth_error_In. exact E.
  - apply nth_error_None in E. unfold Dict.values in E.
    rewrite length_map in E. lia.
Qed.

Lemma apply_edit_run (edit : first_edit) w sd :
  shortcuts_vdf w = Loaded sd ->
  apply_edit edit w
  = match sd_shortcuts sd with
    | Some st =>
        run (change_first_named (edit_name edit) (edit_change edit) sd st)
            false w
    | None => (w, false)
    end.
Proof.
  intros Hw.
  destruct edit as [n|n e d|n e d]; cbn [apply_edit edit_name edit_change];
    unfold set_compatool_on_shortcut, modify_shortcut_target,
      modify_shortcut_to_batch_file, run, bind, get_shortcuts_vdf, binary_load;
    rewrite Hw; unfold ret; cbv beta iota; rewrite Hw; cbv beta iota.
  - unfold shortcuts_of. destruct (sd_shortcuts sd) as [st|]; [reflexivity|].
    reflexivity.
  - destruct (sd_shortcuts sd) as [st|]; reflexivity.
  - destruct (sd_shortcuts sd) as [st|]; reflexivity.
Qed.

Lemma name_equals_named name (s : entry) :
  name <> [] -> name_equals name s = named name s.
Proof.
  intros Hne. unfold name_equals, named, get_or_empty.
  destruct (Dict.get AppName s) as [v|]; [reflexivity|].
  cbn. destruct name; [contradiction|reflexivity].
Qed.

End FirstNamed.

Section FirstNamedEdits.

Lemma holds_edit_change (edit : first_edit) (target : entry) :
  edit_holds edit = true -> holds_entry target = true ->
  holds_entry (edit_change edit target) = true.
Proof.
  intros He Ht.
  destruct edit as [n|n e d|n e d]; cbn [edit_holds edit_change] in *.
  - apply dict_all_set; [reflexivity|reflexivity|exact Ht].
  - apply andb_true_iff in He. destruct He as [He Hd]. unfold with_target.
    repeat apply dict_all_set; try reflexivity; try assumption.
    unfold get_or_empty.
    destruct (Dict.get LaunchOptions target) as [v|] eqn:E; [|reflexivity].
    eapply dict_all_get; [exact Ht|exact E].
  - apply andb_true_iff in He. destruct He as [He Hd].
    unfold with_exe_and_start_dir.
    repeat apply dict_all_set; try reflexivity; assumption.
Qed.

Lemma apply_edit_true (edit : first_edit) w w' sd :
  shortcuts_vdf w = Loaded sd ->
  holds_data sd = true ->
  edit_holds edit = true ->
  sequential_keys (stored w) ->
  apply_edit edit w = (w', true) ->
  exists i target,
    nth_error (Dict.values (stored w)) i = Some target /\
    name_equals (edit_name edit) target = true /\
    (forall j s, (j < i)%nat -> nth_error (Dict.values (stored w)) j = Some s ->
                 name_equals (edit_name edit) s = false) /\
    w' = store_written
           (Loaded (with_shortcuts sd
                      (Dict.set (str_of_nat i) (edit_change edit target)
                                (stored w))))
           w.
Proof.
  intros Hw Hsd He Hseq. rewrite (apply_edit_run edit w sd Hw).
  pose proof (data_all_shortcuts_of _ _ _ Hsd) as Hst.
  unfold stored in *. rewrite Hw in *. unfold shortcuts_of in *.
  destruct (sd_shortcuts sd) as [st|] eqn:Est; [|discriminate].
  unfold run.
  destruct (change_first_named (edit_name edit) (edit_change edit) sd st w)
    as [w1 [b|]] eqn:E; [|discriminate].
  intros [= <- ->].
  destruct (change_first_named_true _ _ _ _ _ _ Hseq E)
    as (i & target & Hn & Ht & Hb & Hdump).
  exists i, target. split; [exact Hn|]. split; [exact Ht|]. split; [exact Hb|].
  apply dump_held; [|exact Hdump].
  apply data_all_with_shortcuts; [exact Hsd|].
  apply store_all_set; [apply holds_str_of_nat| |exact Hst].
  apply holds_edit_change; [exact He|].
  apply (holds_nth st i); assumption.
Qed.


End FirstNamedEdits.

(** X9. [set_compatool_on_shortcut] (and [_set_proton_on_shortcut], whose
    body is the same), [modify_shortcut_target] and
    [modify_shortcut_to_batch_file], when they return [True] on a store
    with sequential keys, the store and the paths given being strings that
    the binary format holds, have changed one entry only: the first one whose
    name equals the given name. Every other entry, also a later one with
    the same name, is as it was, in its place and under its key, and the
    file has been written once. *)
Theorem first_named_edit_changes_one_entry (edit : first_edit) (w w' : world)
    (sd : shortcuts_data) :
  shortcuts_vdf w = Loaded sd ->
  holds_data sd = true ->
  edit_holds edit = true ->
  sequential_keys (stored w) ->
  apply_edit edit w = (w', true) ->
  exists i target,
    nth_error (Dict.values (stored w)) i = Some target /\
    name_equals (edit_name edit) target = true /\
    (forall j s, (j < i)%nat -> nth_error (Dict.values (stored w)) j = Some s ->
                 name_equals (edit_name edit) s = false) /\
    Dict.values (stored w')
    = firstn i (Dict.values (stored w))
        ++ edit_change edit target :: skipn (S i) (Dict.values (stored w)) /\
    Dict.keys (stored w') = Dict.keys (stored w) /\
    store_writes w' = S (store_writes w).
Proof.
  intros Hw Hsd He Hseq Hrun.
  destruct (apply_edit_true edit w w' sd Hw Hsd He Hseq Hrun)
    as (i & target & Hn & Ht & Hb & ->).
  exists i, target. split; [exact Hn|]. split; [exact Ht|]. split; [exact Hb|].
  assert (Hi : (i < List.length (stored w))%nat).
  { assert (nth_error (Dict.values (stored w)) i <> None) as K by congruence.
    apply nth_error_Some in K. unfold Dict.values in K.
    rewrite length_map in K. exact K. }
  destruct (set_at_index (stored w) i (edit_change edit target) Hseq Hi)
    as [Hk Hv].
  unfold stored at 1 3. cbn [store_written shortcuts_vdf with_shortcuts
                               shortcuts_of sd_shortcuts store_writes].
  auto.
Qed.

Lemma first_named_edit_witness :
  Dict.values (stored (fst (modify_shortcut_target Sample.Foo Sample.real_exe
                              Sample.real_dir (Sample.world_of Scenario.three))))
  = [ with_target Sample.real_exe Sample.real_dir
        (Sample.foo_entry (quoted (lit "/a/Foo.exe")) (-11));
      Sample.foo_batch;
      [ (AppName, VStr (lit "FooBar")); (Exe, VStr (lit "/b/x.exe"));
        (appid_key, VInt (-14)) ] ].
Proof.
  destruct (modify_shortcut_target Sample.Foo Sample.real_exe Sample.real_dir
              (Sample.world_of Scenario.three)) as [w' b] eqn:E.
  assert (Hb : b = true) by (apply (f_equal snd) in E; vm_compute in E; congruence).
  subst b.
  destruct (first_named_edit_changes_one_entry
              (EditTarget Sample.Foo Sample.real_exe Sample.real_dir)
              (Sample.world_of Scenario.three) w'
              {| sd_shortcuts := Some Scenario.three; sd_rest := [] |}
              eq_refl eq_refl eq_refl (sequential_reindex _) E)
    as (i & target & Hn & Ht & Hbefore & Hv & _).
  cbn [fst]. rewrite Hv. clear Hv E.
  destruct i as [|[|[|i]]].
  - injection Hn as <-. reflexivity.
  - injection Hn as <-. specialize (Hbefore 0%nat _ (Nat.lt_0_succ _) eq_refl).
    vm_compute in Hbefore. discriminate Hbefore.
  - injection Hn as <-. vm_compute in Ht. discriminate Ht.
  - destruct i; discriminate Hn.
Defined.

(** X10. When no entry has the name, the three methods return [False] and
    leave the world as it is: the file is not written. *)
Theorem first_named_edit_without_match (edit : first_edit) (w : world)
    (sd : shortcuts_data) :
  shortcuts_vdf w = Loaded sd ->
  sequential_keys (stored w) ->
  Forall (fun s => name_equals (edit_name edit) s = false)
         (Dict.values (stored w)) ->
  apply_edit edit w = (w, false).
Proof.
  intros Hw Hseq Hall. rewrite (apply_edit_run edit w sd Hw).
  unfold stored in *. rewrite Hw in *. unfold shortcuts_of in *.
  destruct (sd_shortcuts sd) as [st|]; [|reflexivity].
  unfold run. rewrite change_first_named_absent by assumption. reflexivity.
Qed.

Lemma first_named_edit_without_match_witness :
  set_compatool_on_shortcut Sample.Tuxborn (Sample.world_of Scenario.three)
  = (Sample.world_of Scenario.three, false).
Proof.
  apply (first_named_edit_without_match (EditCompatTool Sample.Tuxborn)
           (Sample.world_of Scenario.three)
           {| sd_shortcuts := Some Scenario.three; sd_rest := [] |} eq_refl).
  - apply sequential_reindex.
  - unfold stored, Sample.world_of, shortcuts_of, Scenario.three.
    cbn [shortcuts_vdf sd_shortcuts]. rewrite values_reindex.
    repeat constructor.
Defined.



(* ===================================================================== *)
(** * Pointing every entry with the name at the final executable *)
(* ===================================================================== *)

Section Replace.

Lemma replace_run name exe dir w sd :
  shortcuts_vdf w = Loaded sd ->
  replace_shortcut_with_final_exe name exe dir w
  = if existsb (named name) (Dict.values (shortcuts_of sd))
    then run (binary_dump
                (with_shortcuts sd
                   (reindex (map (retouch name (final_fields exe dir))
                                 (Dict.values (shortcuts_of sd))))) ;;;
              ret true) false w
    else (w, false).
Proof.
  intros Hw.
  unfold replace_shortcut_with_final_exe, run, bind, get_shortcuts_vdf,
    binary_load.
  rewrite Hw. unfold ret. cbv beta iota. rewrite Hw. cbv beta iota zeta.
  rewrite update_named_spec. cbn [orb app].
  destruct (existsb (named name) (Dict.values (shortcuts_of sd)));
    reflexivity.
Qed.

Lemma holds_replaced name exe dir sd :
  holds_data sd = true -> holds_str exe = true -> holds_str dir = true ->
  holds_data (with_shortcuts sd
                (reindex (map (retouch name (final_fields exe dir))
                              (Dict.values (shortcuts_of sd))))) = true.
Proof.
  intros Hsd He Hd. apply data_all_with_shortcuts; [exact Hsd|].
  apply holds_reindex.
  apply holds_retouch; [apply holds_final_fields; assumption|].
  apply store_all_values, data_all_shortcuts_of. exact Hsd.
Qed.

Lemma final_fields_update exe dir (s : entry) :
  let s' := Dict.update s (final_fields exe dir) in
  Dict.get Exe s' = Some (VStr (quoted exe)) /\
  Dict.get StartDir s' = Some (VStr dir) /\
  Dict.get LaunchOptions s' = Some (VStr []) /\
  Dict.get tags s' = Some (VDict []) /\
  forall k, k <> Exe -> k <> StartDir -> k <> LaunchOptions -> k <> tags ->
            Dict.get k s' = Dict.get k s.
Proof.
  unfold final_fields, Dict.update. cbn [fold_left fst snd].
  repeat split; try (rewrite !get_set; reflexivity).
  intros k H1 H2 H3 H4. apply eqb_neq in H1, H2, H3, H4.
  rewrite !get_set, H1, H2, H3, H4. reflexivity.
Qed.

Lemma filter_named_retouch_final name exe dir (l : list entry) :
  List.length (filter (named name) (map (retouch name (final_fields exe dir)) l))
  = List.length (filter (named name) l).
Proof.
  induction l as [|s l IH]; [reflexivity|]. cbn [map filter].
  assert (E : named name (retouch name (final_fields exe dir) s) = named name s).
  { unfold retouch. destruct (named name s) eqn:Hs; [|exact Hs].
    rewrite named_update; [exact Hs|key_absent]. }
  rewrite E. destruct (named name s); cbn [List.length]; auto.
Qed.

End Replace.

(** X12. [replace_shortcut_with_final_exe] that returns [True], for a
    store and paths that are strings the binary format holds, has found
    the name and has rewritten EVERY entry that carries it, not only the
    first: each gets the quoted final executable, the start directory as
    passed (unquoted), empty launch options and empty tags, and keeps all
    its other fields, the identifier and the compatibility tool among
    them. The entries with another name are as they were, the order and
    the number of entries with the name are kept, and the keys written
    are sequential. *)
Theorem replace_shortcut_with_final_exe_rewrites_every_match
    (shortcut_name final_exe_path modlist_install_dir : pystr) (w w' : world)
    (sd : shortcuts_data) :
  shortcuts_vdf w = Loaded sd ->
  holds_data sd = true ->
  holds_str final_exe_path = true ->
  holds_str modlist_install_dir = true ->
  replace_shortcut_with_final_exe shortcut_name final_exe_path
    modlist_install_dir w = (w', true) ->
  let touch := retouch shortcut_name
                 (final_fields final_exe_path modlist_install_dir) in
  (0 < count_named shortcut_name (stored w))%nat /\
  Dict.values (stored w') = map touch (Dict.values (stored w)) /\
  count_named shortcut_name (stored w') = count_named shortcut_name (stored w) /\
  sequential_keys (stored w') /\
  forall s,
    (named shortcut_name s = false -> touch s = s) /\
    (named shortcut_name s = true ->
     Dict.get Exe (touch s) = Some (VStr (quoted final_exe_path)) /\
     Dict.get StartDir (touch s) = Some (VStr modlist_install_dir) /\
     Dict.get LaunchOptions (touch s) = Some (VStr []) /\
     Dict.get tags (touch s) = Some (VDict []) /\
     forall k, k <> Exe -> k <> StartDir -> k <> LaunchOptions -> k <> tags ->
               Dict.get k (touch s) = Dict.get k s).
Proof.
  intros Hw Hsd Hexe Hdir Hrun touch.
  rewrite (replace_run _ _ _ w sd Hw) in Hrun.
  assert (Hst : stored w = shortcuts_of sd) by (unfold stored; rewrite Hw; reflexivity).
  rewrite Hst.
  destruct (existsb (named shortcut_name) (Dict.values (shortcuts_of sd))) eqn:Hex;
    [|discriminate].
  rewrite dump_and_return_true in Hrun by (apply holds_replaced; assumption).
  injection Hrun as <-.
  unfold stored at 1 2 3. cbn [store_written shortcuts_vdf with_shortcuts
                                 shortcuts_of sd_shortcuts].
  split.
  { rewrite existsb_named_count in Hex. unfold count_named.
    destruct (List.length (filter (named shortcut_name)
                             (Dict.values (shortcuts_of sd)))); [discriminate|lia]. }
  split; [apply values_reindex|]. split.
  { unfold count_named. rewrite values_reindex.
    apply filter_named_retouch_final. }
  split; [apply sequential_reindex|].
  intros s. subst touch. unfold retouch. split; intros Hn; rewrite Hn.
  - reflexivity.
  - apply final_fields_update.
Qed.

Lemma replace_shortcut_with_final_exe_witness :
  Dict.values (stored (fst (replace_shortcut_with_final_exe Sample.Foo
                              Sample.real_exe Sample.real_dir
                              (Sample.world_of Sample.two_foo))))
  = map (retouch Sample.Foo (final_fields Sample.real_exe Sample.real_dir))
        (Dict.values Sample.two_foo).
Proof.
  apply (replace_shortcut_with_final_exe_rewrites_every_match Sample.Foo
           Sample.real_exe Sample.real_dir (Sample.world_of Sample.two_foo) _
           {| sd_shortcuts := Some Sample.two_foo; sd_rest := [] |}
           eq_refl eq_refl eq_refl eq_refl).
  vm_compute. reflexivity.
Defined.

(** X13. When no entry carries the name,
    [replace_shortcut_with_final_exe] returns [False] and leaves the world
    as it is. *)
Theorem replace_shortcut_with_final_exe_without_match
    (shortcut_name final_exe_path modlist_install_dir : pystr) (w : world)
    (sd : shortcuts_data) :
  shortcuts_vdf w = Loaded sd ->
  count_named shortcut_name (stored w) = 0%nat ->
  replace_shortcut_with_final_exe shortcut_name final_exe_path
    modlist_install_dir w = (w, false).
Proof.
  intros Hw Hc. rewrite (replace_run _ _ _ w sd Hw).
  unfold stored in Hc. rewrite Hw in Hc. unfold count_named in Hc.
  rewrite existsb_named_count, Hc. reflexivity.
Qed.

Lemma replace_shortcut_with_final_exe_without_match_witness :
  replace_shortcut_with_final_exe Sample.Tuxborn Sample.real_exe
    Sample.real_dir (Sample.world_of Sample.two_foo)
  = (Sample.world_of Sample.two_foo, false).
Proof.
  apply (replace_shortcut_with_final_exe_without_match Sample.Tuxborn
           Sample.real_exe Sample.real_dir (Sample.world_of Sample.two_foo)
           {| sd_shortcuts := Some Sample.two_foo; sd_rest := [] |} eq_refl).
  vm_compute. reflexivity.
Defined.

(* ===================================================================== *)
(** * Removing the old bootstrap entries *)
(* ===================================================================== *)

Section Cleanup.
Variable name : pystr.

Lemma old_batch_Some (s : entry) (b : bool) :
  is_old_batch_shortcut name s = Some b -> old_batch name s = b.
Proof. unfold old_batch. intros ->. reflexivity. Qed.

(** The marking loop on a store with sequential keys. *)
Lemma mark_spec (st : store) :
  sequential_keys st ->
  forall l m acc removed,
    skipn m (Dict.values st) = l ->
    mark_old_batch_shortcuts name st (seq m (List.length l)) acc = Some removed ->
    removed
    = acc ++ map str_of_nat
               (map fst (filter (fun p => old_batch name (snd p))
                                (combine (seq m (List.length l)) l))).
Proof.
  intros Hseq. induction l as [|s l IH]; intros m acc removed Hl H.
  - cbn in H. injection H as <-. cbn. rewrite app_nil_r. reflexivity.
  - destruct (skipn_cons_inv _ _ _ _ Hl) as [Hn Hl'].
    cbn [List.length seq mark_old_batch_shortcuts] in H.
    rewrite (by_index_sequential st Hseq m s Hn) in H.
    cbn [List.length seq combine filter snd].
    destruct (is_old_batch_shortcut name s) as [[|]|] eqn:E; [| |discriminate];
      rewrite (old_batch_Some _ _ E).
    + rewrite (IH _ _ _ Hl' H). cbn [map fst]. rewrite <- app_assoc. reflexivity.
    + exact (IH _ _ _ Hl' H).
Qed.

Lemma mark_total (st : store) :
  sequential_keys st ->
  forall l m acc,
    skipn m (Dict.values st) = l ->
    Forall (fun s => is_old_batch_shortcut name s <> None) l ->
    exists removed,
      mark_old_batch_shortcuts name st (seq m (List.length l)) acc = Some removed.
Proof.
  intros Hseq. induction l as [|s l IH]; intros m acc Hl Hall.
  - eexists. reflexivity.
  - destruct (skipn_cons_inv _ _ _ _ Hl) as [Hn Hl'].
    apply Forall_cons_iff in Hall. destruct Hall as [Hs Hrest].
    cbn [List.length seq mark_old_batch_shortcuts].
    rewrite (by_index_sequential st Hseq m s Hn).
    destruct (is_old_batch_shortcut name s) as [[|]|]; [| |contradiction];
      apply IH; assumption.
Qed.

Lemma in_combine_seq {A : Type} (l : list A) :
  forall m i x, In (i, x) (combine (seq m (List.length l)) l) <->
                (m <= i)%nat /\ nth_error l (i - m) = Some x.
Proof.
  induction l as [|y l IH]; intros m i x; cbn [List.length seq combine In].
  - split; [contradiction|]. intros [_ H]. destruct (i - m)%nat; discriminate.
  - rewrite IH. split.
    + intros [[= <- <-]|[Hm Hn]].
      * rewrite Nat.sub_diag. auto.
      * split; [lia|]. replace (i - m)%nat with (S (i - S m)) by lia. exact Hn.
    + intros [Hm Hn]. destruct (Nat.eq_dec i m) as [->|Hne].
      * rewrite Nat.sub_diag in Hn. injection Hn as <-. auto.
      * right. split; [lia|].
        replace (i - m)%nat with (S (i - S m)) in Hn by lia. exact Hn.
Qed.

(** Membership in the list of marked keys. *)
Lemma marked_iff (vs : list entry) (i : nat) (s : entry) :
  nth_error vs i = Some s ->
  existsb (eqb (str_of_nat i))
    (map str_of_nat
       (map fst (filter (fun p => old_batch name (snd p))
                        (combine (seq 0 (List.length vs)) vs))))
  = old_batch name s.
Proof.
  intros Hn. destruct (old_batch name s) eqn:Ho.
  - apply existsb_exists. exists (str_of_nat i). split; [|apply eqb_refl].
    apply in_map. apply in_map_iff. exists (i, s). split; [reflexivity|].
    apply filter_In. split; [|exact Ho].
    apply in_combine_seq. rewrite Nat.sub_0_r. split; [lia|exact Hn].
  - destruct (existsb _ _) eqn:E; [|reflexivity]. exfalso.
    apply existsb_exists in E. destruct E as (k & Hin & Hk).
    apply eqb_eq in Hk. subst k. apply in_map_iff in Hin.
    destruct Hin as (j & Hj & Hin). apply str_of_nat_inj in Hj. subst j.
    apply in_map_iff in Hin. destruct Hin as ([j s'] & Hj & Hin).
    cbn [fst] in Hj. subst j. apply filter_In in Hin. destruct Hin as [Hin Ho'].
    apply in_combine_seq in Hin. rewrite Nat.sub_0_r in Hin.
    destruct Hin as [_ Hin]. cbn [snd] in Ho'. congruence.
Qed.

(** The rebuilding loop on a store with sequential keys. *)
Lemma rebuild_spec (st : store) (removed : list pystr) :
  sequential_keys st ->
  (forall i s, nth_error (Dict.values st) i = Some s ->
               existsb (eqb (str_of_nat i)) removed = old_batch name s) ->
  forall l m acc k st',
    skipn m (Dict.values st) = l ->
    Dict.keys acc = map str_of_nat (seq 0 k) ->
    rebuild_without st removed (seq m (List.length l)) acc k = Some st' ->
    Dict.values st'
    = Dict.values acc ++ filter (fun s => negb (old_batch name s)) l.
Proof.
  intros Hseq Hrem. induction l as [|s l IH]; intros m acc k st' Hl Hk H.
  - cbn in H. injection H as <-. cbn. rewrite app_nil_r. reflexivity.
  - destruct (skipn_cons_inv _ _ _ _ Hl) as [Hn Hl'].
    cbn [List.length seq rebuild_without] in H.
    rewrite (Hrem m s Hn) in H. cbn [filter].
    destruct (old_batch name s); cbn [negb].
    + exact (IH _ _ _ _ Hl' Hk H).
    + rewrite (by_index_sequential st Hseq m s Hn) in H.
      assert (Hfresh : ~ In (str_of_nat k) (Dict.keys acc)).
      { rewrite Hk. intros Hin. apply in_map_iff in Hin.
        destruct Hin as [j [Hj Hin]]. apply str_of_nat_inj in Hj. subst j.
        apply in_seq in Hin. lia. }
      rewrite set_fresh in H by exact Hfresh.
      assert (Hk' : Dict.keys (acc ++ [(str_of_nat k, s)])
                    = map str_of_nat (seq 0 (S k))).
      { unfold Dict.keys in *. rewrite map_app, Hk, seq_S, map_app. reflexivity. }
      rewrite (IH _ _ _ _ Hl' Hk' H).
      unfold Dict.values. rewrite map_app, <- app_assoc. reflexivity.
Qed.

Lemma filter_none_marked {A : Type} (f : A -> bool) (l : list A) :
  forall m,
    map fst (filter (fun p => f (snd p)) (combine (seq m (List.length l)) l)) = [] ->
    filter (fun s => negb (f s)) l = l.
Proof.
  induction l as [|x l IH]; intros m H; [reflexivity|].
  cbn [List.length seq combine filter snd] in *.
  destruct (f x); [discriminate H|]. cbn [negb]. f_equal. eapply IH. exact H.
Qed.

Lemma quoted_is_no_old_batch (s : entry) (p : pystr) :
  Dict.get Exe s = Some (VStr (quoted p)) ->
  is_old_batch_shortcut name s = Some false.
Proof.
  intros He. unfold is_old_batch_shortcut, get_or_empty. rewrite He.
  destruct (negb _); [reflexivity|]. f_equal.
  apply andb_false_iff. right.
  unfold endswith, quoted. cbn [rev]. rewrite rev_app_distr. reflexivity.
Qed.

Lemma name_differs_is_no_old_batch (s : entry) :
  name_equals name s = false -> is_old_batch_shortcut name s = Some false.
Proof.
  intros Hn. unfold is_old_batch_shortcut. fold (name_equals name s).
  rewrite Hn. reflexivity.
Qed.

Lemma cleanup_run w sd :
  shortcuts_vdf w = Loaded sd ->
  cleanup_old_batch_shortcuts name w
  = let shortcuts := shortcuts_of sd in
    let indices := seq 0 (List.length shortcuts) in
    match mark_old_batch_shortcuts name shortcuts indices [] with
    | None => (w, false)
    | Some [] => (w, true)
    | Some removed =>
        match rebuild_without shortcuts removed indices [] 0 with
        | None => (w, false)
        | Some new_shortcuts =>
            run (binary_dump (with_shortcuts sd new_shortcuts) ;;; ret true)
                false w
        end
    end.
Proof.
  intros Hw.
  unfold cleanup_old_batch_shortcuts, run, bind, get_shortcuts_vdf, binary_load.
  rewrite Hw. unfold ret, raise, lift. cbv beta iota. rewrite Hw.
  cbv beta iota zeta.
  destruct (mark_old_batch_shortcuts name (shortcuts_of sd)
              (seq 0 (List.length (shortcuts_of sd))) []) as [[|r rs]|];
    try reflexivity.
  unfold ret, raise. cbv beta iota.
  destruct (rebuild_without (shortcuts_of sd) (r :: rs)
              (seq 0 (List.length (shortcuts_of sd))) [] 0); reflexivity.
Qed.

End Cleanup.

(** X14. [cleanup_old_batch_shortcuts] that returns [True] on a store with
    sequential keys that the binary format holds leaves exactly the entries that fail its test (same
    name, executable containing [prefix_creation_] and ending in [.bat]),
    in their order and renumbered from 0. *)
Theorem cleanup_old_batch_shortcuts_keeps_exactly_the_others
    (shortcut_name : pystr) (w w' : world) (sd : shortcuts_data) :
  shortcuts_vdf w = Loaded sd ->
  holds_data sd = true ->
  sequential_keys (stored w) ->
  cleanup_old_batch_shortcuts shortcut_name w = (w', true) ->
  Dict.values (stored w')
  = filter (fun s => negb (old_batch shortcut_name s)) (Dict.values (stored w)) /\
  sequential_keys (stored w').
Proof.
  intros Hw Hsd Hseq Hrun. rewrite (cleanup_run _ w sd Hw) in Hrun.
  assert (Hst : stored w = shortcuts_of sd) by (unfold stored; rewrite Hw; reflexivity).
  rewrite Hst in *. cbv zeta in Hrun.
  assert (Hlen : List.length (shortcuts_of sd)
                 = List.length (Dict.values (shortcuts_of sd)))
    by (unfold Dict.values; rewrite length_map; reflexivity).
  destruct (mark_old_batch_shortcuts shortcut_name (shortcuts_of sd)
              (seq 0 (List.length (shortcuts_of sd))) []) as [removed|] eqn:M;
    [|discriminate].
  rewrite Hlen in M.
  pose proof (mark_spec shortcut_name _ Hseq _ 0%nat [] removed eq_refl M) as Hr.
  cbn [app] in Hr.
  destruct removed as [|r rs].
  - injection Hrun as <-. rewrite Hst. split; [|exact Hseq].
    symmetry. eapply filter_none_marked.
    destruct (map fst _) eqn:E in Hr; [exact E|discriminate Hr].
  - destruct (rebuild_without (shortcuts_of sd) (r :: rs)
                (seq 0 (List.length (shortcuts_of sd))) [] 0) as [st'|] eqn:R;
      [|discriminate].
    rewrite dump_and_return_true in Hrun.
    2:{ apply data_all_with_shortcuts; [exact Hsd|].
        exact (holds_rebuild _ _ _ (data_all_shortcuts_of _ _ _ Hsd) [] 0%nat st'
                 eq_refl R). }
    injection Hrun as <-.
    unfold stored. cbn [store_written shortcuts_vdf with_shortcuts
                          shortcuts_of sd_shortcuts].
    split; [|eapply rebuild_sequential; [|exact R]; reflexivity].
    rewrite Hlen in R.
    apply (rebuild_spec shortcut_name _ (r :: rs) Hseq) with (m := 0%nat)
      (acc := []) (k := 0%nat); [|reflexivity|reflexivity|exact R].
    intros i s Hn. rewrite Hr. apply marked_iff. exact Hn.
Qed.

Lemma cleanup_old_batch_shortcuts_witness :
  Dict.values (stored (fst (cleanup_old_batch_shortcuts Sample.Foo
                              (Sample.world_of
                                 (reindex [Scenario.foo_unquoted_batch;
                                           Sample.foo_batch])))))
  = [Sample.foo_batch].
Proof.
  pose proof (cleanup_old_batch_shortcuts_keeps_exactly_the_others Sample.Foo
                (Sample.world_of (reindex [Scenario.foo_unquoted_batch;
                                           Sample.foo_batch]))
                (fst (cleanup_old_batch_shortcuts Sample.Foo
                        (Sample.world_of
                           (reindex [Scenario.foo_unquoted_batch;
                                     Sample.foo_batch]))))
                {| sd_shortcuts := Some (reindex [Scenario.foo_unquoted_batch;
                                                  Sample.foo_batch]);
                   sd_rest := [] |}
                eq_refl eq_refl (sequential_reindex _)
                ltac:(vm_compute; reflexivity)) as [H _].
  rewrite H. vm_compute. reflexivity.
Defined.

(** X15. An entry whose executable is stored in double quotes, as
    [create_shortcut_directly_with_proton] stores the bootstrap batch
    file, is never removed, because the quoted text does not end in
    [.bat]: on a store with sequential keys in which each entry with the
    name has a quoted executable, [cleanup_old_batch_shortcuts] returns
    [True] without writing anything. *)
Theorem cleanup_old_batch_shortcuts_spares_quoted_executables
    (shortcut_name : pystr) (w : world) (sd : shortcuts_data) :
  shortcuts_vdf w = Loaded sd ->
  sequential_keys (stored w) ->
  Forall (fun s => name_equals shortcut_name s = true ->
                   exists p, Dict.get Exe s = Some (VStr (quoted p)))
         (Dict.values (stored w)) ->
  cleanup_old_batch_shortcuts shortcut_name w = (w, true).
Proof.
  intros Hw Hseq Hall. rewrite (cleanup_run _ w sd Hw).
  assert (Hst : stored w = shortcuts_of sd) by (unfold stored; rewrite Hw; reflexivity).
  rewrite Hst in *. cbv zeta.
  assert (Hlen : List.length (shortcuts_of sd)
                 = List.length (Dict.values (shortcuts_of sd)))
    by (unfold Dict.values; rewrite length_map; reflexivity).
  assert (Hno : Forall (fun s => is_old_batch_shortcut shortcut_name s = Some false)
                       (Dict.values (shortcuts_of sd))).
  { eapply Forall_impl; [|exact Hall]. intros s Hs. cbv beta in Hs.
    destruct (name_equals shortcut_name s) eqn:Hn.
    - destruct (Hs eq_refl) as [p Hp]. eapply quoted_is_no_old_batch. exact Hp.
    - apply name_differs_is_no_old_batch. exact Hn. }
  destruct (mark_total shortcut_name _ Hseq (Dict.values (shortcuts_of sd))
              0%nat [] eq_refl) as [removed M].
  { eapply Forall_impl; [|exact Hno]. intros s Hs. cbv beta in Hs. congruence. }
  rewrite Hlen, M.
  pose proof (mark_spec shortcut_name _ Hseq _ 0%nat [] removed eq_refl M) as Hr.
  cbn [app skipn] in Hr.
  assert (E : filter (fun p : nat * entry => old_batch shortcut_name (snd p))
                (combine (seq 0 (List.length (Dict.values (shortcuts_of sd))))
                         (Dict.values (shortcuts_of sd))) = []).
  { clear - Hno. generalize 0%nat.
    induction (Dict.values (shortcuts_of sd)) as [|s l IH]; intros m;
      [reflexivity|].
    inversion Hno as [|? ? Hs Hrest]; subst.
    cbn [List.length seq combine filter snd].
    unfold old_batch at 1. rewrite Hs. apply IH. exact Hrest. }
  rewrite E in Hr. subst removed. reflexivity.
Qed.

Lemma cleanup_old_batch_shortcuts_spares_witness :
  cleanup_old_batch_shortcuts Sample.Foo (Sample.world_of Scenario.three)
  = (Sample.world_of Scenario.three, true).
Proof.
  apply (cleanup_old_batch_shortcuts_spares_quoted_executables Sample.Foo
           (Sample.world_of Scenario.three)
           {| sd_shortcuts := Some Scenario.three; sd_rest := [] |} eq_refl).
  - apply sequential_reindex.
  - unfold stored, Sample.world_of, shortcuts_of, Scenario.three.
    cbn [shortcuts_vdf sd_shortcuts]. rewrite values_reindex.
    constructor; [intros _; eexists; reflexivity|].
    constructor; [intros _; eexists; reflexivity|].
    constructor; [intros H; vm_compute in H; discriminate H|].
    constructor.
Defined.

(* ===================================================================== *)
(** * Reading the store back *)
(* ===================================================================== *)

Section Readers.
Variable name : pystr.

Lemma startswith_app (x rest : pystr) : startswith (x ++ rest) x = true.
Proof.
  induction x as [|c x IH]; [destruct rest; reflexivity|].
  cbn. rewrite Z.eqb_refl. exact IH.
Qed.

Lemma contains_app (x before after : pystr) :
  contains x (before ++ x ++ after) = true.
Proof.
  induction before as [|c before IH].
  - cbn [app].
    assert (U : forall l, contains x l = true \/ startswith l x = false).
    { intros l. destruct (startswith l x) eqn:E; [left|right; reflexivity].
      destruct l; cbn [contains]; rewrite E; reflexivity. }
    destruct (U (x ++ after)) as [H|H]; [exact H|].
    rewrite startswith_app in H. discriminate H.
  - cbn [app contains]. rewrite IH. apply orb_true_r.
Qed.

Lemma contains_quoted (x : pystr) : contains x (quoted x) = true.
Proof. exact (contains_app x [dq] [dq]). Qed.

Lemma contains_refl (x : pystr) : contains x x = true.
Proof.
  pose proof (contains_app x [] []) as H. cbn [app] in H.
  rewrite app_nil_r in H. exact H.
Qed.

(** The loop of [find_appid_in_shortcuts_vdf] when every entry with the
    name has the same identifier. *)
Lemma find_appid_loop_uniform (st : store) (v : value) :
  sequential_keys st ->
  forall l m,
    skipn m (Dict.values st) = l ->
    Forall (fun s => name_equals name s = true ->
                     Dict.get appid_key s = Some v) l ->
    find_appid_loop name st (seq m (List.length l))
    = Some (if existsb (name_equals name) l && truthy v then Some v else None).
Proof.
  intros Hseq. induction l as [|s l IH]; intros m Hl Hall; [reflexivity|].
  destruct (skipn_cons_inv _ _ _ _ Hl) as [Hn Hl'].
  apply Forall_cons_iff in Hall. destruct Hall as [Hs Hrest].
  cbn [List.length seq find_appid_loop existsb].
  rewrite (by_index_sequential st Hseq m s Hn).
  fold (name_equals name s).
  destruct (name_equals name s) eqn:E; cbn [orb].
  - rewrite (Hs eq_refl). cbv beta iota. destruct (truthy v) eqn:T; cbn [andb].
    + reflexivity.
    + rewrite (IH _ Hl' Hrest), andb_false_r. reflexivity.
  - exact (IH _ Hl' Hrest).
Qed.


Lemma verify_final_loop_first (exe : pystr) (st : store) (i : nat) (s : entry) :
  sequential_keys st ->
  nth_error (Dict.values st) i = Some s ->
  py_in name (get_or_empty AppName s) = Some true ->
  (forall j s', (j < i)%nat -> nth_error (Dict.values st) j = Some s' ->
                py_in name (get_or_empty AppName s') = Some false) ->
  forall l m,
    skipn m (Dict.values st) = l -> (m <= i)%nat ->
    verify_final_loop name exe st (seq m (List.length l))
    = py_in exe (get_or_empty Exe s).
Proof.
  intros Hseq Hi Hs Hbefore. induction l as [|s0 l IH]; intros m Hl Hm.
  - exfalso. assert (nth_error (Dict.values st) i = None).
    { apply nth_error_None.
      assert (List.length (skipn m (Dict.values st)) = 0%nat)
        by (rewrite Hl; reflexivity).
      rewrite length_skipn in H. lia. }
    congruence.
  - destruct (skipn_cons_inv _ _ _ _ Hl) as [Hn Hl'].
    cbn [List.length seq verify_final_loop].
    rewrite (by_index_sequential st Hseq m s0 Hn).
    destruct (Nat.eq_dec m i) as [->|Hne].
    + assert (s0 = s) by congruence. subst s0. rewrite Hs. reflexivity.
    + rewrite (Hbefore m s0 ltac:(lia) Hn). apply IH; [exact Hl'|lia].
Qed.

(** The first element of a list that satisfies a test. *)
Lemma first_match {A : Type} (f : A -> bool) (l : list A) :
  existsb f l = true ->
  exists i x, nth_error l i = Some x /\ f x = true /\
              forall j y, (j < i)%nat -> nth_error l j = Some y -> f y = false.
Proof.
  induction l as [|a l IH]; [discriminate|]. cbn [existsb].
  destruct (f a) eqn:Fa.
  - intros _. exists 0%nat, a. repeat split; auto. intros j y Hj. lia.
  - cbn [orb]. intros H. destruct (IH H) as (i & x & Hn & Hx & Hb).
    exists (S i), x. repeat split; auto.
    intros [|j] y Hj Hy; [injection Hy as <-; exact Fa|].
    apply (Hb j y); [lia|exact Hy].
Qed.

End Readers.

(** X16. After [create_shortcut_directly_with_proton] has run on a
    readable store with a writable batch file, for a non-empty name, when
    the binary format holds what is dumped (the strings of the store, the
    name and the home directory encode in UTF-8 and have no U+0000),
    [find_appid_in_shortcuts_vdf] finds the checksum identifier for that
    name, unless the identifier is 0, which its truth test takes for
    missing: then it returns [None]. *)
Theorem find_appid_after_create_is_the_checksum_identifier
    (env : externals) (shortcut_name exe_path modlist_install_dir : pystr)
    (w : world) (sd : shortcuts_data) (appid : Z) :
  shortcuts_vdf w = Loaded sd ->
  holds_data sd = true ->
  holds_str shortcut_name = true ->
  holds_str (home env) = true ->
  checksum_appid exe_path shortcut_name = Some appid ->
  batch_writable env = true ->
  shortcut_name <> [] ->
  let w' := fst (create_shortcut_directly_with_proton env shortcut_name exe_path
                   modlist_install_dir w) in
  find_appid_in_shortcuts_vdf shortcut_name w'
  = if appid =? 0 then None else Some (VInt appid).
Proof.
  intros Hw Hsd Hname Hhome Ha Hb Hne w'.
  pose proof (create_store env _ _ modlist_install_dir w sd appid
                Hw Hsd Hname Hhome Ha Hb) as Hs.
  fold w' in Hs. unfold find_appid_in_shortcuts_vdf. rewrite Hs.
  cbn [shortcuts_of with_shortcuts sd_shortcuts].
  set (st := upsert env shortcut_name appid (shortcuts_of sd)).
  assert (Hseq : sequential_keys st) by apply sequential_upsert.
  assert (Hlen : List.length st = List.length (Dict.values st))
    by (unfold Dict.values; rewrite length_map; reflexivity).
  rewrite Hlen.
  rewrite (find_appid_loop_uniform shortcut_name st (VInt appid) Hseq
             (Dict.values st) 0%nat eq_refl).
  - assert (Hex : existsb (name_equals shortcut_name) (Dict.values st) = true).
    { apply existsb_exists. subst st. rewrite values_upsert.
      destruct (existsb (named shortcut_name) (Dict.values (shortcuts_of sd)))
        eqn:E.
      - apply existsb_exists in E. destruct E as (s & Hin & Hn).
        exists (retouch shortcut_name (bootstrap_fields env appid) s). split.
        + apply in_or_app. left. apply in_map. exact Hin.
        + rewrite name_equals_named by exact Hne.
          rewrite named_retouch_bootstrap. exact Hn.
      - exists (new_shortcut env shortcut_name appid). split.
        + apply in_or_app. right. left. reflexivity.
        + rewrite name_equals_named by exact Hne. apply named_new_shortcut. }
    rewrite Hex. cbn [andb truthy].
    destruct (appid =? 0); reflexivity.
  - apply Forall_forall. intros s Hin Hn.
    rewrite name_equals_named in Hn by exact Hne.
    destruct (bootstrapped_upsert env shortcut_name appid (shortcuts_of sd) s
                Hin Hn) as [Hid _].
    exact Hid.
Qed.

Lemma find_appid_after_create_witness :
  find_appid_in_shortcuts_vdf Sample.Tuxborn
    (fst (create_shortcut_directly_with_proton Sample.env Sample.Tuxborn
            Sample.boot_sh Sample.tmp (Sample.world_of Sample.old_tuxborn)))
  = Some (VInt (-1953115905)).
Proof.
  apply (find_appid_after_create_is_the_checksum_identifier Sample.env
           Sample.Tuxborn Sample.boot_sh Sample.tmp
           (Sample.world_of Sample.old_tuxborn)
           {| sd_shortcuts := Some Sample.old_tuxborn; sd_rest := [] |}
           (-1953115905) eq_refl eq_refl eq_refl eq_refl).
  - vm_compute. reflexivity.
  - reflexivity.
  - discriminate.
Defined.



(** X18. After [replace_shortcut_with_final_exe] has returned [True] for
    a non-empty name on a store in which every name is a string and the
    only names containing the queried name are equal to it, the store and
    the two paths being strings that the binary format holds,
    [verify_final_shortcut] for the same name and executable returns
    [True]. *)
Theorem verify_final_shortcut_after_replace
    (shortcut_name final_exe_path modlist_install_dir : pystr) (w w' : world)
    (sd : shortcuts_data) :
  shortcuts_vdf w = Loaded sd ->
  holds_data sd = true ->
  holds_str final_exe_path = true ->
  holds_str modlist_install_dir = true ->
  shortcut_name <> [] ->
  only_exact_matches shortcut_name (stored w) ->
  replace_shortcut_with_final_exe shortcut_name final_exe_path
    modlist_install_dir w = (w', true) ->
  verify_final_shortcut shortcut_name final_exe_path w' = true.
Proof.
  intros Hw Hsd Hexe Hdir Hne Hexact Hrun.
  rewrite (replace_run _ _ _ w sd Hw) in Hrun.
  unfold stored in Hexact. rewrite Hw in Hexact.
  destruct (existsb (named shortcut_name) (Dict.values (shortcuts_of sd)))
    eqn:Hex; [|discriminate].
  rewrite dump_and_return_true in Hrun by (apply holds_replaced; assumption).
  injection Hrun as <-.
  unfold verify_final_shortcut.
  cbn [store_written shortcuts_vdf with_shortcuts shortcuts_of sd_shortcuts].
  set (touch := retouch shortcut_name
                  (final_fields final_exe_path modlist_install_dir)).
  set (vs := Dict.values (shortcuts_of sd)) in *.
  set (st := reindex (map touch vs)).
  assert (Hseq : sequential_keys st) by apply sequential_reindex.
  assert (Hv : Dict.values st = map touch vs) by apply values_reindex.
  assert (Hlen : List.length st = List.length (Dict.values st))
    by (unfold Dict.values; rewrite length_map; reflexivity).
  assert (Hname : forall s, get_or_empty AppName (touch s)
                            = get_or_empty AppName s).
  { intros s. unfold touch, retouch. destruct (named shortcut_name s); [|reflexivity].
    unfold get_or_empty. rewrite get_update_absent; [reflexivity|key_absent]. }
  destruct (first_match _ _ Hex) as (i & s & Hn & Hs & Hb).
  assert (Hexact' : forall y, In y vs ->
            exists n, get_or_empty AppName y = VStr n /\
                      (contains shortcut_name n = true -> n = shortcut_name)).
  { unfold only_exact_matches in Hexact. rewrite Forall_forall in Hexact.
    exact Hexact. }
  assert (Hs_name : get_or_empty AppName s = VStr shortcut_name).
  { unfold named in Hs. unfold get_or_empty.
    destruct (Dict.get AppName s) as [[n| |]|]; try discriminate Hs.
    cbn in Hs. apply eqb_eq in Hs. subst n. reflexivity. }
  rewrite Hlen.
  rewrite (verify_final_loop_first shortcut_name final_exe_path st i (touch s)
             Hseq);
    [| rewrite Hv; apply map_nth_error; exact Hn
     | rewrite Hname, Hs_name; cbn [py_in]; rewrite contains_refl; reflexivity
     | | reflexivity | lia].
  - unfold touch, retouch. rewrite Hs.
    destruct (final_fields_update final_exe_path modlist_install_dir s)
      as (He & _).
    unfold get_or_empty. rewrite He. cbn [py_in]. rewrite contains_quoted.
    reflexivity.
  - intros j s' Hj Hs'. rewrite Hv in Hs'.
    rewrite nth_error_map in Hs'.
    destruct (nth_error vs j) as [y|] eqn:Ey; [|discriminate Hs'].
    cbn in Hs'. injection Hs' as <-. rewrite Hname.
    destruct (Hexact' y (nth_error_In _ _ Ey)) as (n & Hy & Himp).
    rewrite Hy. cbn [py_in]. f_equal.
    destruct (contains shortcut_name n) eqn:C; [|reflexivity].
    assert (Hny : named shortcut_name y = true).
    { rewrite <- name_equals_named by exact Hne.
      unfold name_equals. rewrite Hy, (Himp eq_refl). cbn. apply eqb_refl. }
    specialize (Hb j y Hj Ey). congruence.
Qed.

Lemma verify_final_shortcut_after_replace_witness :
  verify_final_shortcut Sample.Foo Sample.real_exe
    (fst (replace_shortcut_with_final_exe Sample.Foo Sample.real_exe
            Sample.real_dir (Sample.world_of Sample.two_foo)))
  = true.
Proof.
  apply (verify_final_shortcut_after_replace Sample.Foo Sample.real_exe
           Sample.real_dir (Sample.world_of Sample.two_foo) _
           {| sd_shortcuts := Some Sample.two_foo; sd_rest := [] |}
           eq_refl eq_refl eq_refl eq_refl).
  - discriminate.
  - unfold only_exact_matches, stored, Sample.world_of, shortcuts_of,
      Sample.two_foo.
    cbn [shortcuts_vdf sd_shortcuts]. rewrite values_reindex.
    constructor; [exists Sample.Foo; split; [reflexivity|intros _; reflexivity]|].
    constructor; [exists Sample.Foo; split; [reflexivity|intros _; reflexivity]|].
    constructor.
  - vm_compute. reflexivity.
Defined.

(* ===================================================================== *)
(** * The structured writers of the compatibility mapping *)
(* ===================================================================== *)

Section StructuredMapping.

Lemma assign_is_set_mapping_entry appid pv c :
  assign_compat_tool appid pv c = set_mapping_entry (str_of_Z appid) (VStr pv) c.
Proof. reflexivity. Qed.

Lemma child_set k (c : Dict.t value) (d : Dict.t value) :
  child k (Dict.set k (VDict c) d) = Some c.
Proof. unfold child. rewrite get_set, eqb_refl. reflexivity. Qed.

Lemma mapping_entry_after_set key v c c' :
  set_mapping_entry key v c = Some c' ->
  mapping_entry key c' = Some (Some v) /\
  (forall key', key' <> key -> mapping_entry key' c' = mapping_entry key' c) /\
  (forall k, k <> lit "Software" -> Dict.get k c' = Dict.get k c).
Proof.
  unfold set_mapping_entry, mapping_entry.
  destruct (child (lit "Software") c) as [software|]; [|discriminate].
  destruct (child (lit "Valve") software) as [valve|]; [|discriminate].
  destruct (child (lit "Steam") valve) as [steam|]; [|discriminate].
  destruct (child (lit "CompatToolMapping") steam) as [mapping|]; [|discriminate].
  cbv zeta. intros [= <-]. rewrite !child_set.
  split; [rewrite get_set, eqb_refl; reflexivity|]. split.
  - intros key' Hne. apply eqb_neq in Hne. rewrite get_set, Hne. reflexivity.
  - intros k Hne. apply eqb_neq in Hne. rewrite get_set, Hne. reflexivity.
Qed.

Lemma set_proton_true appid pv w w' :
  set_proton_version_for_shortcut appid pv w = (w', true) ->
  exists c c', config_vdf w = Loaded c /\
               set_mapping_entry (str_of_Z appid) (VStr pv) c = Some c' /\
               w' = config_written (Loaded c') w.
Proof.
  unfold set_proton_version_for_shortcut, run. cbv beta.
  destruct (config_vdf w) as [| |c] eqn:Hc; try discriminate.
  unfold bind, lift. rewrite assign_is_set_mapping_entry.
  destruct (set_mapping_entry (str_of_Z appid) (VStr pv) c) as [c'|] eqn:Hs;
    unfold ret, raise, write_config; cbv beta iota; [|discriminate].
  destruct (encodes_text c'); [|discriminate].
  intros [= <-]. exists c, c'. auto.
Qed.

Lemma stl_style_true u tool w w' :
  set_compatibility_tool_stl_style u tool w = (w', true) ->
  exists c c', config_vdf w = Loaded c /\
               set_mapping_entry (str_of_Z u) (compat_entry tool) c = Some c' /\
               w' = config_written (Loaded c') w.
Proof.
  unfold set_compatibility_tool_stl_style, run. cbv beta.
  destruct (config_vdf w) as [| |c] eqn:Hc; try discriminate.
  unfold bind, lift.
  destruct (set_mapping_entry (str_of_Z u) (compat_entry tool) c) as [c'|] eqn:Hs;
    unfold ret, raise, write_config; cbv beta iota; [|discriminate].
  destruct (encodes_text c'); [|discriminate].
  intros [= <-]. exists c, c'. auto.
Qed.

Lemma set_proton_false appid pv w w' :
  set_proton_version_for_shortcut appid pv w = (w', false) ->
  w' = w \/
  exists c c', config_vdf w = Loaded c /\
               set_mapping_entry (str_of_Z appid) (VStr pv) c = Some c' /\
               encodes_text c' = false /\
               w' = config_written (damaged (garbled_config w c')) w.
Proof.
  unfold set_proton_version_for_shortcut, run. cbv beta.
  destruct (config_vdf w) as [| |c] eqn:Hc;
    try (intros [= <-]; left; reflexivity).
  unfold bind, lift. rewrite assign_is_set_mapping_entry.
  destruct (set_mapping_entry (str_of_Z appid) (VStr pv) c) as [c'|] eqn:Hs;
    unfold ret, raise, write_config; cbv beta iota.
  - destruct (encodes_text c') eqn:He; [discriminate|].
    intros [= <-]. right. exists c, c'. auto.
  - intros [= <-]. left. reflexivity.
Qed.

Lemma stl_style_false u tool w w' :
  set_compatibility_tool_stl_style u tool w = (w', false) ->
  w' = w \/
  exists c c', config_vdf w = Loaded c /\
               set_mapping_entry (str_of_Z u) (compat_entry tool) c = Some c' /\
               encodes_text c' = false /\
               w' = config_written (damaged (garbled_config w c')) w.
Proof.
  unfold set_compatibility_tool_stl_style, run. cbv beta.
  destruct (config_vdf w) as [| |c] eqn:Hc;
    try (intros [= <-]; left; reflexivity).
  unfold bind, lift.
  destruct (set_mapping_entry (str_of_Z u) (compat_entry tool) c) as [c'|] eqn:Hs;
    unfold ret, raise, write_config; cbv beta iota.
  - destruct (encodes_text c') eqn:He; [discriminate|].
    intros [= <-]. right. exists c, c'. auto.
  - intros [= <-]. left. reflexivity.
Qed.

Lemma encodes_child k (d c : Dict.t value) :
  encodes_text d = true -> child k d = Some c -> encodes_text c = true.
Proof.
  intros Hd. unfold child.
  destruct (Dict.get k d) as [[s|z|c0]|] eqn:E; try discriminate.
  - intros [= <-]. exact (dict_all_get _ _ k (VDict c0) d Hd E).
  - intros [= <-]. reflexivity.
Qed.

(** The mutation of the two writers keeps a configuration writable when
    the key and the value it adds are. *)
Lemma encodes_set_mapping_entry key v c c' :
  encodes_text c = true -> encodable key = true ->
  value_all encodable (fun _ => true) v = true ->
  set_mapping_entry key v c = Some c' -> encodes_text c' = true.
Proof.
  intros Hc Hk Hv. unfold set_mapping_entry.
  destruct (child (lit "Software") c) as [software|] eqn:E1; [|discriminate].
  destruct (child (lit "Valve") software) as [valve|] eqn:E2; [|discriminate].
  destruct (child (lit "Steam") valve) as [steam|] eqn:E3; [|discriminate].
  destruct (child (lit "CompatToolMapping") steam) as [mapping|] eqn:E4;
    [|discriminate].
  cbv zeta. intros [= <-].
  pose proof (encodes_child _ _ _ Hc E1) as H1.
  pose proof (encodes_child _ _ _ H1 E2) as H2.
  pose proof (encodes_child _ _ _ H2 E3) as H3.
  pose proof (encodes_child _ _ _ H3 E4) as H4.
  unfold encodes_text in *.
  repeat (apply dict_all_set; try reflexivity; try assumption).
Qed.

End StructuredMapping.

(** X19. The read-back at the end of [set_proton_version_for_shortcut]
    sees what was written: after the method has returned [True] the
    mapping holds the given tool, as a plain string, under [str(appid)];
    the entry of every other identifier and every top-level key other than
    ['Software'] are as they were, and [shortcuts.vdf] is not touched. *)
Theorem set_proton_version_for_shortcut_reads_back
    (appid : Z) (proton_version : pystr) (w w' : world) :
  set_proton_version_for_shortcut appid proton_version w = (w', true) ->
  mapping_entry (str_of_Z appid) (config_of w')
  = Some (Some (VStr proton_version)) /\
  (forall other, other <> appid ->
     mapping_entry (str_of_Z other) (config_of w')
     = mapping_entry (str_of_Z other) (config_of w)) /\
  (forall k, k <> lit "Software" ->
     Dict.get k (config_of w') = Dict.get k (config_of w)) /\
  shortcuts_vdf w' = shortcuts_vdf w /\ store_writes w' = store_writes w.
Proof.
  intros Hrun. destruct (set_proton_true _ _ _ _ Hrun) as (c & c' & Hc & Hs & ->).
  destruct (mapping_entry_after_set _ _ _ _ Hs) as (H1 & H2 & H3).
  unfold config_of. rewrite Hc. cbn [config_written config_vdf shortcuts_vdf
                                      store_writes].
  split; [exact H1|]. split.
  { intros other Hne. apply H2. intros E. apply str_of_Z_inj in E. contradiction. }
  split; [exact H3|]. auto.
Qed.

Lemma set_proton_version_for_shortcut_witness :
  mapping_entry (str_of_Z (-1953115905))
    (config_of (fst (set_proton_version_for_shortcut (-1953115905)
                       proton_experimental (Sample.world_of []))))
  = Some (Some (VStr proton_experimental)).
Proof.
  apply (set_proton_version_for_shortcut_reads_back (-1953115905)
           proton_experimental (Sample.world_of []) _).
  vm_compute. reflexivity.
Defined.

(** X20. The two structured writers file the same shortcut under two
    different keys: for a negative identifier [s],
    [set_proton_version_for_shortcut] called with [s] and
    [set_compatibility_tool_stl_style] called with the unsigned form of
    [s], in this order and both returning [True], leave two entries in the
    mapping, the plain string under [str(s)] and the three-field entry
    under the unsigned key; neither replaces the other. *)
Theorem structured_writers_use_different_keys
    (s : Z) (proton_version compat_tool : pystr) (w w1 w2 : world) :
  s < 0 ->
  set_proton_version_for_shortcut s proton_version w = (w1, true) ->
  set_compatibility_tool_stl_style (generate_steam_short_id s) compat_tool w1
    = (w2, true) ->
  mapping_entry (str_of_Z s) (config_of w2) = Some (Some (VStr proton_version)) /\
  mapping_entry (str_of_Z (generate_steam_short_id s)) (config_of w2)
  = Some (Some (compat_entry compat_tool)).
Proof.
  intros Hs H1 H2.
  destruct (set_proton_true _ _ _ _ H1) as (c & c1 & Hc & Hs1 & ->).
  destruct (stl_style_true _ _ _ _ H2) as (c1' & c2 & Hc1 & Hs2 & ->).
  cbn [config_written config_vdf] in Hc1. injection Hc1 as <-.
  destruct (mapping_entry_after_set _ _ _ _ Hs1) as (A1 & _).
  destruct (mapping_entry_after_set _ _ _ _ Hs2) as (B1 & B2 & _).
  unfold config_of. cbn [config_written config_vdf].
  split; [|exact B1].
  rewrite B2; [exact A1|].
  intros E. apply str_of_Z_inj in E.
  unfold generate_steam_short_id in E. rewrite land_mask32 in E.
  pose proof (Z.mod_pos_bound s (2 ^ 32) ltac:(lia)). lia.
Qed.

Lemma structured_writers_witness :
  -1953115905 < 0 /\
  mapping_entry (str_of_Z (-1953115905))
    (config_of
       (fst (set_compatibility_tool_stl_style 2341851391 proton_experimental
               (fst (set_proton_version_for_shortcut (-1953115905)
                       proton_experimental (Sample.world_of []))))))
  = Some (Some (VStr proton_experimental)) /\
  mapping_entry (str_of_Z 2341851391)
    (config_of
       (fst (set_compatibility_tool_stl_style 2341851391 proton_experimental
               (fst (set_proton_version_for_shortcut (-1953115905)
                       proton_experimental (Sample.world_of []))))))
  = Some (Some (compat_entry proton_experimental)).
Proof.
  split; [lia|].
  apply (structured_writers_use_different_keys (-1953115905)
           proton_experimental proton_experimental (Sample.world_of [])
           (fst (set_proton_version_for_shortcut (-1953115905)
                   proton_experimental (Sample.world_of []))) _).
  - lia.
  - vm_compute. reflexivity.
  - vm_compute. reflexivity.
Defined.

(** X21. A structured writer that returns [False] has either written
    nothing, and the world is as it was (the file was missing, unreadable,
    or had something that is no mapping on the way to the compatibility
    mapping), or it has failed while writing: the configuration it built
    holds a string that does not encode, [config.vdf] was opened for
    writing, and what is left of it is what the dump wrote before it
    raised. When the configuration read and the tool name encode, only
    the first case remains. *)
Theorem structured_writers_return_false
    (appid : Z) (tool : pystr) (w w' : world) :
  set_proton_version_for_shortcut appid tool w = (w', false) \/
  set_compatibility_tool_stl_style appid tool w = (w', false) ->
  (w' = w \/
   exists c c', config_vdf w = Loaded c /\ encodes_text c' = false /\
                w' = config_written (damaged (garbled_config w c')) w) /\
  ((forall c, config_vdf w = Loaded c -> encodes_text c = true) ->
   encodable tool = true -> w' = w).
Proof.
  intros H.
  assert (K : w' = w \/
              exists c c' v,
                config_vdf w = Loaded c /\
                set_mapping_entry (str_of_Z appid) v c = Some c' /\
                (encodable tool = true ->
                 value_all encodable (fun _ => true) v = true) /\
                encodes_text c' = false /\
                w' = config_written (damaged (garbled_config w c')) w).
  { destruct H as [H|H].
    - destruct (set_proton_false _ _ _ _ H) as [E|(c & c' & Hc & Hs & He & E)];
        [left; exact E|].
      right. exists c, c', (VStr tool). repeat split; auto.
    - destruct (stl_style_false _ _ _ _ H) as [E|(c & c' & Hc & Hs & He & E)];
        [left; exact E|].
      right. exists c, c', (compat_entry tool). repeat split; auto.
      intros Ht. cbn. rewrite Ht. reflexivity. }
  split.
  - destruct K as [E|(c & c' & v & Hc & _ & _ & He & E)]; [left; exact E|].
    right. exists c, c'. auto.
  - intros Hall Ht.
    destruct K as [E|(c & c' & v & Hc & Hs & Hv & He & E)]; [exact E|].
    rewrite (encodes_set_mapping_entry _ _ _ _ (Hall c Hc)
               (holds_str_encodable _ (holds_str_of_Z appid)) (Hv Ht) Hs) in He.
    discriminate He.
Qed.

(** With a string where ['Software'] belongs nothing is written; with a
    tool name that is a lone surrogate the file is opened for writing and
    left undecodable. *)
Lemma structured_writers_return_false_witness :
  set_compatibility_tool_stl_style 7 proton_experimental
    Scenario.software_is_text
  = (Scenario.software_is_text, false) /\
  snd (set_compatibility_tool_stl_style 7 Scenario.surrogate_name
         (Sample.world_of [])) = false /\
  config_vdf (fst (set_compatibility_tool_stl_style 7 Scenario.surrogate_name
                     (Sample.world_of []))) = Unreadable.
Proof.
  split; [|split; [reflexivity|]].
  - destruct (set_compatibility_tool_stl_style 7 proton_experimental
                Scenario.software_is_text) as [w' b] eqn:E.
    assert (Hb : b = false)
      by (apply (f_equal snd) in E; vm_compute in E; congruence).
    subst b. f_equal.
    destruct (structured_writers_return_false 7 proton_experimental
                Scenario.software_is_text w' (or_intror E)) as [_ H].
    apply H; [|reflexivity].
    intros c [= <-]. reflexivity.
  - destruct (set_compatibility_tool_stl_style 7 Scenario.surrogate_name
                (Sample.world_of [])) as [w' b] eqn:E.
    assert (Hb : b = false)
      by (apply (f_equal snd) in E; vm_compute in E; congruence).
    subst b. cbn [fst].
    destruct (structured_writers_return_false 7 Scenario.surrogate_name
                (Sample.world_of []) w' (or_intror E))
      as [[->|(c & c' & _ & _ & ->)] _].
    + apply (f_equal fst) in E. vm_compute in E. discriminate E.
    + reflexivity.
Defined.

(* ===================================================================== *)
(** * Waiting for the prefix to settle *)
(* ===================================================================== *)

Section Waiting.

Lemma wait_loop_observed (samples : list (option Z)) :
  forall last_size stable_count,
    wait_loop samples last_size stable_count
    = wait_loop (map Some (observed samples)) last_size stable_count.
Proof.
  induction samples as [|[size|] rest IH]; intros last_size stable_count;
    cbn [observed map wait_loop]; [reflexivity| |apply IH].
  destruct (size =? last_size); [|apply IH].
  destruct (3 <=? S stable_count)%nat; [reflexivity|apply IH].
Qed.

(** What a [True] result tells, for any state of the loop. *)
Lemma wait_loop_sound (sizes : list Z) :
  forall last_size stable_count,
    (stable_count <= 2)%nat ->
    wait_loop (map Some sizes) last_size stable_count = true ->
    (exists rest, sizes = repeat last_size (3 - stable_count) ++ rest) \/
    (exists before size rest, sizes = before ++ [size; size; size] ++ rest).
Proof.
  induction sizes as [|x sizes IH]; intros last_size stable_count Hc H;
    [discriminate H|].
  cbn [map wait_loop] in H.
  destruct (Z.eqb_spec x last_size) as [->|Hne].
  - destruct (Nat.leb_spec 3 (S stable_count)).
    + left. exists sizes. replace (3 - stable_count)%nat with 1%nat by lia.
      reflexivity.
    + destruct (IH last_size (S stable_count) ltac:(lia) H)
        as [[rest ->]|(before & size & rest & ->)].
      * left. exists rest.
        replace (3 - stable_count)%nat with (S (3 - S stable_count)) by lia.
        reflexivity.
      * right. exists (last_size :: before), size, rest. reflexivity.
  - destruct (IH x 0%nat ltac:(lia) H)
      as [[rest ->]|(before & size & rest & ->)].
    + right. exists [x], x, rest. reflexivity.
    + right. exists (x :: before), size, rest. reflexivity.
Qed.

(** Four equal sizes in a row end the loop, from any state. *)
Lemma wait_loop_four (size : Z) (rest : list Z) :
  forall last_size stable_count,
    wait_loop (map Some ([size; size; size; size] ++ rest)) last_size stable_count
    = true.
Proof.
  intros last_size stable_count. cbn [map app wait_loop].
  rewrite Z.eqb_refl.
  destruct (size =? last_size).
  - destruct stable_count as [|[|[|k]]]; reflexivity.
  - reflexivity.
Qed.

Lemma wait_loop_complete (before : list Z) (size : Z) (rest : list Z) :
  forall last_size stable_count,
    wait_loop (map Some (before ++ [size; size; size; size] ++ rest))
              last_size stable_count = true.
Proof.
  induction before as [|x before IH]; intros last_size stable_count.
  - apply wait_loop_four.
  - cbn [app map wait_loop].
    destruct (x =? last_size); [|apply IH].
    destruct (3 <=? S stable_count)%nat; [reflexivity|apply IH].
Qed.

End Waiting.

(** X22. The iterations of [wait_for_prefix_completion] in which
    [system.reg] does not exist neither count nor reset anything: the
    result depends only on the sequence of sizes observed. *)
Theorem wait_for_prefix_completion_ignores_missing_file
    (samples : list (option Z)) :
  wait_for_prefix_completion samples
  = wait_for_prefix_completion (map Some (observed samples)).
Proof. unfold wait_for_prefix_completion. apply wait_loop_observed. Qed.

(** X23. [wait_for_prefix_completion] returns [True] only if three
    consecutive observations of the file had the same size; an empty file
    seen three times at the start is enough, because the size to compare
    with starts at 0. *)
Theorem wait_for_prefix_completion_true_means_stable
    (samples : list (option Z)) :
  wait_for_prefix_completion samples = true ->
  exists before size rest,
    observed samples = before ++ [size; size; size] ++ rest.
Proof.
  unfold wait_for_prefix_completion. rewrite wait_loop_observed. intros H.
  destruct (wait_loop_sound (observed samples) 0 0%nat ltac:(lia) H)
    as [[rest E]|(before & size & rest & E)].
  - exists [], 0, rest. exact E.
  - exists before, size, rest. exact E.
Qed.

Lemma wait_for_prefix_completion_true_witness :
  wait_for_prefix_completion [None; Some 0; None; Some 0; Some 0] = true /\
  exists before size rest,
    observed [None; Some 0; None; Some 0; Some 0]
    = before ++ [size; size; size] ++ rest.
Proof.
  split; [reflexivity|].
  apply (wait_for_prefix_completion_true_means_stable
           [None; Some 0; None; Some 0; Some 0]).
  reflexivity.
Defined.

(** X24. Four consecutive observations of the same size always make
    [wait_for_prefix_completion] return [True], whatever was observed
    before and whenever the file was missing in between. *)
Theorem wait_for_prefix_completion_four_equal_sizes
    (samples : list (option Z)) (before : list Z) (size : Z) (rest : list Z) :
  observed samples = before ++ [size; size; size; size] ++ rest ->
  wait_for_prefix_completion samples = true.
Proof.
  intros H.
  unfold wait_for_prefix_completion. rewrite wait_loop_observed, H.
  apply wait_loop_complete.
Qed.

Lemma wait_for_prefix_completion_four_witness :
  wait_for_prefix_completion
    [Some 10; None; Some 20; Some 20; None; Some 20; Some 20] = true.
Proof.
  apply (wait_for_prefix_completion_four_equal_sizes
           [Some 10; None; Some 20; Some 20; None; Some 20; Some 20]
           [10] 20 []).
  reflexivity.
Defined.

(** X25. On a file whose size never changes, the number of iterations
    [wait_for_prefix_completion] needs depends on the size: an empty file
    is declared complete at the third iteration, any other at the fourth,
    because the first observation of a non-zero size only replaces the
    initial 0. With fewer iterations the method returns [False]. *)
Theorem wait_for_prefix_completion_on_constant_size (size : Z) (timeout : nat) :
  wait_for_prefix_completion (repeat (Some size) timeout)
  = if size =? 0 then (3 <=? timeout)%nat else (4 <=? timeout)%nat.
Proof.
  unfold wait_for_prefix_completion.
  destruct timeout as [|[|[|[|n]]]]; cbn [repeat wait_loop];
    destruct (Z.eqb_spec size 0) as [->|Hne]; try reflexivity;
    cbn [Z.eqb]; rewrite ?Z.eqb_refl; try reflexivity.
Qed.

(* ===================================================================== *)
(** * The text of the patched file *)
(* ===================================================================== *)

Section PatchText.

Lemma contains_char (c : Z) (l : pystr) :
  contains [c] l = existsb (Z.eqb c) l.
Proof.
  induction l as [|x l IH]; [reflexivity|].
  cbn [contains existsb]. rewrite IH. f_equal.
  destruct l; cbn [startswith]; rewrite andb_true_r; apply Z.eqb_sym.
Qed.

Lemma contains_char_false (c : Z) (l : pystr) :
  ~ In c l -> contains [c] l = false.
Proof.
  intros H. rewrite contains_char.
  destruct (existsb (Z.eqb c) l) eqn:E; [|reflexivity].
  apply existsb_exists in E. destruct E as (x & Hin & Hx).
  apply Z.eqb_eq in Hx. subst x. contradiction.
Qed.

Lemma contains_char_true (c : Z) (l : pystr) :
  In c l -> contains [c] l = true.
Proof.
  intros H. rewrite contains_char. apply existsb_exists.
  exists c. split; [exact H|apply Z.eqb_refl].
Qed.

Lemma str_of_Z_plain (z : Z) : plain (str_of_Z z).
Proof.
  pose proof (str_of_Z_chars z) as H. rewrite Forall_forall in H.
  repeat split; intros Hin; apply H in Hin; lia.
Qed.

(** ** Reading lines back *)

Lemma readlines_from_line (body rest : pystr) :
  ~ In 10 body ->
  forall current,
    readlines_from current (body ++ newline ++ rest)
    = (rev current ++ body ++ newline) :: readlines_from [] rest.
Proof.
  induction body as [|c body IH]; intros Hn current.
  - reflexivity.
  - cbn [app readlines_from].
    destruct (Z.eqb_spec c 10) as [->|Hc]; [exfalso; apply Hn; left; reflexivity|].
    rewrite IH by (intros H; apply Hn; right; exact H).
    cbn [rev]. rewrite <- app_assoc. reflexivity.
Qed.

Lemma readlines_from_last (body : pystr) :
  ~ In 10 body ->
  forall current,
    rev current ++ body <> [] ->
    readlines_from current body = [rev current ++ body].
Proof.
  induction body as [|c body IH]; intros Hn current Hne.
  - rewrite app_nil_r in *. cbn [readlines_from].
    destruct current; [contradiction|reflexivity].
  - cbn [readlines_from].
    destruct (Z.eqb_spec c 10) as [->|Hc]; [exfalso; apply Hn; left; reflexivity|].
    rewrite IH.
    + cbn [rev]. rewrite <- app_assoc. reflexivity.
    + intros H; apply Hn; right; exact H.
    + cbn [rev]. rewrite <- app_assoc. cbn [app]. intros E.
      apply app_eq_nil in E. destruct E as [_ E]. discriminate E.
Qed.

Lemma proper_cons (line : pystr) (rest : list pystr) :
  complete_line line -> proper_lines rest -> proper_lines (line :: rest).
Proof. intros H1 H2. destruct rest; [left; exact H1|split; assumption]. Qed.

Lemma proper_app (A B : list pystr) :
  Forall complete_line A -> proper_lines B -> proper_lines (A ++ B).
Proof.
  induction A as [|a A IH]; intros HA HB; [exact HB|].
  apply Forall_cons_iff in HA. destruct HA as [Ha HA].
  cbn [app]. apply proper_cons; [exact Ha|apply IH; assumption].
Qed.

Lemma proper_tail (line : pystr) (rest : list pystr) :
  proper_lines (line :: rest) -> proper_lines rest.
Proof. destruct rest; [intros _; exact I|intros [_ H]; exact H]. Qed.

Lemma proper_split (lines : list pystr) :
  forall e, proper_lines lines -> (e < List.length lines)%nat ->
            Forall complete_line (firstn e lines) /\ proper_lines (skipn e lines).
Proof.
  induction lines as [|x lines IH]; intros e Hp He; [cbn in He; lia|].
  destruct e as [|e]; [split; [constructor|exact Hp]|].
  cbn [firstn skipn]. cbn [List.length] in He.
  destruct lines as [|y lines]; [cbn in He; lia|].
  destruct Hp as [Hx Hp].
  assert (He' : (e < List.length (y :: lines))%nat) by lia.
  destruct (IH e Hp He') as [H1 H2].
  split; [constructor; assumption|exact H2].
Qed.

Lemma readlines_concat (lines : list pystr) :
  proper_lines lines -> readlines (List.concat lines) = lines.
Proof.
  unfold readlines. induction lines as [|x lines IH]; intros Hp; [reflexivity|].
  cbn [List.concat].
  destruct lines as [|y lines].
  - cbn [List.concat]. rewrite app_nil_r.
    destruct Hp as [(body & -> & Hb)|[Hne Hn]].
    + rewrite <- (app_nil_r (body ++ newline)) at 1. rewrite <- app_assoc.
      rewrite readlines_from_line by exact Hb. reflexivity.
    + apply (readlines_from_last x Hn []). exact Hne.
  - destruct Hp as [(body & -> & Hb) Hp].
    rewrite <- app_assoc. rewrite readlines_from_line by exact Hb.
    cbn [rev app]. f_equal. apply IH. exact Hp.
Qed.

Lemma readlines_from_proper (content : pystr) :
  forall current, ~ In 10 current -> proper_lines (readlines_from current content).
Proof.
  induction content as [|c content IH]; intros current Hn.
  - cbn [readlines_from]. destruct current as [|x current]; [exact I|].
    right. split.
    + cbn [rev]. intros E. apply app_eq_nil in E. destruct E as [_ E].
      discriminate E.
    + intros H. apply in_rev in H. contradiction.
  - cbn [readlines_from]. destruct (Z.eqb_spec c 10) as [->|Hc].
    + apply proper_cons; [|apply IH; intros []].
      exists (rev current). split; [reflexivity|].
      intros H. apply in_rev in H. contradiction.
    + apply IH. intros [H|H]; [congruence|contradiction].
Qed.

Lemma readlines_proper (content : pystr) : proper_lines (readlines content).
Proof. apply readlines_from_proper. intros []. Qed.

(** ** The lines of the new entry *)

Lemma not_in_tabs (c : Z) (n : nat) : c <> 9 -> ~ In c (tabs n).
Proof. intros Hc H. apply repeat_spec in H. congruence. Qed.

Lemma not_in_quoted (c : Z) (s : pystr) :
  c <> dq -> ~ In c s -> ~ In c (quoted s).
Proof.
  intros Hc Hs [H|H]; [congruence|]. apply in_app_iff in H.
  destruct H as [H|[H|[]]]; [contradiction|congruence].
Qed.

Lemma new_entry_shape (u : Z) (tool : pystr) :
  plain tool ->
  exists b0 b1 b2 b3 b4 b5,
    new_entry_lines u tool
    = [b0 ++ newline; b1 ++ newline; b2 ++ newline; b3 ++ newline;
       b4 ++ newline; b5 ++ newline] /\
    b0 = tabs 9 ++ appid_token u /\
    (~ In 10 b0 /\ ~ In 123 b0 /\ ~ In 125 b0) /\
    (~ In 10 b1 /\ In 123 b1 /\ ~ In 125 b1) /\
    (~ In 10 b2 /\ ~ In 123 b2 /\ ~ In 125 b2) /\
    (~ In 10 b3 /\ ~ In 123 b3 /\ ~ In 125 b3) /\
    (~ In 10 b4 /\ ~ In 123 b4 /\ ~ In 125 b4) /\
    (~ In 10 b5 /\ ~ In 123 b5 /\ In 125 b5).
Proof.
  intros (T1 & T2 & T3).
  destruct (str_of_Z_plain u) as (U1 & U2 & U3).
  exists (tabs 9 ++ appid_token u), (tabs 9 ++ open_brace),
         (tabs 10 ++ quoted (lit "name") ++ tabs 4 ++ quoted tool),
         (tabs 10 ++ quoted (lit "config") ++ tabs 5 ++ quoted []),
         (tabs 10 ++ quoted (lit "priority") ++ tabs 5 ++ quoted (lit "250")),
         (tabs 9 ++ close_brace).
  split.
  { unfold new_entry_lines. rewrite <- !app_assoc. reflexivity. }
  split; [reflexivity|].
  assert (Q : forall c s, c <> 9 -> c <> dq -> ~ In c s ->
                          forall n, ~ In c (tabs n ++ quoted s)).
  { intros c s H9 Hq Hs n H. apply in_app_iff in H. destruct H as [H|H].
    - exact (not_in_tabs c n H9 H).
    - exact (not_in_quoted c s Hq Hs H). }
  assert (L : forall c (k v : pystr) n m,
              c <> 9 -> c <> dq -> ~ In c k -> ~ In c v ->
              ~ In c (tabs n ++ quoted k ++ tabs m ++ quoted v)).
  { intros c k v n m H9 Hq Hk Hv H. rewrite app_assoc in H.
    apply in_app_iff in H. destruct H as [H|H].
    - exact (Q c k H9 Hq Hk n H).
    - exact (Q c v H9 Hq Hv m H). }
  assert (B : forall c b, c <> 9 -> c <> b -> forall n, ~ In c (tabs n ++ [b])).
  { intros c b H9 Hb n H. apply in_app_iff in H. destruct H as [H|[H|[]]].
    - exact (not_in_tabs c n H9 H).
    - congruence. }
  repeat split.
  - apply Q; [discriminate|discriminate|exact U1].
  - apply Q; [discriminate|discriminate|exact U2].
  - apply Q; [discriminate|discriminate|exact U3].
  - apply B; discriminate.
  - apply in_app_iff. right. left. reflexivity.
  - apply B; discriminate.
  - apply L; try discriminate; [key_absent|exact T1].
  - apply L; try discriminate; [key_absent|exact T2].
  - apply L; try discriminate; [key_absent|exact T3].
  - apply L; try discriminate; [key_absent|intros []].
  - apply L; try discriminate; [key_absent|intros []].
  - apply L; try discriminate; [key_absent|intros []].
  - apply L; try discriminate; key_absent.
  - apply L; try discriminate; key_absent.
  - apply L; try discriminate; key_absent.
  - apply B; discriminate.
  - apply B; discriminate.
  - apply in_app_iff. right. left. reflexivity.
Qed.

Lemma braces_of (body : pystr) :
  contains open_brace (body ++ newline) = existsb (Z.eqb 123) body /\
  contains close_brace (body ++ newline) = existsb (Z.eqb 125) body.
Proof.
  change open_brace with [123]. change close_brace with [125].
  rewrite !contains_char, !existsb_app. cbn. rewrite !orb_false_r. auto.
Qed.

Lemma existsb_absent (c : Z) (l : pystr) : ~ In c l -> existsb (Z.eqb c) l = false.
Proof. intros H. rewrite <- contains_char. apply contains_char_false. exact H. Qed.

Lemma existsb_present (c : Z) (l : pystr) : In c l -> existsb (Z.eqb c) l = true.
Proof. intros H. rewrite <- contains_char. apply contains_char_true. exact H. Qed.

(** ** The brace scan over a concatenation *)

Lemma find_block_end_app (X Y : list pystr) :
  forall j c c',
    brace_count_after X c = Some c' ->
    find_block_end (X ++ Y) j c = find_block_end Y (j + List.length X) c'.
Proof.
  induction X as [|x X IH]; intros j c c' H.
  - cbn in H. injection H as <-. cbn. rewrite Nat.add_0_r. reflexivity.
  - cbn [brace_count_after] in H. cbn [app find_block_end List.length].
    replace (j + S (List.length X))%nat with (S j + List.length X)%nat by lia.
    destruct (contains close_brace x).
    + destruct (_ =? 0); [discriminate H|]. apply IH. exact H.
    + apply IH. exact H.
Qed.

Lemma find_block_end_split (lines : list pystr) :
  forall j c e,
    find_block_end lines j c = Some e ->
    exists closing c',
      (j <= e)%nat /\
      nth_error lines (e - j) = Some closing /\
      brace_count_after (firstn (e - j) lines) c = Some c' /\
      contains close_brace closing = true /\
      (if contains open_brace closing then c' + 1 else c') - 1 = 0.
Proof.
  induction lines as [|x lines IH]; intros j c e H; [discriminate H|].
  cbn [find_block_end] in H.
  destruct (contains close_brace x) eqn:Cx.
  - destruct ((if contains open_brace x then c + 1 else c) - 1 =? 0) eqn:Z0.
    + injection H as <-. exists x, c. rewrite Nat.sub_diag.
      apply Z.eqb_eq in Z0. cbn. auto.
    + destruct (IH _ _ _ H) as (closing & c' & Hj & Hn & Hb & Hc & Hz).
      exists closing, c'. replace (e - j)%nat with (S (e - S j)) by lia.
      cbn [nth_error firstn brace_count_after]. rewrite Cx, Z0.
      repeat split; try assumption. lia.
  - destruct (IH _ _ _ H) as (closing & c' & Hj & Hn & Hb & Hc & Hz).
    exists closing, c'. replace (e - j)%nat with (S (e - S j)) by lia.
    cbn [nth_error firstn brace_count_after]. rewrite Cx.
    repeat split; try assumption. lia.
Qed.

Lemma find_line_app (p : pystr -> bool) (X Y : list pystr) :
  forall i, (forall line, In line X -> p line = false) ->
            find_line p (X ++ Y) i = find_line p Y (i + List.length X).
Proof.
  induction X as [|x X IH]; intros i H.
  - cbn. rewrite Nat.add_0_r. reflexivity.
  - cbn [app find_line List.length]. rewrite (H x (or_introl eq_refl)).
    rewrite IH by (intros line Hin; apply H; right; exact Hin).
    f_equal. lia.
Qed.

Lemma find_line_found (p : pystr -> bool) (lines : list pystr) :
  forall i k, find_line p lines i = Some k ->
              (i <= k)%nat /\
              (forall line, In line (firstn (k - i) lines) -> p line = false) /\
              exists line, nth_error lines (k - i) = Some line /\ p line = true.
Proof.
  induction lines as [|x lines IH]; intros i k H; [discriminate H|].
  cbn [find_line] in H. destruct (p x) eqn:Px.
  - injection H as <-. rewrite Nat.sub_diag. split; [lia|].
    split; [intros line []|]. exists x. auto.
  - destruct (IH _ _ H) as (Hi & Hb & line & Hn & Hp).
    replace (k - i)%nat with (S (k - S i)) by lia. split; [lia|]. split.
    + intros l [<-|Hin]; [exact Px|apply Hb; exact Hin].
    + exists line. auto.
Qed.

Lemma find_line_prefix (p : pystr -> bool) (lines Y : list pystr) (k : nat) :
  find_line p lines 0 = Some k ->
  forall e, (k < e)%nat ->
            find_line p (firstn e lines ++ Y) 0 = Some k.
Proof.
  intros H e He.
  destruct (find_line_found _ _ _ _ H) as (_ & Hb & line & Hn & Hp).
  rewrite Nat.sub_0_r in *.
  assert (Hk : (k < List.length lines)%nat)
    by (apply nth_error_Some; congruence).
  assert (E : firstn e lines
              = firstn k lines ++ line :: skipn (S k) (firstn e lines)).
  { rewrite <- (firstn_skipn k (firstn e lines)) at 1.
    rewrite firstn_firstn, Nat.min_l by lia. f_equal.
    assert (Hn' : nth_error (firstn e lines) k = Some line).
    { rewrite nth_error_firstn. destruct (Nat.ltb_spec k e); [exact Hn|lia]. }
    clear - Hn'. revert k Hn'. generalize (firstn e lines) as l.
    induction l as [|x l IH]; intros [|k] Hn; try discriminate Hn.
    - injection Hn as ->. reflexivity.
    - cbn [skipn]. apply IH. exact Hn. }
  rewrite E, <- app_assoc. rewrite find_line_app by exact Hb.
  cbn [app find_line]. rewrite Hp. f_equal.
  rewrite length_firstn. lia.
Qed.

(** ** Patching the patched file *)

Lemma skipn_app_le {A : Type} (X Y : list A) (n : nat) :
  (n <= List.length X)%nat -> skipn n (X ++ Y) = skipn n X ++ Y.
Proof.
  intros H. rewrite skipn_app.
  replace (n - List.length X)%nat with 0%nat by lia. reflexivity.
Qed.

Lemma skipn_app_ge {A : Type} (X Y : list A) (k : nat) :
  skipn (List.length X + k) (X ++ Y) = skipn k Y.
Proof.
  rewrite skipn_app, skipn_all2 by lia.
  replace (List.length X + k - List.length X)%nat with k by lia. reflexivity.
Qed.

Lemma firstn_app_exact {A : Type} (X Y : list A) :
  firstn (List.length X) (X ++ Y) = X.
Proof.
  rewrite firstn_app, firstn_all, Nat.sub_diag, firstn_O, app_nil_r.
  reflexivity.
Qed.

Lemma skipn_nth {A : Type} (l : list A) :
  forall e x, nth_error l e = Some x -> skipn e l = x :: skipn (S e) l.
Proof.
  induction l as [|y l IH]; intros [|e] x H; try discriminate H.
  - injection H as ->. reflexivity.
  - cbn [skipn]. rewrite (IH e x H). reflexivity.
Qed.

Lemma patch_shape (u : Z) (tool : pystr) (lines lines' : list pystr) :
  patch_compat_mapping u tool lines = Some lines' ->
  exists A B, lines' = A ++ [List.concat (new_entry_lines u tool)] ++ B.
Proof.
  unfold patch_compat_mapping.
  destruct (find_line _ lines 0) as [s|]; [|discriminate].
  destruct (find_block_end _ _ _) as [e|]; [|discriminate].
  cbv zeta.
  destruct (find_line _ _ _) as [a|].
  - destruct (find_block_end _ _ _) as [ae|]; [|discriminate].
    intros [= <-]. eexists _, _. reflexivity.
  - intros [= <-]. eexists _, _. reflexivity.
Qed.

Lemma patch_inserts (lines : list pystr) (u : Z) (tool : pystr) (s e : nat) :
  find_line (fun line => contains section_token (strip line)) lines 0 = Some s ->
  find_block_end (skipn (S s) lines) (S s) 0 = Some e ->
  (forall k line, (s <= k <= e)%nat -> nth_error lines k = Some line ->
                  contains (appid_token u) line = false) ->
  patch_compat_mapping u tool lines
  = Some (firstn e lines ++ [List.concat (new_entry_lines u tool)]
            ++ skipn e lines).
Proof.
  intros Hs He Hnew. unfold patch_compat_mapping. rewrite Hs, He.
  rewrite find_line_none; [reflexivity|].
  intros line Hin. apply in_slice in Hin. destruct Hin as (k & Hk & Hn).
  apply (Hnew k line); [lia|exact Hn].
Qed.

Lemma patch_again (lines : list pystr) (u : Z) (tool : pystr) (s e : nat)
    (closing : pystr) :
  find_line (fun line => contains section_token (strip line)) lines 0 = Some s ->
  find_block_end (skipn (S s) lines) (S s) 0 = Some e ->
  (forall k line, (s <= k <= e)%nat -> nth_error lines k = Some line ->
                  contains (appid_token u) line = false) ->
  nth_error lines e = Some closing ->
  contains open_brace closing = false ->
  plain tool ->
  patch_compat_mapping u tool
    (firstn e lines ++ new_entry_lines u tool ++ skipn e lines)
  = Some (firstn e lines ++ [List.concat (new_entry_lines u tool)]
            ++ skipn e lines).
Proof.
  intros Hs He Hnew Hclosing Hopen Hplain.
  pose proof (find_block_end_bounds _ _ _ _ He) as Bd.
  rewrite length_skipn in Bd.
  assert (Hlt : (s < e < List.length lines)%nat) by lia.
  set (A := firstn e lines). set (B := skipn e lines).
  set (E := List.concat (new_entry_lines u tool)).
  assert (LA : List.length A = e) by (unfold A; rewrite length_firstn; lia).
  assert (HB : B = closing :: skipn (S e) lines)
    by (apply skipn_nth; exact Hclosing).
  destruct (find_block_end_split _ _ _ _ He)
    as (closing' & c' & _ & Hn' & Hcount & Hclose & Hzero).
  rewrite List.nth_error_skipn in Hn'.
  replace (S s + (e - S s))%nat with e in Hn' by lia.
  assert (closing' = closing) by congruence. subst closing'.
  rewrite Hopen in Hzero. assert (c' = 1) by lia. subst c'.
  assert (HX : firstn (e - S s) (skipn (S s) lines) = skipn (S s) A).
  { unfold A. rewrite firstn_skipn_comm. f_equal. f_equal. lia. }
  rewrite HX in Hcount.
  destruct (new_entry_shape u tool Hplain)
    as (b0 & b1 & b2 & b3 & b4 & b5 & HN & Hb0 & F0 & F1 & F2 & F3 & F4 & F5).
  destruct F0 as (_ & O0 & C0). destruct F1 as (_ & O1 & C1).
  destruct F2 as (_ & O2 & C2). destruct F3 as (_ & O3 & C3).
  destruct F4 as (_ & O4 & C4). destruct F5 as (_ & O5 & C5).
  destruct (braces_of b0) as [P0 Q0]. destruct (braces_of b1) as [P1 Q1].
  destruct (braces_of b2) as [P2 Q2]. destruct (braces_of b3) as [P3 Q3].
  destruct (braces_of b4) as [P4 Q4]. destruct (braces_of b5) as [P5 Q5].
  rewrite (existsb_absent _ _ O0) in P0. rewrite (existsb_absent _ _ C0) in Q0.
  rewrite (existsb_present _ _ O1) in P1. rewrite (existsb_absent _ _ C1) in Q1.
  rewrite (existsb_absent _ _ O2) in P2. rewrite (existsb_absent _ _ C2) in Q2.
  rewrite (existsb_absent _ _ O3) in P3. rewrite (existsb_absent _ _ C3) in Q3.
  rewrite (existsb_absent _ _ O4) in P4. rewrite (existsb_absent _ _ C4) in Q4.
  rewrite (existsb_absent _ _ O5) in P5. rewrite (existsb_present _ _ C5) in Q5.
  assert (Htoken : contains (appid_token u) (b0 ++ newline) = true).
  { rewrite Hb0, <- app_assoc. apply contains_app. }
  subst E. remember (new_entry_lines u tool) as N eqn:HNdef.
  set (E := List.concat N).
  unfold patch_compat_mapping.
  (* the section header is where it was *)
  assert (S1 : find_line (fun line => contains section_token (strip line))
                 (A ++ N ++ B) 0 = Some s).
  { unfold A. apply find_line_prefix; [exact Hs|lia]. }
  rewrite S1.
  (* the section now ends six lines later *)
  assert (S2 : find_block_end (skipn (S s) (A ++ N ++ B)) (S s) 0
               = Some (e + 6)%nat).
  { rewrite skipn_app_le by lia.
    rewrite (find_block_end_app _ _ _ _ _ Hcount).
    rewrite length_skipn, LA.
    replace (S s + (e - S s))%nat with e by lia.
    rewrite HN. cbn [app find_block_end].
    rewrite P0, Q0, P1, Q1, P2, Q2, P3, Q3, P4, Q4, P5, Q5. cbn [Z.add Z.sub Z.eqb Z.opp Z.pos_sub Pos.add Pos.succ Pos.pred_double].
    rewrite HB. cbn [find_block_end]. rewrite Hopen, Hclose.
    cbn. f_equal. lia. }
  rewrite S2.
  (* the identifier is found on the first line of the new entry *)
  assert (S3 : find_line (contains (appid_token u))
                 (slice s (S (e + 6)) (A ++ N ++ B)) s = Some e).
  { unfold slice. rewrite skipn_app_le by lia.
    rewrite firstn_app, length_skipn, LA.
    rewrite firstn_all2 by (rewrite length_skipn; lia).
    replace (S (e + 6) - s - (e - s))%nat with 7%nat by lia.
    rewrite find_line_app.
    - rewrite length_skipn, LA. rewrite HN. cbn [app firstn find_line].
      rewrite Htoken. f_equal. lia.
    - intros line Hin. apply In_nth_error in Hin. destruct Hin as [k Hk].
      rewrite List.nth_error_skipn in Hk. unfold A in Hk.
      rewrite nth_error_firstn in Hk.
      destruct (Nat.ltb_spec (s + k) e); [|discriminate Hk].
      apply (Hnew (s + k)%nat line); [lia|exact Hk]. }
  rewrite S3.
  (* and its block ends five lines further *)
  assert (S4 : find_block_end (slice (S e) (S (e + 6)) (A ++ N ++ B)) (S e) 0
               = Some (e + 5)%nat).
  { unfold slice.
    replace (S e) with (List.length A + 1)%nat at 2 by lia.
    rewrite skipn_app_ge.
    replace (S (e + 6) - S e)%nat with 6%nat by lia.
    rewrite HN. cbn [app skipn firstn find_block_end].
    rewrite P1, Q1, P2, Q2, P3, Q3, P4, Q4, P5, Q5. cbn. f_equal. lia. }
  cbv zeta. rewrite S4.
  assert (T1 : firstn e (A ++ N ++ B) = A)
    by (rewrite <- LA; apply firstn_app_exact).
  assert (T2 : skipn (S (e + 5)) (A ++ N ++ B) = B).
  { replace (S (e + 5)) with (List.length A + 6)%nat by lia.
    rewrite skipn_app_ge, HN. reflexivity. }
  rewrite T1, T2, <- HNdef. reflexivity.
Qed.

End PatchText.

(** X26. [verify_compatibility_tool_persists] returns [True] on the text
    that step 1 of [set_compatibility_tool_complete_stl_style] has
    written for the same identifier, whether the entry was inserted or
    replaced. *)
Theorem patched_text_passes_the_persistence_check
    (unsigned_appid : Z) (compat_tool content content' : pystr) :
  patch_config_text unsigned_appid compat_tool content = Some content' ->
  verify_compatibility_tool_persists unsigned_appid content' = true.
Proof.
  unfold patch_config_text, verify_compatibility_tool_persists.
  destruct (patch_compat_mapping unsigned_appid compat_tool (readlines content))
    as [lines'|] eqn:P; [|discriminate].
  intros [= <-]. destruct (patch_shape _ _ _ _ P) as (A & B & ->).
  rewrite !concat_app. cbn [List.concat new_entry_lines].
  rewrite <- !app_assoc. rewrite (app_assoc (List.concat A)).
  apply contains_app.
Qed.

Lemma patched_text_witness :
  verify_compatibility_tool_persists 456 (List.concat Sample.config_lines)
  = false /\
  exists content',
    patch_config_text 456 proton_experimental (List.concat Sample.config_lines)
    = Some content' /\
    verify_compatibility_tool_persists 456 content' = true.
Proof.
  split; [vm_compute; reflexivity|].
  destruct (patch_config_text 456 proton_experimental
              (List.concat Sample.config_lines)) as [content'|] eqn:E;
    [|vm_compute in E; discriminate E].
  exists content'. split; [reflexivity|].
  exact (patched_text_passes_the_persistence_check 456 proton_experimental
           (List.concat Sample.config_lines) content' E).
Defined.

(** X27. Patching is idempotent on the file: when the section is found,
    its closing line has no opening brace, none of its lines contains the
    quoted identifier and the tool name has neither a newline nor a brace,
    step 1 of [set_compatibility_tool_complete_stl_style] inserts the
    entry; the text it writes reads back as the old lines with the six
    lines of the entry before the closing line of the section; and
    running the step again on that text, which now finds the entry and
    replaces it, writes the same text. *)
Theorem patching_twice_writes_the_same_text
    (content : pystr) (unsigned_appid : Z) (compat_tool : pystr) (s e : nat)
    (closing : pystr) :
  let lines := readlines content in
  find_line (fun line => contains section_token (strip line)) lines 0 = Some s ->
  find_block_end (skipn (S s) lines) (S s) 0 = Some e ->
  (forall k line, (s <= k <= e)%nat -> nth_error lines k = Some line ->
                  contains (appid_token unsigned_appid) line = false) ->
  nth_error lines e = Some closing ->
  contains open_brace closing = false ->
  plain compat_tool ->
  exists content',
    patch_config_text unsigned_appid compat_tool content = Some content' /\
    readlines content'
    = firstn e lines ++ new_entry_lines unsigned_appid compat_tool
        ++ skipn e lines /\
    patch_config_text unsigned_appid compat_tool content' = Some content'.
Proof.
  intros lines Hs He Hnew Hclosing Hopen Hplain.
  pose proof (patch_inserts lines unsigned_appid compat_tool s e Hs He Hnew) as P1.
  pose proof (patch_again lines unsigned_appid compat_tool s e closing
                Hs He Hnew Hclosing Hopen Hplain) as P2.
  set (N := new_entry_lines unsigned_appid compat_tool) in *.
  exists (List.concat (firstn e lines ++ [List.concat N] ++ skipn e lines)).
  assert (Hlen : (e < List.length lines)%nat)
    by (apply nth_error_Some; congruence).
  assert (R : readlines (List.concat (firstn e lines ++ [List.concat N]
                                        ++ skipn e lines))
              = firstn e lines ++ N ++ skipn e lines).
  { replace (List.concat (firstn e lines ++ [List.concat N] ++ skipn e lines))
      with (List.concat (firstn e lines ++ N ++ skipn e lines)).
    - apply readlines_concat.
      destruct (proper_split lines e (readlines_proper content) Hlen) as [HA HB].
      apply proper_app; [exact HA|]. apply proper_app; [|exact HB].
      destruct (new_entry_shape unsigned_appid compat_tool Hplain)
        as (b0 & b1 & b2 & b3 & b4 & b5 & HN & _ & F0 & F1 & F2 & F3 & F4 & F5).
      unfold N. rewrite HN.
      repeat constructor; eexists; (split; [reflexivity|]); tauto.
    - rewrite !concat_app. cbn [List.concat]. rewrite app_nil_r. reflexivity. }
  split; [|split; [exact R|]].
  - unfold patch_config_text. fold lines. rewrite P1. reflexivity.
  - unfold patch_config_text. rewrite R, P2. reflexivity.
Qed.

Lemma patching_twice_witness :
  exists content',
    patch_config_text 456 proton_experimental Scenario.config_text
    = Some content' /\
    readlines content'
    = firstn 4 (readlines Scenario.config_text)
        ++ new_entry_lines 456 proton_experimental
        ++ skipn 4 (readlines Scenario.config_text) /\
    patch_config_text 456 proton_experimental content' = Some content'.
Proof.
  apply (patching_twice_writes_the_same_text Scenario.config_text 456
           proton_experimental 2 4 (tabs 1 ++ close_brace ++ newline)).
  - vm_compute. reflexivity.
  - vm_compute. reflexivity.
  - intros k line Hk Hn.
    assert (k = 2 \/ k = 3 \/ k = 4)%nat as [-> | [-> | ->]] by lia;
      vm_compute in Hn; injection Hn as <-; vm_compute; reflexivity.
  - vm_compute. reflexivity.
  - vm_compute. reflexivity.
  - repeat split; intros H; vm_compute in H;
      repeat (destruct H as [H|H]; [discriminate H|]); exact H.
Defined.

(* ===================================================================== *)
(** * What the creator and the workflow leave behind *)
(* ===================================================================== *)

Section Outcome.
Variables (env : externals) (name exe dir : pystr).

Lemma create_run w sd appid :
  shortcuts_vdf w = Loaded sd ->
  holds_data sd = true ->
  holds_str name = true ->
  holds_str (home env) = true ->
  checksum_appid exe name = Some appid ->
  batch_writable env = true ->
  create_shortcut_directly_with_proton env name exe dir w
  = set_proton_version_for_shortcut appid proton_experimental
      (after_upsert env name appid sd w).
Proof.
  intros Hw Hsd Hn Hh Ha Hb.
  unfold create_shortcut_directly_with_proton, run, bind, get_shortcuts_vdf.
  rewrite Hw, Ha. unfold lift, ret, write_batch_file. rewrite Hb.
  unfold binary_load. cbn [shortcuts_vdf]. rewrite Hw.
  rewrite binary_dump_holds
    by (apply holds_upsert; eauto using checksum_appid_int32).
  unfold store_written.
  cbn -[upsert set_proton_version_for_shortcut proton_experimental].
  fold (after_upsert env name appid sd w).
  destruct (set_proton_version_for_shortcut appid proton_experimental
              (after_upsert env name appid sd w)); reflexivity.
Qed.

Lemma create_true w w1 :
  (forall sd, shortcuts_vdf w = Loaded sd -> holds_data sd = true) ->
  holds_str name = true ->
  holds_str (home env) = true ->
  create_shortcut_directly_with_proton env name exe dir w = (w1, true) ->
  exists sd appid,
    shortcuts_vdf w = Loaded sd /\ checksum_appid exe name = Some appid /\
    batch_writable env = true /\
    set_proton_version_for_shortcut appid proton_experimental
      (after_upsert env name appid sd w) = (w1, true).
Proof.
  intros Hall Hn Hh H.
  destruct (shortcuts_vdf w) as [| |sd] eqn:Hw;
    destruct (checksum_appid exe name) as [appid|] eqn:Ha;
    destruct (batch_writable env) eqn:Hb;
    try (rewrite (create_run w sd appid Hw (Hall sd eq_refl) Hn Hh Ha Hb) in H;
         eauto 10);
    exfalso; revert H;
    unfold create_shortcut_directly_with_proton, run, bind, get_shortcuts_vdf;
    rewrite Hw, ?Ha; unfold lift, ret, raise, write_batch_file, binary_load;
    rewrite ?Hb; cbn [shortcuts_vdf]; rewrite ?Hw; discriminate.
Qed.

Lemma verify_and_finish_success id w w' prefix_path actual_appid :
  verify_and_finish env name dir exe id w
  = (w', Some [PyBool true; PyPath prefix_path; PyInt actual_appid]) ->
  path_exists env (home env ++ lit "/.local/share/Steam/steamapps/compatdata"
                     ++ lit "/" ++ id) = true /\
  replace_shortcut_with_final_exe name exe dir w = (w', true) /\
  inventory_appid env name = Some actual_appid /\
  get_compatdata_path_for_appid env actual_appid = Some prefix_path /\
  path_exists env prefix_path = true /\
  prefix_verified env prefix_path = true.
Proof.
  unfold verify_and_finish. cbv zeta.
  destruct (path_exists env (home env ++ _)) eqn:P; cbn [negb];
    [|discriminate].
  unfold bind, call.
  destruct (replace_shortcut_with_final_exe name exe dir w) as [w2 [|]] eqn:R;
    cbn [negb]; [|discriminate].
  destruct (inventory_appid env name) as [a|] eqn:Ia; [|discriminate].
  destruct (get_compatdata_path_for_appid env a) as [p|] eqn:Ga; [|discriminate].
  destruct (path_exists env p) eqn:Pp; cbn [negb]; [|discriminate].
  destruct (prefix_verified env p) eqn:V; cbn [negb]; [|discriminate].
  unfold ret. intros [= <- <- <-]. repeat split; assumption || reflexivity.
Qed.

Lemma workflow_success w w' prefix_path actual_appid :
  run_complete_workflow env name dir exe w
  = (w', [PyBool true; PyPath prefix_path; PyInt actual_appid]) ->
  exists w1 initial,
    create_shortcut_directly_with_proton env name exe dir w = (w1, true) /\
    checksum_appid exe name = Some initial /\
    verify_and_finish env name dir exe (prefix_dir_name initial)
      (fst (record_launch (rungameid_url (workflow_rungameid initial)) w1))
    = (w', Some [PyBool true; PyPath prefix_path; PyInt actual_appid]).
Proof.
  unfold run_complete_workflow, run, bind, call.
  destruct (create_shortcut_directly_with_proton env name exe dir w)
    as [w1 [|]]; cbn [negb]; [|discriminate].
  unfold lift. destruct (checksum_appid exe name) as [a|];
    unfold ret, raise; cbv beta iota zeta; [|discriminate].
  destruct (restart_result env); cbn [negb]; [|discriminate].
  unfold record_launch at 1. cbv beta iota.
  intros H. exists w1, a. split; [reflexivity|]. split; [reflexivity|].
  unfold record_launch. cbn [fst].
  destruct (steam_launch env _) as [code| |]; [| |discriminate H].
  - destruct (code =? 0); cbn [negb] in H; [|discriminate H].
    destruct (verify_and_finish _ _ _ _ _ _) as [w2 [r|]]; [|discriminate H].
    injection H as <- <-. reflexivity.
  - destruct (verify_and_finish _ _ _ _ _ _) as [w2 [r|]]; [|discriminate H].
    injection H as <- <-. reflexivity.
Qed.

End Outcome.

(** X28. [create_shortcut_directly_with_proton] writes the batch file and
    the store before it turns to [config.vdf], and returns what
    [set_proton_version_for_shortcut] returns: when that file does not
    decode, or has something that is no mapping on the way to the
    compatibility mapping, the method returns [False] although the
    shortcut has been created or updated on disk (the store read, the name
    and the home directory being strings that the binary format holds). *)
Theorem create_returns_false_after_writing_the_store
    (env : externals) (shortcut_name exe_path modlist_install_dir : pystr)
    (w : world) (sd : shortcuts_data) (appid : Z) :
  shortcuts_vdf w = Loaded sd ->
  holds_data sd = true ->
  holds_str shortcut_name = true ->
  holds_str (home env) = true ->
  checksum_appid exe_path shortcut_name = Some appid ->
  batch_writable env = true ->
  config_vdf w = Unreadable \/
  (exists c, config_vdf w = Loaded c /\
             assign_compat_tool appid proton_experimental c = None) ->
  create_shortcut_directly_with_proton env shortcut_name exe_path
    modlist_install_dir w
  = (after_upsert env shortcut_name appid sd w, false) /\
  stored (after_upsert env shortcut_name appid sd w)
  = upsert env shortcut_name appid (shortcuts_of sd) /\
  (0 < count_named shortcut_name
         (stored (after_upsert env shortcut_name appid sd w)))%nat.
Proof.
  intros Hw Hsd Hn Hh Ha Hb Hc.
  rewrite (create_run env _ _ modlist_install_dir w sd appid Hw Hsd Hn Hh Ha Hb).
  split; [|split; [reflexivity|]].
  - unfold set_proton_version_for_shortcut, run. cbv beta.
    change (config_vdf (after_upsert env shortcut_name appid sd w))
      with (config_vdf w).
    destruct Hc as [E|(c & E & Hc)]; rewrite E; [reflexivity|].
    unfold bind, lift. rewrite Hc. reflexivity.
  - change (stored (after_upsert env shortcut_name appid sd w))
      with (upsert env shortcut_name appid (shortcuts_of sd)).
    rewrite count_upsert.
    destruct (count_named shortcut_name (shortcuts_of sd)); lia.
Qed.

(** With a [config.vdf] that does not decode, and with one in which
    ['Software'] is a string, the entry of "Tuxborn" is in the store and
    the method has returned [False]. *)
Lemma create_returns_false_witness :
  create_shortcut_directly_with_proton Sample.env Sample.Tuxborn Sample.boot_sh
    Sample.tmp (Scenario.broken_config [])
  = (after_upsert Sample.env Sample.Tuxborn (-1953115905)
       {| sd_shortcuts := Some []; sd_rest := [] |} (Scenario.broken_config []),
     false) /\
  count_named Sample.Tuxborn
    (stored (after_upsert Sample.env Sample.Tuxborn (-1953115905)
               {| sd_shortcuts := Some []; sd_rest := [] |}
               (Scenario.broken_config []))) = 1%nat /\
  create_shortcut_directly_with_proton Sample.env Sample.Tuxborn Sample.boot_sh
    Sample.tmp Scenario.software_is_text
  = (after_upsert Sample.env Sample.Tuxborn (-1953115905)
       {| sd_shortcuts := Some []; sd_rest := [] |} Scenario.software_is_text,
     false).
Proof.
  destruct (create_returns_false_after_writing_the_store Sample.env
              Sample.Tuxborn Sample.boot_sh Sample.tmp (Scenario.broken_config [])
              {| sd_shortcuts := Some []; sd_rest := [] |} (-1953115905)
              eq_refl eq_refl eq_refl eq_refl
              ltac:(vm_compute; reflexivity) eq_refl (or_introl eq_refl))
    as (H1 & _ & _).
  destruct (create_returns_false_after_writing_the_store Sample.env
              Sample.Tuxborn Sample.boot_sh Sample.tmp Scenario.software_is_text
              {| sd_shortcuts := Some []; sd_rest := [] |} (-1953115905)
              eq_refl eq_refl eq_refl eq_refl
              ltac:(vm_compute; reflexivity) eq_refl
              (or_intror (ex_intro _ [ (lit "Software", VStr (lit "x")) ]
                            (conj eq_refl eq_refl))))
    as (H2 & _ & _).
  split; [exact H1|]. split; [vm_compute; reflexivity|exact H2].
Defined.

(** X29. What a successful [run_complete_workflow] has done, when the
    binary format holds what is dumped (the strings of the store read, the
    name, the home directory and the two paths encode in UTF-8 and have no
    U+0000). When it
    returns [(True, prefix_path, actual_appid)], the store file was
    readable and has been written twice; every entry with the name now
    carries the checksum identifier, the quoted final executable, the
    start directory as passed and the compatibility tool, under
    sequential keys; the client was asked once, with the handle built
    from the signed identifier; the directory named after the absolute
    value of the checksum identifier exists; and the identifier and the
    path returned are those of the inventory lookup, whose prefix was
    verified: the identifier returned is not read from the store. *)
Theorem run_complete_workflow_success
    (env : externals) (shortcut_name modlist_install_dir final_exe_path : pystr)
    (w w' : world) (prefix_path : pystr) (actual_appid : Z) :
  (forall sd, shortcuts_vdf w = Loaded sd -> holds_data sd = true) ->
  holds_str shortcut_name = true ->
  holds_str (home env) = true ->
  holds_str final_exe_path = true ->
  holds_str modlist_install_dir = true ->
  run_complete_workflow env shortcut_name modlist_install_dir final_exe_path w
  = (w', [PyBool true; PyPath prefix_path; PyInt actual_appid]) ->
  exists sd initial_appid,
    shortcuts_vdf w = Loaded sd /\
    checksum_appid final_exe_path shortcut_name = Some initial_appid /\
    inventory_appid env shortcut_name = Some actual_appid /\
    get_compatdata_path_for_appid env actual_appid = Some prefix_path /\
    prefix_verified env prefix_path = true /\
    path_exists env
      (home env ++ lit "/.local/share/Steam/steamapps/compatdata" ++ lit "/"
         ++ prefix_dir_name initial_appid) = true /\
    launched w'
    = launched w ++ [rungameid_url (workflow_rungameid initial_appid)] /\
    store_writes w' = S (S (store_writes w)) /\
    Dict.values (stored w')
    = map (retouch shortcut_name (final_fields final_exe_path modlist_install_dir))
          (Dict.values (upsert env shortcut_name initial_appid (shortcuts_of sd))) /\
    sequential_keys (stored w') /\
    forall s, In s (Dict.values (stored w')) -> named shortcut_name s = true ->
              Dict.get appid_key s = Some (VInt initial_appid) /\
              Dict.get Exe s = Some (VStr (quoted final_exe_path)) /\
              Dict.get StartDir s = Some (VStr modlist_install_dir) /\
              Dict.get CompatTool s = Some (VStr proton_experimental).
Proof.
  intros Hall Hname Hhome Hexe Hdir Hrun.
  destruct (workflow_success _ _ _ _ _ _ _ _ Hrun)
    as (w1 & initial & Hcreate & Hinit & Hfinish).
  destruct (create_true _ _ _ _ _ _ Hall Hname Hhome Hcreate)
    as (sd & appid & Hw & Ha & Hb & Hset).
  assert (appid = initial) by congruence. subst appid.
  destruct (verify_and_finish_success _ _ _ _ _ _ _ _ _ Hfinish)
    as (Hpath & Hreplace & Hinv & Hcompat & _ & Hver).
  set (w0 := after_upsert env shortcut_name initial sd w) in *.
  assert (K1 : shortcuts_vdf w1 = shortcuts_vdf w0).
  { pose proof (set_proton_keeps_shortcuts initial proton_experimental w0) as K.
    rewrite Hset in K. exact K. }
  assert (K2 : store_writes w1 = store_writes w0).
  { pose proof (set_proton_keeps_writes initial proton_experimental w0) as K.
    rewrite Hset in K. exact K. }
  assert (K3 : launched w1 = launched w0).
  { pose proof (set_proton_keeps_launched initial proton_experimental w0) as K.
    rewrite Hset in K. exact K. }
  set (w2 := fst (record_launch
                    (rungameid_url (workflow_rungameid initial)) w1)) in *.
  assert (Hw2 : shortcuts_vdf w2
                = Loaded (with_shortcuts sd
                            (upsert env shortcut_name initial (shortcuts_of sd)))).
  { unfold w2, record_launch. cbn [fst shortcuts_vdf]. rewrite K1. reflexivity. }
  rewrite (replace_run _ _ _ w2 _ Hw2) in Hreplace.
  cbn [shortcuts_of with_shortcuts sd_shortcuts] in Hreplace.
  destruct (existsb (named shortcut_name)
              (Dict.values (upsert env shortcut_name initial (shortcuts_of sd))));
    [|discriminate Hreplace].
  rewrite dump_and_return_true in Hreplace.
  2:{ apply (holds_replaced shortcut_name final_exe_path modlist_install_dir
               (with_shortcuts sd
                  (upsert env shortcut_name initial (shortcuts_of sd))));
        [|exact Hexe|exact Hdir].
      apply holds_upsert;
        eauto using checksum_appid_int32. }
  injection Hreplace as <-.
  exists sd, initial.
  split; [exact Hw|]. split; [exact Hinit|]. split; [exact Hinv|].
  split; [exact Hcompat|]. split; [exact Hver|]. split; [exact Hpath|].
  unfold stored.
  cbn [store_written shortcuts_vdf with_shortcuts shortcuts_of sd_shortcuts
       launched store_writes].
  split.
  { unfold w2, record_launch. cbn [fst launched]. rewrite K3. reflexivity. }
  split.
  { unfold w2, record_launch. cbn [fst store_writes]. rewrite K2. reflexivity. }
  split; [apply values_reindex|]. split; [apply sequential_reindex|].
  intros s Hin Hn. rewrite values_reindex in Hin.
  apply in_map_iff in Hin. destruct Hin as (s0 & <- & Hin0).
  assert (Hn0 : named shortcut_name s0 = true).
  { unfold retouch in Hn. destruct (named shortcut_name s0) eqn:E;
      [reflexivity|]. congruence. }
  destruct (bootstrapped_upsert env shortcut_name initial (shortcuts_of sd) s0
              Hin0 Hn0) as (Bid & _ & _ & _ & _ & Bct).
  unfold retouch. rewrite Hn0.
  destruct (final_fields_update final_exe_path modlist_install_dir s0)
    as (Fe & Fs & _ & _ & Fk).
  split; [rewrite Fk; [exact Bid|discriminate..]|].
  split; [exact Fe|]. split; [exact Fs|].
  rewrite Fk; [exact Bct|discriminate..].
Qed.

Lemma run_complete_workflow_success_witness :
  snd (run_complete_workflow Scenario.env Sample.Tuxborn Sample.tmp
         Sample.boot_sh (Sample.world_of Sample.old_tuxborn))
  = [PyBool true; PyPath (lit "/compatdata/4242"); PyInt 4242] /\
  exists sd initial_appid,
    shortcuts_vdf (Sample.world_of Sample.old_tuxborn) = Loaded sd /\
    checksum_appid Sample.boot_sh Sample.Tuxborn = Some initial_appid /\
    store_writes (fst (run_complete_workflow Scenario.env Sample.Tuxborn
                         Sample.tmp Sample.boot_sh
                         (Sample.world_of Sample.old_tuxborn))) = 2%nat.
Proof.
  split; [vm_compute; reflexivity|].
  destruct (run_complete_workflow_success Scenario.env Sample.Tuxborn
              Sample.tmp Sample.boot_sh (Sample.world_of Sample.old_tuxborn)
              (fst (run_complete_workflow Scenario.env Sample.Tuxborn
                      Sample.tmp Sample.boot_sh
                      (Sample.world_of Sample.old_tuxborn)))
              (lit "/compatdata/4242") 4242
              ltac:(intros sd [= <-]; reflexivity)
              eq_refl eq_refl eq_refl eq_refl
              ltac:(vm_compute; reflexivity))
    as (sd & initial & Hw & Hi & _ & _ & _ & _ & _ & Hs & _).
  exists sd, initial. split; [exact Hw|]. split; [exact Hi|exact Hs].
Defined.
